(** * cmakelint: the line-cleansing and rule-checking engine

    A shallow embedding of [src/cmakelint/__main__.py].

    Text is modelled as [list ascii]: the development covers ASCII input, and
    the character classes below are the ASCII part of the tables used by
    Python's [str] methods and by the [re] module on [str] patterns.  The
    process-wide singletons ([_lint_state], [_package_state]) and the printed
    findings are threaded through a small state-and-exception monad. *)

From Stdlib Require Import String Ascii List Bool Arith Lia DecimalString.
Import ListNotations.

Set Implicit Arguments.

(** ** Python text primitives *)

Definition str := list ascii.

(** Literals are written as Rocq strings and unpacked to character lists. *)
Definition txt (s : string) : str := list_ascii_of_string s.
Arguments txt : simpl never.

Module PyStr.

Definition dquote : ascii := "034"%char.
Definition backslash : ascii := "092"%char.
Definition tab : ascii := "009"%char.
Definition newline : ascii := "010"%char.
Definition cr : ascii := "013"%char.

Definition in_range (lo hi : nat) (c : ascii) : bool :=
  let n := nat_of_ascii c in (lo <=? n) && (n <=? hi).

(** [str.isspace] on one character, and the class [\s]: TAB..CR, FS..US
    and the space. *)
Definition isspace (c : ascii) : bool :=
  in_range 9 13 c || in_range 28 31 c || in_range 32 32 c.

Definition is_upper_chr (c : ascii) : bool := in_range 65 90 c.
Definition is_lower_chr (c : ascii) : bool := in_range 97 122 c.
Definition is_digit_chr (c : ascii) : bool := in_range 48 57 c.

(** The class [\w]. *)
Definition is_word (c : ascii) : bool :=
  is_upper_chr c || is_lower_chr c || is_digit_chr c || Ascii.eqb c "_".

Definition lower_chr (c : ascii) : ascii :=
  if is_upper_chr c then ascii_of_nat (nat_of_ascii c + 32) else c.
Definition upper_chr (c : ascii) : ascii :=
  if is_lower_chr c then ascii_of_nat (nat_of_ascii c - 32) else c.

Definition lower (s : str) : str := map lower_chr s.
Definition upper (s : str) : str := map upper_chr s.

(** [str.isupper]: at least one cased character and no lower-case one. *)
Definition isupper (s : str) : bool :=
  existsb is_upper_chr s && negb (existsb is_lower_chr s).

Fixpoint eqb (a b : str) : bool :=
  match a, b with
  | [], [] => true
  | x :: a', y :: b' => Ascii.eqb x y && eqb a' b'
  | _, _ => false
  end.

Fixpoint startswith (s p : str) {struct p} : bool :=
  match p, s with
  | [], _ => true
  | x :: p', y :: s' => Ascii.eqb x y && startswith s' p'
  | _ :: _, [] => false
  end.

Definition endswith (s p : str) : bool := startswith (rev s) (rev p).

(** [s.find(c) != -1]. *)
Definition contains (c : ascii) (s : str) : bool := existsb (Ascii.eqb c) s.

(** [s.rstrip(chars)] for the characters satisfying [p]. *)
Fixpoint rstrip_by (p : ascii -> bool) (s : str) : str :=
  match s with
  | [] => []
  | c :: s' =>
      match rstrip_by p s' with
      | [] => if p c then [] else [c]
      | r => c :: r
      end
  end.

Fixpoint lstrip_by (p : ascii -> bool) (s : str) : str :=
  match s with
  | [] => []
  | c :: s' => if p c then lstrip_by p s' else s
  end.

Definition rstrip (s : str) : str := rstrip_by isspace s.
Definition strip (s : str) : str := rstrip_by isspace (lstrip_by isspace s).

(** [s.split(sep)] for a one-character separator. *)
Fixpoint split (sep : ascii) (s : str) : list str :=
  match s with
  | [] => [[]]
  | c :: s' =>
      if Ascii.eqb c sep then [] :: split sep s'
      else match split sep s' with
           | [] => [[c]]
           | h :: t => (c :: h) :: t
           end
  end.

(** The longest prefix of [s] whose characters satisfy [p]. *)
Fixpoint take_while (p : ascii -> bool) (s : str) : str :=
  match s with
  | [] => []
  | c :: s' => if p c then c :: take_while p s' else []
  end.

(** [os.path.basename] (posix), that is [p[p.rfind("/") + 1:]]: the longest
    suffix of [p] without a slash. *)
Definition basename (p : str) : str :=
  rev (take_while (fun c => negb (Ascii.eqb c "/")) (rev p)).

(** [s[n:]]. *)
Definition slice_from (n : nat) (s : str) : str := skipn n s.

(** ["%d" % n]. *)
Definition fmt_d (n : nat) : str := txt (NilEmpty.string_of_uint (Nat.to_uint n)).

End PyStr.

(** ** Comment and quote stripping *)

(** The body of the [for char in line] loop of [clean_comments].  [prev] is
    the previous character ([None] for the initial empty string); the
    [finally] clause sets it on every path, [continue] and [break] included. *)
Fixpoint clean_scan (line : str) (quote : bool) (prev : option ascii) (prior : str)
  : str * bool :=
  match line with
  | [] => (prior, quote)
  | char :: rest =>
      if Ascii.eqb char PyStr.dquote then
        match prev with
        | Some p =>
            if Ascii.eqb p PyStr.backslash
            then clean_scan rest quote (Some char) prior
            else clean_scan rest (negb quote) (Some char) (prior ++ [char])
        | None => clean_scan rest (negb quote) (Some char) (prior ++ [char])
        end
      else if Ascii.eqb char "#" && negb quote then (prior, quote)
      else if negb quote then clean_scan rest quote (Some char) (prior ++ [char])
      else clean_scan rest quote (Some char) prior
  end.

Definition clean_comments (line : str) (quote : bool) : str * bool :=
  if negb (PyStr.contains "#" line) && negb (PyStr.contains PyStr.dquote line) then
    if quote then ([], quote) else (line, quote)
  else
    let '(prior, quote') := clean_scan line quote None [] in
    (PyStr.rstrip prior, quote').

(** [CleansedLines]: the raw lines and the cleansed lines.  The attribute
    [have_seen_uppercase], the only one written after construction, is a
    field of the world below. *)
Record CleansedLines := mkCleansed {
  raw_lines : list str;
  lines : list str
}.

(** The loop of [CleansedLines.__init__], carrying [quote] from line to line. *)
Fixpoint cleanse (ls : list str) (quote : bool) : list str :=
  match ls with
  | [] => []
  | line :: ls' =>
      let '(cleaned, quote') := clean_comments line quote in
      cleaned :: cleanse ls' quote'
  end.

Definition CleansedLines_init (ls : list str) : CleansedLines :=
  mkCleansed ls (cleanse ls false).

Definition line_numbers (cl : CleansedLines) : list nat := seq 0 (length (lines cl)).

(** ** Regular expressions

    The patterns of the module are built from character classes, literals,
    greedy repetition of a class and capture groups.  A matcher takes the
    remaining input and a continuation; a repetition hands the continuation
    the text it consumed, longest first, so the result is the one the
    backtracking engine of [re] finds. *)

Module Re.

Section Combinators.
Variable A : Type.

(** [p*]. *)
Fixpoint star (p : ascii -> bool) (s : str) (k : str -> str -> option A) : option A :=
  match s with
  | c :: s' =>
      if p c then
        match star p s' (fun m r => k (c :: m) r) with
        | Some x => Some x
        | None => k [] s
        end
      else k [] s
  | [] => k [] s
  end.

(** [p+]. *)
Definition plus (p : ascii -> bool) (s : str) (k : str -> str -> option A) : option A :=
  match s with
  | c :: s' => if p c then star p s' (fun m r => k (c :: m) r) else None
  | [] => None
  end.

(** One literal character. *)
Definition chr (c : ascii) (s : str) (k : str -> option A) : option A :=
  match s with
  | c' :: s' => if Ascii.eqb c c' then k s' else None
  | [] => None
  end.

(** A literal word. *)
Fixpoint lit (l : str) (s : str) (k : str -> option A) : option A :=
  match l with
  | [] => k s
  | c :: l' => chr c s (fun s' => lit l' s' k)
  end.

(** [pattern.search]: the leftmost position where [m] matches. *)
Fixpoint search (m : str -> option A) (s : str) : option A :=
  match m s with
  | Some x => Some x
  | None => match s with
            | [] => None
            | _ :: s' => search m s'
            end
  end.
End Combinators.

Definition non_space (c : ascii) : bool := negb (PyStr.isspace c).
Definition not_rparen (c : ascii) : bool := negb (Ascii.eqb c ")").
(** The dot: anything but a newline. *)
Definition dot (c : ascii) : bool := negb (Ascii.eqb c PyStr.newline).

(** A word boundary between [prev] and [next] ([None] at either end). *)
Definition is_word_opt (c : option ascii) : bool :=
  match c with Some c => PyStr.is_word c | None => false end.
Definition boundary (prev next : option ascii) : bool :=
  xorb (is_word_opt prev) (is_word_opt next).

(** [\bkw\b] tried at one position, [prev] being the character before. *)
Definition word_at (kw : str) (prev : option ascii) (s : str) : bool :=
  boundary prev (hd_error s)
  && PyStr.startswith s kw
  && boundary (match rev kw with c :: _ => Some c | [] => prev end)
              (hd_error (skipn (length kw) s)).

(** [re.search] of the pattern [\bkw\b] in [s], as a truth value. *)
Fixpoint search_word (kw : str) (prev : option ascii) (s : str) : bool :=
  word_at kw prev s
  || match s with
     | [] => false
     | c :: s' => search_word kw (Some c) s'
     end.

(** [finditer] for the pattern [(\w+)]: the maximal runs of word
    characters, left to right; [cur] is the run being read, reversed. *)
Definition flush (cur : str) : list str :=
  match cur with [] => [] | _ => [rev cur] end.
Fixpoint word_runs (s : str) (cur : str) : list str :=
  match s with
  | [] => flush cur
  | c :: s' =>
      if PyStr.is_word c then word_runs s' (c :: cur)
      else flush cur ++ word_runs s' []
  end.

End Re.

(** [_RE_COMMAND], the pattern [^ \s* (\w+) ( \s* ) \(] (written spaced, as
    [re.VERBOSE] allows), with [match]: groups 1 and 2. *)
Definition RE_COMMAND (line : str) : option (str * str) :=
  Re.star PyStr.isspace line (fun _ s1 =>
  Re.plus PyStr.is_word s1 (fun g1 s2 =>
  Re.star PyStr.isspace s2 (fun g2 s3 =>
  Re.chr "(" s3 (fun _ => Some (g1, g2))))).

(** [_RE_COMMAND_START_SPACES], the pattern [^ \s* \w+ \s* \( ( \s* )], with
    [match]: group 1. *)
Definition RE_COMMAND_START_SPACES (line : str) : option str :=
  Re.star PyStr.isspace line (fun _ s1 =>
  Re.plus PyStr.is_word s1 (fun _ s2 =>
  Re.star PyStr.isspace s2 (fun _ s3 =>
  Re.chr "(" s3 (fun s4 =>
  Re.star PyStr.isspace s4 (fun g1 _ => Some g1))))).

(** [_RE_COMMAND_END_SPACES], the pattern [( \s* ) \)], with [search]:
    group 1. *)
Definition RE_COMMAND_END_SPACES (line : str) : option str :=
  Re.search (fun s =>
    Re.star PyStr.isspace s (fun g1 s1 =>
    Re.chr ")" s1 (fun _ => Some g1))) line.

(** [_RE_LOGIC_CHECK], the pattern [(\w+) \s* \( \s* \S+ [^)]+ \)], with
    [search]: group 1.  [logic_check_at] is the match at one position. *)
Definition logic_check_at (s : str) : option str :=
  Re.plus PyStr.is_word s (fun g1 s1 =>
  Re.star PyStr.isspace s1 (fun _ s2 =>
  Re.chr "(" s2 (fun s3 =>
  Re.star PyStr.isspace s3 (fun _ s4 =>
  Re.plus Re.non_space s4 (fun _ s5 =>
  Re.plus Re.not_rparen s5 (fun _ s6 =>
  Re.chr ")" s6 (fun _ => Some g1))))))).

Definition RE_LOGIC_CHECK (line : str) : option str :=
  Re.search logic_check_at line.

(** [_RE_COMMAND_ARG], the pattern [(\w+)], with [finditer]: group 1 of
    each match. *)
Definition RE_COMMAND_ARG (line : str) : list str := Re.word_runs line [].

(** The pattern [Find ( .* ) \.cmake] matched at the start of [s]: group 1
    and what follows the match. *)
Definition RE_FIND_MODULE (s : str) : option (str * str) :=
  Re.lit (txt "Find") s (fun s1 =>
  Re.star Re.dot s1 (fun g1 s2 =>
  Re.lit (txt ".cmake") s2 (fun rest => Some (g1, rest)))).

Definition _logic_commands : list str :=
  map txt ["else"; "endforeach"; "endfunction"; "endif"; "endmacro"; "endwhile"]%string.

Definition _ERROR_CATEGORIES : list str :=
  map txt ["convention/filename"; "linelength"; "package/consistency";
           "package/stdargs"; "readability/logic"; "readability/mixedcase";
           "readability/wonkycase"; "syntax"; "whitespace/eol";
           "whitespace/extra"; "whitespace/indent"; "whitespace/mismatch";
           "whitespace/newline"; "whitespace/tabs"]%string.

(** ** State, findings and exceptions *)

(** One call of the reporting function. *)
Record Finding := mkFinding {
  f_file : str;
  f_line : nat;
  f_category : str;
  f_message : str
}.

(** The line [error] prints for a finding. *)
Definition render (f : Finding) : str :=
  f_file f ++ txt ":" ++ PyStr.fmt_d (f_line f) ++ txt ": " ++ f_message f
  ++ txt " [" ++ f_category f ++ txt "]".

(** [_CMakeLintState] (the path of the configuration file left out). *)
Record LintState := mkLint {
  filters : list str;
  errors : nat;
  spaces : nat;
  linelength : nat;
  allowed_categories : list str;
  quiet : bool
}.

(** [_CMakeLintState.__init__] and [reset]. *)
Definition lint_init : LintState := mkLint [] 0 2 80 _ERROR_CATEGORIES false.

(** [_CMakePackageState]. *)
Record PackageState := mkPackage {
  sets : list str;
  have_included_stdargs : bool;
  have_used_stdargs : bool
}.

Definition package_init : PackageState := mkPackage [] false false.

(** The mutable state of a run: the two singletons, the case flag of the
    current [CleansedLines] object, the findings printed by [error] and the
    other lines printed. *)
Record World := mkWorld {
  lint : LintState;
  package : PackageState;
  have_seen_uppercase : option bool;
  findings : list Finding;
  notices : list str
}.

Definition world_init : World := mkWorld lint_init package_init None [] [].

Inductive exn :=
| IndexError
| AttributeError
| ZeroDivisionError
| ValueError (msg : str).

Inductive outcome (A : Type) :=
| Ret (a : A)
| Raise (e : exn).
Arguments Ret {A} a.
Arguments Raise {A} e.

Definition M (A : Type) : Type := World -> outcome A * World.

Definition ret {A} (a : A) : M A := fun w => (Ret a, w).
Definition raise {A} (e : exn) : M A := fun w => (Raise e, w).
Definition bind {A B} (c : M A) (k : A -> M B) : M B :=
  fun w => match c w with
           | (Ret a, w') => k a w'
           | (Raise e, w') => (Raise e, w')
           end.

Notation "x <- c ;; k" := (bind c (fun x => k))
  (at level 61, c at next level, right associativity).
Notation "c ;; k" := (bind c (fun _ => k))
  (at level 61, right associativity).

(** [try: body finally: fin]. *)
Definition try_finally {A} (body : M A) (fin : M unit) : M A :=
  fun w => let '(r, w1) := body w in
           match fin w1 with
           | (Ret _, w2) => (r, w2)
           | (Raise e, w2) => (Raise e, w2)
           end.

Definition get_lint : M LintState := fun w => (Ret (lint w), w).
Definition put_lint (l : LintState) : M unit :=
  fun w => (Ret tt, mkWorld l (package w) (have_seen_uppercase w) (findings w) (notices w)).
Definition get_package : M PackageState := fun w => (Ret (package w), w).
Definition put_package (p : PackageState) : M unit :=
  fun w => (Ret tt, mkWorld (lint w) p (have_seen_uppercase w) (findings w) (notices w)).
Definition get_seen : M (option bool) := fun w => (Ret (have_seen_uppercase w), w).
Definition put_seen (s : option bool) : M unit :=
  fun w => (Ret tt, mkWorld (lint w) (package w) s (findings w) (notices w)).
Definition print_finding (f : Finding) : M unit :=
  fun w => (Ret tt, mkWorld (lint w) (package w) (have_seen_uppercase w)
                            (findings w ++ [f]) (notices w)).
Definition print (s : str) : M unit :=
  fun w => (Ret tt, mkWorld (lint w) (package w) (have_seen_uppercase w)
                            (findings w) (notices w ++ [s])).

(** [l[n]] for a non-negative [n]. *)
Definition index (l : list str) (n : nat) : M str :=
  match nth_error l n with
  | Some x => ret x
  | None => raise IndexError
  end.

(** [for x in xs: body(x)]. *)
Fixpoint for_each {X} (xs : list X) (body : X -> M unit) : M unit :=
  match xs with
  | [] => ret tt
  | x :: xs' => body x ;; for_each xs' body
  end.

(** ** Filters *)

(** What [set_filters] may be given. *)
Inductive filter_arg :=
| FNone
| FList (fs : list str)
| FStr (s : str)
| FOther.

(** [not filters]. *)
Definition filter_arg_falsy (a : filter_arg) : bool :=
  match a with
  | FNone => true
  | FList [] => true
  | FStr [] => true
  | _ => false
  end.

(** [[f.strip() for f in filters.split(",") if f]]. *)
Definition split_filters (s : str) : list str :=
  map PyStr.strip
      (filter (fun f => match f with [] => false | _ => true end) (PyStr.split "," s)).

(** The inner loop over [allowed_categories]. *)
Definition filter_allowed (cats : list str) (f : str) : bool :=
  fold_left (fun allowed c => if PyStr.startswith c (skipn 1 f) then true else allowed)
            cats false.

(** The validation loop over [self.filters]: the first error, if any. *)
Fixpoint validate_filters (cats : list str) (fs : list str) : option exn :=
  match fs with
  | [] => None
  | f :: fs' =>
      if PyStr.startswith f (txt "-") || PyStr.startswith f (txt "+") then
        if negb (filter_allowed cats f)
        then Some (ValueError (txt "Filter not allowed: " ++ f))
        else validate_filters cats fs'
      else Some (ValueError (txt "Filter should start with - or +"))
  end.

Definition with_filters (l : LintState) (fs : list str) : LintState :=
  mkLint fs (errors l) (spaces l) (linelength l) (allowed_categories l) (quiet l).

Definition set_filters (arg : filter_arg) : M unit :=
  if filter_arg_falsy arg then ret tt
  else
    l <- get_lint ;;
    match arg with
    | FList fs => put_lint (with_filters l (filters l ++ fs))
    | FStr s => put_lint (with_filters l (filters l ++ split_filters s))
    | _ => raise (ValueError (txt "Filters should be a list or a comma separated string"))
    end ;;
    l' <- get_lint ;;
    match validate_filters (allowed_categories l') (filters l') with
    | Some e => raise e
    | None => ret tt
    end.

Definition should_print_error (fs : list str) (category : str) : bool :=
  fold_left (fun should_print f =>
               if PyStr.startswith f (txt "-") && PyStr.startswith category (skipn 1 f)
               then false
               else if PyStr.startswith f (txt "+") && PyStr.startswith category (skipn 1 f)
               then true
               else should_print)
            fs true.

(** The signature of the [errors] argument of the checks. *)
Definition Reporter : Type := str -> nat -> str -> str -> M unit.

Definition error : Reporter := fun filename linenumber category message =>
  l <- get_lint ;;
  if should_print_error (filters l) category then
    put_lint (mkLint (filters l) (errors l + 1) (spaces l) (linelength l)
                     (allowed_categories l) (quiet l)) ;;
    print_finding (mkFinding filename linenumber category message)
  else ret tt.

(** ** The per-line checks *)

Definition check_line_length (filename : str) (linenumber : nat)
  (clean_lines : CleansedLines) (errors : Reporter) : M unit :=
  line <- index (raw_lines clean_lines) linenumber ;;
  l <- get_lint ;;
  if linelength l <? length line then
    errors filename linenumber (txt "linelength")
           (txt "Lines should be <= " ++ PyStr.fmt_d (linelength l) ++ txt " characters long")
  else ret tt.

(** The match object of [_RE_COMMAND], or [None]. *)
Definition contains_command (line : str) : option (str * str) := RE_COMMAND line.

Definition get_command (line : str) : str :=
  match RE_COMMAND line with
  | Some (g1, _) => g1
  | None => []
  end.

Definition is_command_mixed_case (command : str) : bool :=
  let lower := PyStr.lower command in
  let upper := PyStr.upper command in
  negb (PyStr.eqb command lower || PyStr.eqb command upper).

Definition is_command_upper_case (command : str) : bool :=
  let upper := PyStr.upper command in
  PyStr.eqb command upper.

Definition check_upper_lower_case (filename : str) (linenumber : nat)
  (clean_lines : CleansedLines) (errors : Reporter) : M unit :=
  line <- index (lines clean_lines) linenumber ;;
  match contains_command line with
  | Some _ =>
      let command := get_command line in
      if is_command_mixed_case command then
        errors filename linenumber (txt "readability/wonkycase")
               (txt "Do not use mixed case commands")
      else
        seen <- get_seen ;;
        match seen with
        | None => put_seen (Some (is_command_upper_case command))
        | Some seen_upper =>
            let is_upper := is_command_upper_case command in
            if negb (Bool.eqb is_upper seen_upper) then
              errors filename linenumber (txt "readability/mixedcase")
                     (txt "Do not mix upper and lower case commands")
            else ret tt
        end
  | None => ret tt
  end.

Fixpoint get_initial_spaces (line : str) : nat :=
  match line with
  | c :: line' => if Ascii.eqb c " " then S (get_initial_spaces line') else 0
  | [] => 0
  end.

(** The [while True] loop of [check_command_spaces]: [line] is the cleansed
    line at [linenumber], [rest] the lines after it.  It returns the final
    [linenumber], [line] and [end] (group 1 of the match, if any). *)
Fixpoint find_command_end (line : str) (rest : list str) (linenumber : nat)
  : nat * str * option str :=
  match RE_COMMAND_END_SPACES line with
  | Some g => (linenumber, line, Some g)
  | None =>
      match rest with
      | [] => (linenumber + 1, line, None)
      | line' :: rest' => find_command_end line' rest' (linenumber + 1)
      end
  end.

Definition check_command_spaces (filename : str) (linenumber : nat)
  (clean_lines : CleansedLines) (errors : Reporter) : M unit :=
  line <- index (lines clean_lines) linenumber ;;
  let match_ := contains_command line in
  match match_ with
  | Some (g1, _ :: _) =>
      errors filename linenumber (txt "whitespace/extra")
             (txt "Extra spaces between '" ++ g1 ++ txt "' and its ()")
  | _ => ret tt
  end ;;
  match match_ with
  | Some _ =>
      spaces_after_open <-
        match RE_COMMAND_START_SPACES line with
        | Some g => ret (length g)
        | None => raise AttributeError
        end ;;
      let initial_linenumber := linenumber in
      let '(linenumber, line, end_) :=
        find_command_end line (skipn (S linenumber) (lines clean_lines)) linenumber in
      (if (linenumber =? length (lines clean_lines))
          && match end_ with None => true | Some _ => false end
       then errors filename initial_linenumber (txt "syntax")
                   (txt "Unable to find the end of this command")
       else ret tt) ;;
      match end_ with
      | Some g =>
          let spaces_before_end := length g in
          let initial_spaces := get_initial_spaces line in
          let spaces_before_end :=
            if negb (initial_linenumber =? linenumber)
               && (initial_spaces <=? spaces_before_end)
            then spaces_before_end - initial_spaces
            else spaces_before_end in
          if negb (spaces_after_open =? spaces_before_end) then
            errors filename initial_linenumber (txt "whitespace/mismatch")
                   (txt "Mismatching spaces inside () after command")
          else ret tt
      | None => ret tt
      end
  | None => ret tt
  end.

(** The [for cmd in _logic_commands] loop of [check_repeat_logic]; it stops
    at the first keyword found in the lower-cased line. *)
Fixpoint repeat_logic_loop (cmds : list str) (filename : str) (linenumber : nat)
  (line : str) (errors : Reporter) : M unit :=
  match cmds with
  | [] => ret tt
  | cmd :: cmds' =>
      if Re.search_word cmd None (PyStr.lower line) then
        match RE_LOGIC_CHECK line with
        | Some g1 =>
            errors filename linenumber (txt "readability/logic")
                   (txt "Expression repeated inside " ++ cmd ++ txt "; "
                    ++ txt "better to use only " ++ g1 ++ txt "()")
        | None => ret tt
        end
      else repeat_logic_loop cmds' filename linenumber line errors
  end.

Definition check_repeat_logic (filename : str) (linenumber : nat)
  (clean_lines : CleansedLines) (errors : Reporter) : M unit :=
  line <- index (lines clean_lines) linenumber ;;
  repeat_logic_loop _logic_commands filename linenumber line errors.

Definition check_indent (filename : str) (linenumber : nat)
  (clean_lines : CleansedLines) (errors : Reporter) : M unit :=
  line <- index (raw_lines clean_lines) linenumber ;;
  let initial_spaces := get_initial_spaces line in
  l <- get_lint ;;
  remainder <- (if spaces l =? 0 then raise ZeroDivisionError
                else ret (initial_spaces mod spaces l)) ;;
  if negb (remainder =? 0) then
    errors filename linenumber (txt "whitespace/indent")
           (txt "Weird indentation; use " ++ PyStr.fmt_d (spaces l) ++ txt " spaces")
  else ret tt.

Definition check_style (filename : str) (linenumber : nat)
  (clean_lines : CleansedLines) (errors : Reporter) : M unit :=
  check_indent filename linenumber clean_lines errors ;;
  check_command_spaces filename linenumber clean_lines errors ;;
  line <- index (raw_lines clean_lines) linenumber ;;
  (if PyStr.contains PyStr.tab line then
     errors filename linenumber (txt "whitespace/tabs") (txt "Tab found; please use spaces")
   else ret tt) ;;
  (match rev line with
   | c :: _ =>
       if PyStr.isspace c then
         errors filename linenumber (txt "whitespace/eol") (txt "Line ends in whitespace")
       else ret tt
   | [] => ret tt
   end) ;;
  check_repeat_logic filename linenumber clean_lines errors.

(** ** File-level checks and the package state *)

Definition check_file_name (filename : str) (errors : Reporter) : M unit :=
  match RE_FIND_MODULE (PyStr.basename filename) with
  | Some (package, _) =>
      if negb (PyStr.isupper package) then
        errors filename 0 (txt "convention/filename")
               (txt "Find modules should use uppercase names; "
                ++ txt "consider using Find" ++ PyStr.upper package ++ txt ".cmake")
      else ret tt
  | None =>
      if PyStr.eqb (PyStr.lower filename) (txt "cmakelists.txt")
         && negb (PyStr.eqb filename (txt "CMakeLists.txt"))
      then errors filename 0 (txt "convention/filename")
                  (txt "File should be called CMakeLists.txt")
      else ret tt
  end.

Definition is_find_package (filename : str) : bool :=
  PyStr.startswith (PyStr.basename filename) (txt "Find")
  && PyStr.endswith filename (txt ".cmake").

(** [_CMakePackageState._get_expected]: [re.sub] replaces the match of the
    pattern [^Find ( .* ) \.cmake] by its group 1 and keeps what follows. *)
Definition _get_expected (filename : str) : str :=
  let package := PyStr.basename filename in
  let package := match RE_FIND_MODULE package with
                 | Some (g1, rest) => g1 ++ rest
                 | None => package
                 end in
  PyStr.upper package.

Definition reset_package_flags : M unit :=
  p <- get_package ;;
  put_package (mkPackage (sets p) false false).

(** [_CMakePackageState.done]. *)
Definition done (filename : str) (errors : Reporter) : M unit :=
  try_finally
    (if negb (is_find_package filename) then ret tt
     else
       p <- get_package ;;
       if have_included_stdargs p && have_used_stdargs p then ret tt
       else
         (if negb (have_included_stdargs p) then
            errors filename 0 (txt "package/consistency")
                   (txt "Package should include FindPackageHandleStandardArgs")
          else ret tt) ;;
         (if negb (have_used_stdargs p) then
            errors filename 0 (txt "package/consistency")
                   (txt "Package should use FIND_PACKAGE_HANDLE_STANDARD_ARGS")
          else ret tt))
    reset_package_flags.

(** [_CMakePackageState.have_used_standard_args]. *)
Definition have_used_standard_args (filename : str) (linenumber : nat) (var : str)
  (errors : Reporter) : M unit :=
  let expected := _get_expected filename in
  p <- get_package ;;
  put_package (mkPackage (sets p) (have_included_stdargs p) true) ;;
  if negb (PyStr.eqb expected var) then
    errors filename linenumber (txt "package/stdargs")
           (txt "Weird variable passed to std args, should be " ++ expected
            ++ txt " not " ++ var)
  else ret tt.

(** [_CMakePackageState.have_included]. *)
Definition have_included (var : str) : M unit :=
  if PyStr.eqb var (txt "FindPackageHandleStandardArgs") then
    p <- get_package ;;
    put_package (mkPackage (sets p) true (have_used_stdargs p))
  else ret tt.

(** The [for i in m] loop of [get_command_argument]: the first token that is
    not [skip]. *)
Definition first_other (skip : str) (tokens : list str) : option str :=
  find (fun t => negb (PyStr.eqb t skip)) tokens.

(** The [while True] loop of [get_command_argument] over the cleansed lines
    from [linenumber] on; indexing past the last line raises. *)
Fixpoint argument_scan (skip : str) (rest : list str) : M str :=
  match rest with
  | [] => raise IndexError
  | line :: rest' =>
      match first_other skip (RE_COMMAND_ARG line) with
      | Some arg => ret arg
      | None => argument_scan skip rest'
      end
  end.

Definition get_command_argument (linenumber : nat) (clean_lines : CleansedLines) : M str :=
  line <- index (lines clean_lines) linenumber ;;
  let skip := get_command line in
  argument_scan skip (skipn linenumber (lines clean_lines)).

Definition check_find_package (filename : str) (linenumber : nat)
  (clean_lines : CleansedLines) (errors : Reporter) : M unit :=
  line <- index (lines clean_lines) linenumber ;;
  let cmd := get_command line in
  match cmd with
  | [] => ret tt
  | _ =>
      if PyStr.eqb (PyStr.lower cmd) (txt "include") then
        var_name <- get_command_argument linenumber clean_lines ;;
        have_included var_name
      else if PyStr.eqb (PyStr.lower cmd) (txt "find_package_handle_standard_args") then
        var_name <- get_command_argument linenumber clean_lines ;;
        have_used_standard_args filename linenumber var_name errors
      else ret tt
  end.

(** [try: body except ValueError as ex: on_value(str(ex)) except: on_other]. *)
Definition try_except (body : M unit) (on_value : str -> M unit) (on_other : M unit)
  : M unit :=
  fun w => match body w with
           | (Ret a, w') => (Ret a, w')
           | (Raise (ValueError msg), w') => on_value msg w'
           | (Raise _, w') => on_other w'
           end.

Definition check_lint_pragma (filename : str) (linenumber : nat) (line : str)
  (errors : option Reporter) : M unit :=
  let linter_pragma_start := txt "# lint_cmake: " in
  if PyStr.startswith line linter_pragma_start then
    try_except
      (set_filters (FStr (PyStr.slice_from (length linter_pragma_start) line)))
      (fun msg => match errors with
                  | Some errors => errors filename linenumber (txt "syntax") msg
                  | None => ret tt
                  end)
      (print (txt "Exception occurred while processing '" ++ filename ++ txt ":"
              ++ PyStr.fmt_d linenumber ++ txt "':"))
  else ret tt.

Definition process_line (filename : str) (linenumber : nat)
  (clean_lines : CleansedLines) (errors : Reporter) : M unit :=
  raw <- index (raw_lines clean_lines) linenumber ;;
  check_lint_pragma filename linenumber raw (Some errors) ;;
  check_line_length filename linenumber clean_lines errors ;;
  check_upper_lower_case filename linenumber clean_lines errors ;;
  check_style filename linenumber clean_lines errors ;;
  if is_find_package filename then
    check_find_package filename linenumber clean_lines errors
  else ret tt.

Definition is_valid_file (filename : str) : bool :=
  PyStr.endswith filename (txt ".cmake")
  || PyStr.eqb (PyStr.lower (PyStr.basename filename)) (txt "cmakelists.txt").

(** The reading loop of [_process_file] over what [readlines] returned. *)
Fixpoint read_lines (filename : str) (contents : list str) (lines : list str)
  (have_cr : bool) : M (list str * bool) :=
  match contents with
  | [] => ret (lines, have_cr)
  | line :: contents' =>
      let line := PyStr.rstrip_by (Ascii.eqb PyStr.newline) line in
      let '(line, have_cr) :=
        if PyStr.endswith line [PyStr.cr]
        then (PyStr.rstrip_by (Ascii.eqb PyStr.cr) line, true)
        else (line, have_cr) in
      let lines := lines ++ [line] in
      check_lint_pragma filename (length lines - 1) line None ;;
      read_lines filename contents' lines have_cr
  end.

(** The loop of [_process_file] over the line numbers. *)
Definition process_lines (filename : str) (clean_lines : CleansedLines) : M unit :=
  for_each (line_numbers clean_lines)
           (fun line => process_line filename line clean_lines error).

(** [_process_file]; [linesep] is [os.linesep] and [contents] what
    [open(filename).readlines()] returns. *)
Definition _process_file (linesep : str) (filename : str) (contents : list str) : M unit :=
  let lines := [txt "# Lines start at 1"] in
  if negb (is_valid_file filename) then print (txt "Ignoring file: " ++ filename)
  else
    put_package package_init ;;
    r <- read_lines filename contents lines false ;;
    let '(lines, have_cr) := r in
    let lines := lines ++ [txt "# Lines end here"] in
    check_file_name filename error ;;
    (if have_cr && negb (PyStr.eqb linesep [PyStr.cr; PyStr.newline]) then
       error filename 0 (txt "whitespace/newline")
             (txt "Unexpected carriage return found; " ++ txt "better to use only \n")
     else ret tt) ;;
    let clean_lines := CleansedLines_init lines in
    put_seen None ;;
    process_lines filename clean_lines ;;
    done filename error.

Definition process_file (linesep : str) (filename : str) (contents : list str) : M unit :=
  l <- get_lint ;;
  let original_filters := filters l in
  try_finally
    (_process_file linesep filename contents)
    (l' <- get_lint ;; put_lint (with_filters l' original_filters)).

(** The findings printed by a run of [c] from [w], and how it ended. *)
Definition run {A} (c : M A) (w : World) : outcome A * list Finding :=
  let '(r, w') := c w in (r, findings w').

(** ** The entry point *)

Definition _ERROR_CODE_FOUND_ISSUE : nat := 1.

(** The loop and the tail of [main], once [parse_args] has returned the
    files; each file name comes with what [readlines] returns for it.  The
    value is what is written to the standard error and the exit status. *)
Definition main_files (linesep : str) (files : list (str * list str))
  : M (list str * nat) :=
  for_each files (fun file => process_file linesep (fst file) (snd file)) ;;
  l <- get_lint ;;
  ret (if (0 <? errors l) || negb (quiet l)
       then [txt "Total Errors: " ++ PyStr.fmt_d (errors l) ++ [PyStr.newline]]
       else [],
       if 0 <? errors l then _ERROR_CODE_FOUND_ISSUE else 0).


(** * Notions used in the statements *)

(** The value of [prev] after the loop has read [s]. *)
Fixpoint prev_after (s : str) (prev : option ascii) : option ascii :=
  match s with
  | [] => prev
  | c :: s' => prev_after s' (Some c)
  end.

(** No double quote and no hash. *)
Definition plain (s : str) : bool :=
  forallb (fun c => negb (Ascii.eqb c PyStr.dquote) && negb (Ascii.eqb c "#")) s.

(** No double quote. *)
Definition quote_free (s : str) : bool :=
  forallb (fun c => negb (Ascii.eqb c PyStr.dquote)) s.

(** [prev] does not escape the next character. *)
Definition no_escape (prev : option ascii) : bool :=
  match prev with
  | Some p => negb (Ascii.eqb p PyStr.backslash)
  | None => true
  end.

(** The world after [error] has printed [f]. *)
Definition emit (f : Finding) (w : World) : World :=
  mkWorld (mkLint (filters (lint w)) (errors (lint w) + 1) (spaces (lint w))
                  (linelength (lint w)) (allowed_categories (lint w)) (quiet (lint w)))
          (package w) (have_seen_uppercase w) (findings w ++ [f]) (notices w).

(** Unfolds the operations of the monad. *)
Ltac monad_unfold :=
  cbv beta iota zeta delta
    [bind ret raise get_lint put_lint get_package put_package get_seen put_seen
     print_finding print try_finally try_except reset_package_flags].

(** The state of the loop of [clean_comments] once the prefix [pre] has
    been read: the quote state, [prev] and [prior]; [None] when the loop has
    left at a comment inside [pre]. *)
Fixpoint scan_reaches (pre : str) (quote : bool) (prev : option ascii) (prior : str)
  : option (bool * option ascii * str) :=
  match pre with
  | [] => Some (quote, prev, prior)
  | char :: rest =>
      if Ascii.eqb char PyStr.dquote then
        if no_escape prev
        then scan_reaches rest (negb quote) (Some char) (prior ++ [char])
        else scan_reaches rest quote (Some char) prior
      else if Ascii.eqb char "#" && negb quote then None
      else if negb quote then scan_reaches rest quote (Some char) (prior ++ [char])
      else scan_reaches rest quote (Some char) prior
  end.

(** The findings reported against line [n]. *)
Definition at_line (n : nat) (fs : list Finding) : list Finding :=
  filter (fun f => f_line f =? n) fs.

(** What [readlines] returns for a line, with or without its newline. *)
Definition file_line (terminated : bool) (s : str) : str :=
  if terminated then s ++ [PyStr.newline] else s.

(** Every token of every line of [ls] is [skip]. *)
Definition only_token (skip : str) (ls : list str) : bool :=
  forallb (fun l => forallb (fun t => PyStr.eqb t skip) (RE_COMMAND_ARG l)) ls.

(** The findings [done] owes for a Find module in package state [p]: one per
    missing condition. *)
Definition missing_findings (filename : str) (p : PackageState) : list Finding :=
  (if have_included_stdargs p then []
   else [mkFinding filename 0 (txt "package/consistency")
                   (txt "Package should include FindPackageHandleStandardArgs")])
  ++ (if have_used_stdargs p then []
      else [mkFinding filename 0 (txt "package/consistency")
                      (txt "Package should use FIND_PACKAGE_HANDLE_STANDARD_ARGS")]).

(** An entry passes the validation loop. *)
Definition filter_entry_ok (cats : list str) (f : str) : bool :=
  (PyStr.startswith f (txt "-") || PyStr.startswith f (txt "+")) && filter_allowed cats f.

(** The input holds an invalid entry. *)
Definition has_invalid_entry (cats : list str) (fs : list str) : bool :=
  existsb (fun f => negb (filter_entry_ok cats f)) fs.

(** The entries [set_filters] appends for an argument. *)
Definition entries_of (arg : filter_arg) : list str :=
  match arg with
  | FList fs => fs
  | FStr s => split_filters s
  | _ => []
  end.

(** [w] with [fs] as active filters. *)
Definition set_world_filters (w : World) (fs : list str) : World :=
  mkWorld (with_filters (lint w) fs) (package w) (have_seen_uppercase w)
          (findings w) (notices w).

(** The casing category of a cleansed line, as [check_upper_lower_case]
    classifies it: [Some true] for a command equal to its upper-case form,
    [Some false] for another command equal to its lower-case form, [None]
    for a mixed-case command or a line that starts no command. *)
Definition case_of (line : str) : option bool :=
  match contains_command line with
  | Some _ =>
      let command := get_command line in
      if is_command_mixed_case command then None
      else Some (is_command_upper_case command)
  | None => None
  end.

(** The category of the first line that has one: the value the flag of the
    file is fixed to. *)
Fixpoint first_case (ls : list str) : option bool :=
  match ls with
  | [] => None
  | l :: ls' => match case_of l with
                | Some a => Some a
                | None => first_case ls'
                end
  end.

(** The readability/mixedcase finding for line [n]. *)
Definition mixedcase_at (filename : str) (n : nat) : Finding :=
  mkFinding filename n (txt "readability/mixedcase")
            (txt "Do not mix upper and lower case commands").

(** The line is a pragma. *)
Definition is_pragma (raw : str) : bool := PyStr.startswith raw (txt "# lint_cmake: ").

(** [w'] differs from [w] at most by findings printed, by the error count
    and by the package state. *)
Definition calm (w w' : World) : Prop :=
  filters (lint w') = filters (lint w)
  /\ have_seen_uppercase w' = have_seen_uppercase w
  /\ exists extra, findings w' = findings w ++ extra.

(** The computation changes the world calmly, however it ends. *)
Definition calmly {A} (c : M A) : Prop := forall w, calm w (snd (c w)).

(** A match of [_RE_LOGIC_CHECK] at the start of [s], with group 1 [g1]: a
    word, white space, an opening parenthesis, white space, a non-empty run
    of non-space characters, a non-empty run of characters other than the
    closing parenthesis, and a closing parenthesis. *)
Definition logic_match (g1 s : str) : Prop :=
  exists ws1 ws2 ns np post,
    s = g1 ++ ws1 ++ "("%char :: ws2 ++ ns ++ np ++ ")"%char :: post
    /\ g1 <> [] /\ forallb PyStr.is_word g1 = true
    /\ forallb PyStr.isspace ws1 = true
    /\ forallb PyStr.isspace ws2 = true
    /\ ns <> [] /\ forallb Re.non_space ns = true
    /\ np <> [] /\ forallb Re.not_rparen np = true.

(** Such a match somewhere in the line. *)
Definition logic_expression (g1 line : str) : Prop :=
  exists pre suf, line = pre ++ suf /\ logic_match g1 suf.

(** The keyword starts and ends with a word character. *)
Definition wordy (kw : str) : Prop :=
  Re.is_word_opt (hd_error kw) = true /\ Re.is_word_opt (hd_error (rev kw)) = true.

(** [kw] occurs in [s] as a whole word: no word character just before it
    ([prev] being the character before [s]) nor just after it. *)
Definition keyword_at (kw : str) (prev : option ascii) (s : str) : Prop :=
  exists pre post,
    s = pre ++ kw ++ post
    /\ Re.is_word_opt (prev_after pre prev) = false
    /\ Re.is_word_opt (hd_error post) = false.

(** The lower-cased line holds the keyword as a whole word. *)
Definition keyword_in (kw line : str) : Prop :=
  keyword_at kw None (PyStr.lower line).

(** Following the words of the specification: the content of a
    parenthesised expression, read up to its closing parenthesis, is not
    only white space. *)
Fixpoint content_nontrivial (s : str) (seen : bool) : bool :=
  match s with
  | [] => false
  | c :: s' =>
      if Ascii.eqb c ")" then seen
      else content_nontrivial s' (seen || Re.non_space c)
  end.

(** Following the words of the specification: [s] starts (after optional
    white space) with a parenthesised expression with non-trivial content. *)
Definition expression_follows (s : str) : bool :=
  match PyStr.lstrip_by PyStr.isspace s with
  | "("%char :: rest => content_nontrivial rest false
  | _ => false
  end.

(** Following the words of the specification: [s] contains the keyword
    followed by such an expression. *)
Fixpoint keyword_then_expression (kw s : str) : bool :=
  (PyStr.startswith s kw && expression_follows (skipn (length kw) s))
  || match s with
     | [] => false
     | _ :: s' => keyword_then_expression kw s'
     end.

(** Following the words of the specification: the condition under which the
    claim expects a readability/logic finding. *)
Definition spec_repeat_logic (line : str) : bool :=
  existsb (fun kw => keyword_then_expression kw (PyStr.lower line)) _logic_commands.

(** The message of the readability/logic finding. *)
Definition logic_message (cmd g1 : str) : str :=
  txt "Expression repeated inside " ++ cmd ++ txt "; "
  ++ txt "better to use only " ++ g1 ++ txt "()".

(** The first keyword of the list found in the lower-cased line. *)
Definition first_keyword (line : str) : option str :=
  find (fun cmd => Re.search_word cmd None (PyStr.lower line)) _logic_commands.

(** ** Notions of the further properties *)

(** The category is one of the closed set. *)
Definition known_category (c : str) : bool := existsb (PyStr.eqb c) _ERROR_CATEGORIES.

(** [w'] is [w] after some findings satisfying [P] have been printed by
    [error]: the error count has grown by their number and the settings
    other than the filters are the same. *)
Definition prints (P : Finding -> Prop) (w w' : World) : Prop :=
  exists extra,
    findings w' = findings w ++ extra
    /\ Forall P extra
    /\ errors (lint w') = errors (lint w) + length extra
    /\ spaces (lint w') = spaces (lint w)
    /\ linelength (lint w') = linelength (lint w)
    /\ allowed_categories (lint w') = allowed_categories (lint w)
    /\ quiet (lint w') = quiet (lint w).

(** The computation only prints findings satisfying [P], however it ends. *)
Definition printing (P : Finding -> Prop) {A} (c : M A) : Prop :=
  forall w, prints P w (snd (c w)).

(** A finding of a run over [filename]: it names the file, its category is
    one of the closed set and its line number is at most [bound]. *)
Definition well_formed (filename : str) (bound : nat) (f : Finding) : Prop :=
  f_file f = filename /\ known_category (f_category f) = true /\ f_line f <= bound.

(** A line as [_process_file] stores it: the trailing newlines removed,
    then the trailing carriage returns when there is one. *)
Definition chomp (line : str) : str :=
  let line := PyStr.rstrip_by (Ascii.eqb PyStr.newline) line in
  if PyStr.endswith line [PyStr.cr]
  then PyStr.rstrip_by (Ascii.eqb PyStr.cr) line
  else line.

(** The line ends, before its newlines, with a carriage return. *)
Definition has_cr (line : str) : bool :=
  PyStr.endswith (PyStr.rstrip_by (Ascii.eqb PyStr.newline) line) [PyStr.cr].

(** The filter [f] speaks about [category]: it starts with a sign and the
    rest is a prefix of the category. *)
Definition filter_matches (category f : str) : bool :=
  (PyStr.startswith f (txt "-") || PyStr.startswith f (txt "+"))
  && PyStr.startswith category (skipn 1 f).

(** The text does not start with a character satisfying [p]. *)
Definition stops (p : ascii -> bool) (t : str) : bool :=
  match t with
  | [] => true
  | x :: _ => negb (p x)
  end.

(** The shape of a line that starts a command: white space, the command
    name, white space and an opening parenthesis. *)
Definition command_line (ws cmd ws2 rest : str) : str :=
  ws ++ cmd ++ ws2 ++ "("%char :: rest.

(** From a world satisfying [H] the computation ends in a world satisfying
    [H], and an exception it ends with satisfies [E]. *)
Definition confined (H : World -> Prop) (E : exn -> Prop) {A} (c : M A) : Prop :=
  forall w, H w ->
    match fst (c w) with Ret _ => True | Raise e => E e end /\ H (snd (c w)).

(** The indent width is not zero. *)
Definition healthy (w : World) : Prop := spaces (lint w) <> 0.

(** No slash in the text. *)
Definition slash_free (s : str) : bool :=
  forallb (fun c => negb (Ascii.eqb c "/")) s.

(** A directory prefix: empty, or ending with a slash. *)
Definition dir_prefix (d : str) : bool :=
  match rev d with
  | [] => true
  | c :: _ => Ascii.eqb c "/"
  end.

(** The path of the Find module of [package] in the directory [d]. *)
Definition find_module_path (d pkg : str) : str :=
  d ++ txt "Find" ++ pkg ++ txt ".cmake".

(** ** Notions of the package consistency *)

(** The argument scan of [get_command_argument] as a function of the lines:
    the first token that is not [skip], [None] when there is none. *)
Fixpoint scan_argument (skip : str) (rest : list str) : option str :=
  match rest with
  | [] => None
  | line :: rest' =>
      match first_other skip (RE_COMMAND_ARG line) with
      | Some arg => Some arg
      | None => scan_argument skip rest'
      end
  end.

(** The line [n] of the file includes the helper: its command is [include],
    in any case, and the first other token from that line on is
    [FindPackageHandleStandardArgs]. *)
Definition includes_helper (cl : CleansedLines) (n : nat) : bool :=
  match nth_error (lines cl) n with
  | Some line =>
      PyStr.eqb (PyStr.lower (get_command line)) (txt "include")
      && match scan_argument (get_command line) (skipn n (lines cl)) with
         | Some arg => PyStr.eqb arg (txt "FindPackageHandleStandardArgs")
         | None => false
         end
  | None => false
  end.

(** The line [n] of the file invokes the helper: its command is
    [find_package_handle_standard_args], in any case, followed somewhere by
    another token. *)
Definition uses_helper (cl : CleansedLines) (n : nat) : bool :=
  match nth_error (lines cl) n with
  | Some line =>
      PyStr.eqb (PyStr.lower (get_command line))
                (txt "find_package_handle_standard_args")
      && match scan_argument (get_command line) (skipn n (lines cl)) with
         | Some _ => true
         | None => false
         end
  | None => false
  end.

(** The lines [_process_file] builds for a file: the two sentinels around
    the lines read. *)
Definition file_lines (contents : list str) : list str :=
  ([txt "# Lines start at 1"] ++ map chomp contents) ++ [txt "# Lines end here"].

(** The finding is not a package/consistency one. *)
Definition off_package (f : Finding) : Prop :=
  PyStr.eqb (f_category f) (txt "package/consistency") = false.

(** [w'] is [w] after findings other than package/consistency have been
    printed: same package state, same filters. *)
Definition steady (w w' : World) : Prop :=
  package w' = package w
  /\ filters (lint w') = filters (lint w)
  /\ exists extra, findings w' = findings w ++ extra /\ Forall off_package extra.

(** The computation leaves the world steady, however it ends. *)
Definition steadily {A} (c : M A) : Prop := forall w, steady w (snd (c w)).

(** The package state after the lines [ns] have been checked from the state
    [p]: a flag is set once a line has set it. *)
Definition flags_over (cl : CleansedLines) (ns : list nat) (p : PackageState)
  : PackageState :=
  mkPackage (sets p)
            (have_included_stdargs p || existsb (includes_helper cl) ns)
            (have_used_stdargs p || existsb (uses_helper cl) ns).

(** * Properties *)

(** ** Text primitives *)

Lemma str_eqb_eq (a b : str) : PyStr.eqb a b = true <-> a = b.
Proof.
  revert b; induction a as [|x a IH]; intros [|y b]; simpl; split; intro H;
    try reflexivity; try discriminate.
  - apply andb_true_iff in H as [Hx Hab].
    apply Ascii.eqb_eq in Hx. apply IH in Hab. now subst.
  - injection H as -> ->. rewrite Ascii.eqb_refl. now apply IH.
Qed.

Lemma str_eqb_refl (a : str) : PyStr.eqb a a = true.
Proof. now apply str_eqb_eq. Qed.

Lemma rstrip_by_length (p : ascii -> bool) (s : str) :
  length (PyStr.rstrip_by p s) <= length s.
Proof.
  induction s as [|c s IH]; simpl; [lia|].
  destruct (PyStr.rstrip_by p s) as [|d r].
  - destruct (p c); simpl; lia.
  - simpl in *. lia.
Qed.

(** ** The scan of [clean_comments] *)

Lemma prev_after_app (a b : str) (prev : option ascii) :
  prev_after (a ++ b) prev = prev_after b (prev_after a prev).
Proof. revert prev; induction a as [|c a IH]; intro prev; simpl; auto. Qed.


Lemma clean_scan_length (line : str) :
  forall quote prev prior,
    length (fst (clean_scan line quote prev prior)) <= length prior + length line.
Proof.
  induction line as [|c line IH]; intros quote prev prior; simpl; [lia|].
  assert (Hsnoc : forall q p, length (fst (clean_scan line q p (prior ++ [c])))
                              <= length prior + S (length line)).
  { intros q p. specialize (IH q p (prior ++ [c])).
    rewrite length_app in IH. simpl in IH. lia. }
  assert (Hkeep : forall q p, length (fst (clean_scan line q p prior))
                              <= length prior + S (length line)).
  { intros q p. specialize (IH q p prior). lia. }
  destruct (Ascii.eqb c PyStr.dquote).
  - destruct prev as [p|]; [destruct (Ascii.eqb p PyStr.backslash)|]; auto.
  - destruct (Ascii.eqb c "#" && negb quote); [simpl; lia|].
    destruct (negb quote); auto.
Qed.

(** Outside a quote, plain characters are copied. *)
Lemma clean_scan_plain (pre : str) :
  forall rest prev prior,
    plain pre = true ->
    clean_scan (pre ++ rest) false prev prior
    = clean_scan rest false (prev_after pre prev) (prior ++ pre).
Proof.
  induction pre as [|c pre IH]; intros rest prev prior Hp; simpl.
  - now rewrite app_nil_r.
  - simpl in Hp. apply andb_true_iff in Hp as [Hc Hp].
    apply andb_true_iff in Hc as [Hq Hh].
    apply negb_true_iff in Hq, Hh. rewrite Hq, Hh. simpl.
    rewrite IH by assumption. now rewrite <- app_assoc.
Qed.

(** Inside a quote, characters other than the quote are dropped, the hash
    included. *)
Lemma clean_scan_quoted (mid : str) :
  forall rest prev prior,
    quote_free mid = true ->
    clean_scan (mid ++ rest) true prev prior
    = clean_scan rest true (prev_after mid prev) prior.
Proof.
  induction mid as [|c mid IH]; intros rest prev prior Hq; simpl; [reflexivity|].
  simpl in Hq. apply andb_true_iff in Hq as [Hc Hq].
  apply negb_true_iff in Hc. rewrite Hc.
  rewrite andb_false_r. simpl. now apply IH.
Qed.


Lemma contains_app_r (c : ascii) (a b : str) :
  PyStr.contains c b = true -> PyStr.contains c (a ++ b) = true.
Proof.
  unfold PyStr.contains. intro H. rewrite existsb_app, H. apply orb_true_r.
Qed.

Lemma contains_cons (c : ascii) (s : str) : PyStr.contains c (c :: s) = true.
Proof. unfold PyStr.contains. simpl. now rewrite Ascii.eqb_refl. Qed.


Lemma clean_scan_plain_end (post : str) (prev : option ascii) (prior : str) :
  plain post = true ->
  clean_scan post false prev prior = (prior ++ post, false).
Proof.
  intro Hp. rewrite <- (app_nil_r post) at 1.
  now rewrite clean_scan_plain.
Qed.

(** ** The reporting function *)

Lemma error_run (filename : str) (linenumber : nat) (category message : str) (w : World) :
  error filename linenumber category message w
  = (Ret tt,
     if should_print_error (filters (lint w)) category
     then emit (mkFinding filename linenumber category message) w
     else w).
Proof.
  unfold error. monad_unfold.
  now destruct (should_print_error (filters (lint w)) category).
Qed.

(** ** C6 *)

Lemma clean_scan_app (pre : str) :
  forall rest quote prev prior quote' prev' prior',
    scan_reaches pre quote prev prior = Some (quote', prev', prior') ->
    clean_scan (pre ++ rest) quote prev prior = clean_scan rest quote' prev' prior'.
Proof.
  induction pre as [|c pre IH]; intros rest quote prev prior quote' prev' prior' H;
    simpl in *.
  - now injection H as -> -> ->.
  - destruct (Ascii.eqb c PyStr.dquote).
    + destruct prev as [p|]; simpl in H;
        [destruct (Ascii.eqb p PyStr.backslash); simpl in H|]; now apply IH.
    + destruct (Ascii.eqb c "#" && negb quote); [discriminate|].
      destruct (negb quote); now apply IH.
Qed.

Lemma scan_reaches_plain (pre : str) :
  forall prev prior,
    plain pre = true ->
    scan_reaches pre false prev prior = Some (false, prev_after pre prev, prior ++ pre).
Proof.
  induction pre as [|c pre IH]; intros prev prior Hp; simpl.
  - now rewrite app_nil_r.
  - simpl in Hp. apply andb_true_iff in Hp as [Hc Hp].
    apply andb_true_iff in Hc as [Hq Hh].
    apply negb_true_iff in Hq, Hh. rewrite Hq, Hh. simpl.
    rewrite IH by assumption. now rewrite <- app_assoc.
Qed.





(** ** C2 *)

(** C2, as stated, fails: in the line made of [a], a backslash, a double
    quote and [b], read outside a quote, the escaped quote leaves the quote
    state alone but is not copied to the output. *)
Lemma escaped_quote_is_not_emitted :
  clean_comments ["a"; PyStr.backslash; PyStr.dquote; "b"]%char false
  = (["a"; PyStr.backslash; "b"]%char, false)
  /\ ~ In PyStr.dquote
       (fst (clean_comments ["a"; PyStr.backslash; PyStr.dquote; "b"]%char false)).
Proof.
  split; [reflexivity|].
  simpl. intros [H|[H|[H|[]]]]; discriminate H.
Qed.

(** C2, amended.  On a line entered outside a quote, when the loop is
    outside a quote after the prefix [pre], whose last character is a
    backslash, a double quote that follows does not toggle the quote state
    and is dropped: the scan goes on with [post] from the same quote state
    and the same output.  In particular, around plain text the cleansed line
    is the raw line without the escaped quote, trimmed. *)
Theorem escaped_quote_outside_quotes_dropped :
  (forall pre post prior,
      scan_reaches pre false None [] = Some (false, Some PyStr.backslash, prior) ->
      clean_comments (pre ++ PyStr.dquote :: post) false
      = (let '(out, quote) := clean_scan post false (Some PyStr.dquote) prior in
         (PyStr.rstrip out, quote)))
  /\ (forall pre post,
         plain pre = true ->
         plain post = true ->
         clean_comments (pre ++ [PyStr.backslash; PyStr.dquote] ++ post) false
         = (PyStr.rstrip (pre ++ [PyStr.backslash] ++ post), false)).
Proof.
  assert (Hgen : forall pre post prior,
             scan_reaches pre false None [] = Some (false, Some PyStr.backslash, prior) ->
             clean_comments (pre ++ PyStr.dquote :: post) false
             = (let '(out, quote) := clean_scan post false (Some PyStr.dquote) prior in
                (PyStr.rstrip out, quote))).
  { intros pre post prior Hpre. unfold clean_comments.
    assert (Hq : PyStr.contains PyStr.dquote (pre ++ PyStr.dquote :: post) = true)
      by (apply contains_app_r, contains_cons).
    rewrite Hq, andb_false_r. now erewrite clean_scan_app by exact Hpre. }
  split; [exact Hgen|].
  intros pre post Hpre Hpost.
  assert (Hplain : plain (pre ++ [PyStr.backslash]) = true).
  { unfold plain in *. rewrite forallb_app, Hpre. reflexivity. }
  pose proof (scan_reaches_plain (pre ++ [PyStr.backslash]) None [] Hplain) as Hr.
  rewrite prev_after_app in Hr. simpl in Hr.
  change (pre ++ [PyStr.backslash; PyStr.dquote] ++ post)
    with (pre ++ [PyStr.backslash] ++ PyStr.dquote :: post).
  rewrite app_assoc, (Hgen _ post _ Hr).
  rewrite clean_scan_plain_end by assumption. now rewrite <- app_assoc.
Qed.

Lemma escaped_quote_outside_quotes_dropped_witness :
  clean_comments (txt "a" ++ [PyStr.backslash; PyStr.dquote] ++ txt "b  ") false
  = (txt "a" ++ [PyStr.backslash] ++ txt "b", false).
Proof.
  exact (eq_trans
           (proj2 escaped_quote_outside_quotes_dropped (txt "a") (txt "b  ")
                  eq_refl eq_refl)
           eq_refl).
Defined.

(** ** C1 *)

(** C1.  A file accepted by [is_valid_file], whatever its name, whose only
    line is [  foo (a, b )], processed from the default state (indent 2,
    length 80, no filter): the run ends normally and the findings against
    line 1 are exactly a whitespace/extra finding followed by a
    whitespace/mismatch finding. *)
Theorem scenario_A_extra_and_mismatch (linesep filename : str) (terminated : bool) :
  is_valid_file filename = true ->
  let '(r, fs) :=
    run (process_file linesep filename [file_line terminated (txt "  foo (a, b )")])
        world_init in
  r = Ret tt
  /\ at_line 1 fs
     = [ mkFinding filename 1 (txt "whitespace/extra")
                   (txt "Extra spaces between 'foo' and its ()");
         mkFinding filename 1 (txt "whitespace/mismatch")
                   (txt "Mismatching spaces inside () after command") ].
Proof.
  intro Hvalid.
  unfold run, process_file, _process_file, check_file_name, done, process_lines,
    process_line, try_finally, bind, get_lint.
  rewrite Hvalid.
  destruct (RE_FIND_MODULE (PyStr.basename filename)) as [[package rest]|];
    [ destruct (PyStr.isupper package)
    | destruct (PyStr.eqb (PyStr.lower filename) (txt "cmakelists.txt")
                && negb (PyStr.eqb filename (txt "CMakeLists.txt"))) ];
    destruct (is_find_package filename); destruct terminated;
    vm_compute; split; reflexivity.
Qed.

Lemma scenario_A_extra_and_mismatch_witness :
  let '(r, fs) :=
    run (process_file [PyStr.newline] (txt "CMakeLists.txt")
                      [file_line true (txt "  foo (a, b )")])
        world_init in
  r = Ret tt
  /\ at_line 1 fs
     = [ mkFinding (txt "CMakeLists.txt") 1 (txt "whitespace/extra")
                   (txt "Extra spaces between 'foo' and its ()");
         mkFinding (txt "CMakeLists.txt") 1 (txt "whitespace/mismatch")
                   (txt "Mismatching spaces inside () after command") ].
Proof.
  exact (scenario_A_extra_and_mismatch [PyStr.newline] (txt "CMakeLists.txt") true eq_refl).
Defined.

(** ** C7 *)

(** The call of [have_used_standard_args] sets the flag before it compares
    the names. *)
Lemma have_used_standard_args_sets_used (filename : str) (linenumber : nat) (var : str)
  (w : World) :
  have_used_stdargs (package (snd (have_used_standard_args filename linenumber var error w)))
  = true.
Proof.
  unfold have_used_standard_args. monad_unfold.
  destruct (negb (PyStr.eqb (_get_expected filename) var)); [|reflexivity].
  rewrite error_run. simpl. now destruct (should_print_error _ _).
Qed.

(** C7.  [FindFOO.cmake] with the two lines of scenario C, from the default
    state: the expected name is [FOO]; the run prints exactly one finding,
    package/stdargs at line 2 (expected [FOO], got [BAR]), hence no
    package/consistency finding; and [have_used_standard_args] leaves the
    package state used whether or not the names agree. *)
Theorem scenario_C_stdargs_mismatch (linesep : str) :
  _get_expected (txt "FindFOO.cmake") = txt "FOO"
  /\ run (process_file linesep (txt "FindFOO.cmake")
            [ file_line true (txt "include(FindPackageHandleStandardArgs)");
              file_line true (txt "find_package_handle_standard_args(BAR)") ])
         world_init
     = (Ret tt,
        [ mkFinding (txt "FindFOO.cmake") 2 (txt "package/stdargs")
            (txt "Weird variable passed to std args, should be FOO not BAR") ])
  /\ (forall filename linenumber var w,
         have_used_stdargs
           (package (snd (have_used_standard_args filename linenumber var error w)))
         = true).
Proof.
  split; [reflexivity|]. split; [vm_compute; reflexivity|].
  exact have_used_standard_args_sets_used.
Qed.

(** ** C8 *)

(** C8 fails on the code for a path with a directory part: the second
    branch of [check_file_name] compares the whole path, not the basename,
    with [cmakelists.txt].  For [src/cmakelists.txt], an accepted file whose
    basename is not a Find module and equals [cmakelists.txt] up to case,
    no finding is printed. *)
Theorem check_file_name_misses_directory_paths :
  let filename := txt "src/cmakelists.txt" in
  is_valid_file filename = true
  /\ RE_FIND_MODULE (PyStr.basename filename) = None
  /\ PyStr.eqb (PyStr.lower (PyStr.basename filename)) (txt "cmakelists.txt") = true
  /\ PyStr.eqb (PyStr.basename filename) (txt "CMakeLists.txt") = false
  /\ check_file_name filename error world_init = (Ret tt, world_init).
Proof. vm_compute. repeat split; reflexivity. Qed.

(** Without a directory part the finding is printed. *)
Lemma check_file_name_bare_name :
  check_file_name (txt "cmakelists.txt") error world_init
  = (Ret tt,
     mkWorld (mkLint [] 1 2 80 _ERROR_CATEGORIES false) package_init None
             [ mkFinding (txt "cmakelists.txt") 0 (txt "convention/filename")
                         (txt "File should be called CMakeLists.txt") ]
             []).
Proof. reflexivity. Qed.

(** ** C9 *)

Lemma first_other_none (skip : str) (tokens : list str) :
  forallb (fun t => PyStr.eqb t skip) tokens = true ->
  first_other skip tokens = None.
Proof.
  unfold first_other. induction tokens as [|t ts IH]; simpl; [reflexivity|].
  intro H. apply andb_true_iff in H as [Ht Hts]. rewrite Ht. simpl. now apply IH.
Qed.

Lemma argument_scan_raises (skip : str) (ls : list str) (w : World) :
  only_token skip ls = true ->
  argument_scan skip ls w = (Raise IndexError, w).
Proof.
  induction ls as [|l ls IH]; simpl; intro H; [reflexivity|].
  apply andb_true_iff in H as [Hl Hls].
  rewrite (first_other_none _ _ Hl). now apply IH.
Qed.

(** C9.  [get_command_argument] is partial: when the line at [linenumber]
    and the cleansed lines after it hold no token other than the command
    name, it raises [IndexError]; [check_find_package] lets the exception
    through for an [include] or [find_package_handle_standard_args]
    invocation of that kind; and processing [FindX.cmake] made of the line
    [include()] ends with that exception, no finding printed. *)
Theorem get_command_argument_index_error :
  (forall linenumber clean_lines line w,
      nth_error (lines clean_lines) linenumber = Some line ->
      only_token (get_command line) (skipn linenumber (lines clean_lines)) = true ->
      get_command_argument linenumber clean_lines w = (Raise IndexError, w))
  /\ (forall filename linenumber clean_lines errors line w,
         nth_error (lines clean_lines) linenumber = Some line ->
         PyStr.lower (get_command line) = txt "include"
         \/ PyStr.lower (get_command line) = txt "find_package_handle_standard_args" ->
         only_token (get_command line) (skipn linenumber (lines clean_lines)) = true ->
         check_find_package filename linenumber clean_lines errors w
         = (Raise IndexError, w))
  /\ (forall linesep,
         run (process_file linesep (txt "FindX.cmake") [file_line true (txt "include()")])
             world_init
         = (Raise IndexError, [])).
Proof.
  assert (Harg : forall linenumber clean_lines line w,
             nth_error (lines clean_lines) linenumber = Some line ->
             only_token (get_command line) (skipn linenumber (lines clean_lines)) = true ->
             get_command_argument linenumber clean_lines w = (Raise IndexError, w)).
  { intros linenumber clean_lines line w Hline Honly.
    unfold get_command_argument, bind, index. rewrite Hline. simpl.
    now apply argument_scan_raises. }
  split; [exact Harg|]. split.
  - intros filename linenumber clean_lines errors line w Hline Hcmd Honly.
    unfold check_find_package, index. rewrite Hline. monad_unfold.
    destruct (get_command line) as [|c cmd] eqn:Hget;
      [destruct Hcmd as [H|H]; discriminate H|].
    rewrite <- Hget in Honly.
    destruct Hcmd as [-> | ->];
      repeat match goal with
             | |- context [PyStr.eqb (txt ?a) (txt ?b)] =>
                 let v := eval vm_compute in (PyStr.eqb (txt a) (txt b)) in
                 change (PyStr.eqb (txt a) (txt b)) with v
             end;
      cbv beta iota; now rewrite (Harg _ _ _ w Hline Honly).
  - intro linesep. vm_compute. reflexivity.
Qed.

Lemma get_command_argument_index_error_witness :
  get_command_argument 1
    (CleansedLines_init [txt "# Lines start at 1"; txt "include()"; txt "# Lines end here"])
    world_init
  = (Raise IndexError, world_init).
Proof.
  exact (proj1 get_command_argument_index_error 1
           (CleansedLines_init
              [txt "# Lines start at 1"; txt "include()"; txt "# Lines end here"])
           (txt "include()") world_init eq_refl eq_refl).
Defined.

(** ** The terminal check *)

(** For a suffix without a slash, the path ends with it exactly when its
    basename does. *)
Lemma startswith_take_while (t : str) :
  forallb (fun c => negb (Ascii.eqb c "/")) t = true ->
  forall q,
    PyStr.startswith (PyStr.take_while (fun c => negb (Ascii.eqb c "/")) q) t
    = PyStr.startswith q t.
Proof.
  induction t as [|x t IH]; intros Ht q; [reflexivity|].
  simpl in Ht. apply andb_true_iff in Ht as [Hx Ht].
  destruct q as [|y q]; [reflexivity|]. simpl.
  destruct (Ascii.eqb_spec y "/") as [->|Hy]; simpl.
  - apply negb_true_iff in Hx. now rewrite Hx.
  - now rewrite IH.
Qed.

Lemma is_find_package_basename (filename : str) :
  is_find_package filename
  = PyStr.startswith (PyStr.basename filename) (txt "Find")
    && PyStr.endswith (PyStr.basename filename) (txt ".cmake").
Proof.
  unfold is_find_package, PyStr.endswith, PyStr.basename. f_equal.
  rewrite rev_involutive. symmetry. now apply startswith_take_while.
Qed.

(** X24.  After [done] the two flags of the package state are false again,
    whatever the file and the outcome.  For a file whose basename starts
    with [Find] and ends with [.cmake], when no active filter hides
    package/consistency, [done] returns normally and prints, at line 0, one
    package/consistency finding per flag that is not set: two when neither
    flag is set, none when both are. *)
Theorem done_package_consistency (filename : str) (w : World) :
  (have_included_stdargs (package (snd (done filename error w))) = false
   /\ have_used_stdargs (package (snd (done filename error w))) = false)
  /\ (PyStr.startswith (PyStr.basename filename) (txt "Find") = true ->
      PyStr.endswith (PyStr.basename filename) (txt ".cmake") = true ->
      should_print_error (filters (lint w)) (txt "package/consistency") = true ->
      fst (done filename error w) = Ret tt
      /\ findings (snd (done filename error w))
         = findings w ++ missing_findings filename (package w)
      /\ (have_included_stdargs (package w) = false ->
          have_used_stdargs (package w) = false ->
          length (missing_findings filename (package w)) = 2)
      /\ (have_included_stdargs (package w) = true ->
          have_used_stdargs (package w) = true ->
          missing_findings filename (package w) = [])).
Proof.
  unfold done, missing_findings. split.
  - monad_unfold.
    destruct (is_find_package filename); simpl; [|now split].
    destruct (have_included_stdargs (package w)), (have_used_stdargs (package w));
      simpl; rewrite ?error_run; simpl;
      repeat match goal with
             | |- context [should_print_error ?fs ?c] =>
                 destruct (should_print_error fs c); simpl; rewrite ?error_run; simpl
             end; now split.
  - intros Hstart Hend Hprint.
    assert (Hfind : is_find_package filename = true)
      by (now rewrite is_find_package_basename, Hstart, Hend).
    monad_unfold. rewrite Hfind. simpl.
    destruct (have_included_stdargs (package w)), (have_used_stdargs (package w));
      simpl; rewrite ?error_run, ?Hprint; simpl; rewrite ?error_run; simpl;
      rewrite ?Hprint; simpl; rewrite ?app_nil_r, <- ?app_assoc;
      repeat split; try reflexivity; intros; discriminate.
Qed.

Lemma done_package_consistency_witness :
  findings (snd (done (txt "FindFOO.cmake") error world_init))
  = [ mkFinding (txt "FindFOO.cmake") 0 (txt "package/consistency")
                (txt "Package should include FindPackageHandleStandardArgs");
      mkFinding (txt "FindFOO.cmake") 0 (txt "package/consistency")
                (txt "Package should use FIND_PACKAGE_HANDLE_STANDARD_ARGS") ].
Proof.
  exact (proj1 (proj2 (proj2 (done_package_consistency (txt "FindFOO.cmake") world_init)
                             eq_refl eq_refl eq_refl))).
Defined.

(** A Find module that neither includes nor uses the helper gets the two
    findings, and nothing else, from a whole run. *)
Lemma find_module_with_neither (linesep : str) :
  run (process_file linesep (txt "FindX.cmake") [file_line true (txt "set(X 1)")])
      world_init
  = (Ret tt, missing_findings (txt "FindX.cmake") package_init).
Proof. vm_compute. reflexivity. Qed.

(** ** C10 *)

Lemma validate_filters_invalid (cats : list str) (fs : list str) :
  has_invalid_entry cats fs = true ->
  exists msg, validate_filters cats fs = Some (ValueError msg).
Proof.
  unfold has_invalid_entry, filter_entry_ok.
  induction fs as [|f fs IH]; cbn [existsb validate_filters]; intro H; [discriminate|].
  destruct (PyStr.startswith f (txt "-") || PyStr.startswith f (txt "+"));
    cbn [andb negb orb] in *; [|eauto].
  destruct (filter_allowed cats f); cbn [andb negb orb] in *; eauto.
Qed.

Lemma has_invalid_entry_app (cats : list str) (old new : list str) :
  has_invalid_entry cats new = true ->
  has_invalid_entry cats (old ++ new) = true.
Proof.
  unfold has_invalid_entry. intro H. rewrite existsb_app, H. apply orb_true_r.
Qed.

Lemma set_filters_raises_after_append (arg : filter_arg) (w : World) :
  has_invalid_entry (allowed_categories (lint w)) (entries_of arg) = true ->
  exists msg,
    set_filters arg w
    = (Raise (ValueError msg),
       set_world_filters w (filters (lint w) ++ entries_of arg)).
Proof.
  intro H.
  destruct (validate_filters_invalid _ _
              (has_invalid_entry_app _ (filters (lint w)) _ H)) as [msg Hmsg].
  exists msg. unfold set_filters, set_world_filters.
  destruct arg as [|fs|s|]; try discriminate H.
  - destruct fs as [|f fs]; [discriminate H|].
    simpl filter_arg_falsy. monad_unfold. simpl in *. now rewrite Hmsg.
  - destruct s as [|c s]; [discriminate H|].
    simpl filter_arg_falsy. monad_unfold. simpl in *. now rewrite Hmsg.
Qed.

Lemma startswith_app (p rest : str) : PyStr.startswith (p ++ rest) p = true.
Proof.
  induction p as [|c p IH]; simpl; [reflexivity|].
  now rewrite Ascii.eqb_refl, IH.
Qed.

Lemma skipn_length_app (p rest : str) : skipn (length p) (p ++ rest) = rest.
Proof. induction p; simpl; auto. Qed.

(** C10.  [set_filters] is not atomic: given a list or a comma-separated
    string with an invalid entry, it raises [ValueError] with every entry of
    the input, the invalid ones included, appended to the active filters.
    A malformed pragma therefore reports its syntax finding from a state that
    already holds the filters of the pragma.  In the example, the pragma
    [-whitespace/tabs,bogus] is reported as a syntax finding and still hides
    the whitespace/tabs finding of the next line, which the same file
    without the pragma gets. *)
Theorem set_filters_not_atomic :
  (forall arg w,
      has_invalid_entry (allowed_categories (lint w)) (entries_of arg) = true ->
      exists msg,
        set_filters arg w
        = (Raise (ValueError msg),
           set_world_filters w (filters (lint w) ++ entries_of arg)))
  /\ (forall filename linenumber rest errors w,
         has_invalid_entry (allowed_categories (lint w)) (split_filters rest) = true ->
         exists msg,
           check_lint_pragma filename linenumber (txt "# lint_cmake: " ++ rest)
                             (Some errors) w
           = errors filename linenumber (txt "syntax") msg
                    (set_world_filters w (filters (lint w) ++ split_filters rest)))
  /\ (forall linesep,
         run (process_file linesep (txt "CMakeLists.txt")
                [ file_line true (txt "# lint_cmake: -whitespace/tabs,bogus");
                  file_line true (txt "set(X" ++ [PyStr.tab] ++ txt "1)") ])
             world_init
         = (Ret tt,
            [ mkFinding (txt "CMakeLists.txt") 1 (txt "syntax")
                        (txt "Filter should start with - or +") ])
         /\ run (process_file linesep (txt "CMakeLists.txt")
                   [ file_line true (txt "set(X" ++ [PyStr.tab] ++ txt "1)") ])
                world_init
            = (Ret tt,
               [ mkFinding (txt "CMakeLists.txt") 1 (txt "whitespace/tabs")
                           (txt "Tab found; please use spaces") ])).
Proof.
  split; [exact set_filters_raises_after_append|]. split.
  - intros filename linenumber rest errors w H.
    destruct (set_filters_raises_after_append (FStr rest) w H) as [msg Hmsg].
    exists msg. unfold check_lint_pragma.
    rewrite startswith_app. unfold PyStr.slice_from. rewrite skipn_length_app.
    unfold try_except. now rewrite Hmsg.
  - intro linesep. split; vm_compute; reflexivity.
Qed.

Lemma set_filters_not_atomic_witness :
  exists msg,
    set_filters (FStr (txt "-whitespace/tabs,bogus")) world_init
    = (Raise (ValueError msg),
       set_world_filters world_init [txt "-whitespace/tabs"; txt "bogus"]).
Proof.
  exact (proj1 set_filters_not_atomic (FStr (txt "-whitespace/tabs,bogus")) world_init
               eq_refl).
Defined.

(** ** C5 *)

Lemma first_case_app (a b : list str) :
  first_case (a ++ b)
  = match first_case a with Some x => Some x | None => first_case b end.
Proof.
  induction a as [|l a IH]; simpl; [reflexivity|].
  now destruct (case_of l).
Qed.

Lemma first_case_prefix (s : nat) (ls : list str) (a : bool) :
  first_case (firstn s ls) = Some a -> first_case ls = Some a.
Proof.
  intro H. rewrite <- (firstn_skipn s ls), first_case_app. now rewrite H.
Qed.

Lemma firstn_snoc (s : nat) (ls : list str) (l : str) :
  nth_error ls s = Some l -> firstn (S s) ls = firstn s ls ++ [l].
Proof.
  revert ls; induction s as [|s IH]; intros [|x ls] H; try discriminate.
  - now injection H as ->.
  - simpl in H. apply IH in H. simpl in *. now rewrite H.
Qed.

Lemma first_case_snoc (s : nat) (ls : list str) (l : str) :
  nth_error ls s = Some l ->
  first_case (firstn (S s) ls)
  = match first_case (firstn s ls) with Some a => Some a | None => case_of l end.
Proof.
  intro H. rewrite (firstn_snoc _ _ H), first_case_app. simpl.
  now destruct (case_of l).
Qed.

Lemma first_case_exists (ls : list str) (i : nat) (l : str) (a : bool) :
  nth_error ls i = Some l -> case_of l = Some a -> exists c, first_case ls = Some c.
Proof.
  revert i; induction ls as [|x ls IH]; intros [|i] H Hc; try discriminate; simpl in *.
  - injection H as ->. rewrite Hc. eauto.
  - destruct (case_of x); eauto.
Qed.

(** One run of the check with [error] as reporter: it returns normally,
    keeps the filters, only appends findings, fixes the flag at the first
    category seen and never changes it afterwards, and reports a line whose
    category differs from the flag. *)
Lemma check_upper_lower_case_step (filename : str) (n : nat) (cl : CleansedLines)
  (line : str) (w : World) :
  nth_error (lines cl) n = Some line ->
  exists w',
    check_upper_lower_case filename n cl error w = (Ret tt, w')
    /\ filters (lint w') = filters (lint w)
    /\ (exists extra, findings w' = findings w ++ extra)
    /\ have_seen_uppercase w'
       = match have_seen_uppercase w with Some a => Some a | None => case_of line end
    /\ (forall a,
           have_seen_uppercase w = Some a ->
           case_of line = Some (negb a) ->
           should_print_error (filters (lint w)) (txt "readability/mixedcase") = true ->
           In (mixedcase_at filename n) (findings w')).
Proof.
  intro Hline. unfold check_upper_lower_case, index, case_of. rewrite Hline.
  monad_unfold.
  destruct (contains_command line) as [m|].
  - destruct (is_command_mixed_case (get_command line)).
    + rewrite error_run. eexists. split; [reflexivity|].
      destruct (should_print_error (filters (lint w)) (txt "readability/wonkycase"));
        simpl; (split; [reflexivity|]);
        (split; [eexists; try reflexivity; symmetry; apply app_nil_r|]);
        (split; [now destruct (have_seen_uppercase w)|]); intros; discriminate.
    + destruct (have_seen_uppercase w) as [seen|] eqn:Hseen.
      * destruct (negb (Bool.eqb (is_command_upper_case (get_command line)) seen)) eqn:Hd.
        -- rewrite error_run. eexists. split; [reflexivity|].
           destruct (should_print_error (filters (lint w)) (txt "readability/mixedcase"));
             simpl; (split; [reflexivity|]);
             (split; [eexists; try reflexivity; symmetry; apply app_nil_r|]);
             (split; [assumption|]); intros a _ _ Hp; try discriminate.
           apply in_or_app. right. now left.
        -- eexists. split; [reflexivity|]. split; [reflexivity|].
           split; [exists []; symmetry; apply app_nil_r|]. split; [assumption|].
           intros a Ha Hc _. injection Ha as <-. injection Hc as Hc.
           rewrite Hc in Hd. now destruct seen.
      * eexists. split; [reflexivity|]. simpl. split; [reflexivity|].
        split; [exists []; symmetry; apply app_nil_r|]. split; [reflexivity|].
        intros; discriminate.
  - exists w. split; [reflexivity|]. split; [reflexivity|].
    split; [exists []; symmetry; apply app_nil_r|].
    split; [now destruct (have_seen_uppercase w)|]. intros; discriminate.
Qed.

(** ** The other checks leave the case flag and the filters alone *)

Lemma calm_refl (w : World) : calm w w.
Proof. repeat split. exists []. symmetry. apply app_nil_r. Qed.

Lemma calm_trans (w1 w2 w3 : World) : calm w1 w2 -> calm w2 w3 -> calm w1 w3.
Proof.
  intros (Hf & Hs & [e He]) (Hf' & Hs' & [e' He']). repeat split; try congruence.
  exists (e ++ e'). now rewrite He', He, app_assoc.
Qed.

Lemma calmly_ret {A} (a : A) : calmly (ret a).
Proof. intro w. apply calm_refl. Qed.

Lemma calmly_raise {A} (e : exn) : calmly (@raise A e).
Proof. intro w. apply calm_refl. Qed.

Lemma calmly_bind {A B} (c : M A) (k : A -> M B) :
  calmly c -> (forall a, calmly (k a)) -> calmly (bind c k).
Proof.
  intros Hc Hk w. unfold bind. specialize (Hc w).
  destruct (c w) as [[a|e] w1]; simpl in *; [|assumption].
  eapply calm_trans; [exact Hc | apply Hk].
Qed.

Lemma calmly_error (filename : str) (n : nat) (category message : str) :
  calmly (error filename n category message).
Proof.
  intro w. rewrite error_run. simpl.
  destruct (should_print_error (filters (lint w)) category); [|apply calm_refl].
  repeat split. now exists [mkFinding filename n category message].
Qed.

Lemma calmly_get_lint : calmly get_lint.
Proof. intro w. apply calm_refl. Qed.

Lemma calmly_get_package : calmly get_package.
Proof. intro w. apply calm_refl. Qed.

Lemma calmly_put_package (p : PackageState) : calmly (put_package p).
Proof. intro w. repeat split. exists []. symmetry. apply app_nil_r. Qed.

Lemma calmly_index (l : list str) (n : nat) : calmly (index l n).
Proof. unfold index. destruct (nth_error l n); [apply calmly_ret | apply calmly_raise]. Qed.

Ltac calm_step :=
  first
    [ apply calmly_ret | apply calmly_raise | apply calmly_error
    | apply calmly_get_lint | apply calmly_get_package | apply calmly_put_package
    | apply calmly_index
    | apply calmly_bind; [|intro]
    | match goal with
      | |- calmly (if ?b then _ else _) => destruct b
      | |- calmly (match ?x with _ => _ end) => destruct x
      end ].

Lemma calmly_repeat_logic_loop (cmds : list str) (filename : str) (n : nat) (line : str) :
  calmly (repeat_logic_loop cmds filename n line error).
Proof. induction cmds as [|cmd cmds IH]; simpl; repeat calm_step. exact IH. Qed.

Lemma calmly_argument_scan (skip : str) (rest : list str) : calmly (argument_scan skip rest).
Proof. induction rest as [|l rest IH]; simpl; repeat calm_step. exact IH. Qed.

Lemma calmly_check_line_length (f : str) (n : nat) (cl : CleansedLines) :
  calmly (check_line_length f n cl error).
Proof. unfold check_line_length. repeat calm_step. Qed.

Lemma calmly_check_indent (f : str) (n : nat) (cl : CleansedLines) :
  calmly (check_indent f n cl error).
Proof. unfold check_indent. repeat calm_step. Qed.

Lemma calmly_check_command_spaces (f : str) (n : nat) (cl : CleansedLines) :
  calmly (check_command_spaces f n cl error).
Proof. unfold check_command_spaces. repeat calm_step. Qed.

Lemma calmly_check_repeat_logic (f : str) (n : nat) (cl : CleansedLines) :
  calmly (check_repeat_logic f n cl error).
Proof. unfold check_repeat_logic. repeat calm_step. apply calmly_repeat_logic_loop. Qed.

Lemma calmly_check_style (f : str) (n : nat) (cl : CleansedLines) :
  calmly (check_style f n cl error).
Proof.
  unfold check_style.
  repeat first [ apply calmly_check_indent | apply calmly_check_command_spaces
               | apply calmly_check_repeat_logic | calm_step ].
Qed.

Lemma calmly_check_find_package (f : str) (n : nat) (cl : CleansedLines) :
  calmly (check_find_package f n cl error).
Proof.
  unfold check_find_package, get_command_argument, have_included, have_used_standard_args.
  repeat first [ apply calmly_argument_scan | calm_step ].
Qed.

Lemma check_lint_pragma_plain (f : str) (n : nat) (raw : str) (errors : option Reporter) :
  is_pragma raw = false -> check_lint_pragma f n raw errors = ret tt.
Proof. unfold check_lint_pragma, is_pragma. now intros ->. Qed.

Lemma bind_ret_inv {A B} (c : M A) (k : A -> M B) (w w' : World) (b : B) :
  bind c k w = (Ret b, w') ->
  exists a w1, c w = (Ret a, w1) /\ k a w1 = (Ret b, w').
Proof.
  unfold bind. destruct (c w) as [[a|e] w1]; [eauto | discriminate].
Qed.

Lemma calmly_snd {A} (c : M A) (w w' : World) (r : outcome A) :
  calmly c -> c w = (r, w') -> calm w w'.
Proof. intros Hc H. specialize (Hc w). now rewrite H in Hc. Qed.

(** One line of the loop of [_process_file], not a pragma, processed to its
    end: the case check acts as above and the other checks only print. *)
Lemma process_line_step (filename : str) (n : nat) (cl : CleansedLines)
  (line raw : str) (w w' : World) :
  nth_error (lines cl) n = Some line ->
  nth_error (raw_lines cl) n = Some raw ->
  is_pragma raw = false ->
  process_line filename n cl error w = (Ret tt, w') ->
  filters (lint w') = filters (lint w)
  /\ (exists extra, findings w' = findings w ++ extra)
  /\ have_seen_uppercase w'
     = match have_seen_uppercase w with Some a => Some a | None => case_of line end
  /\ (forall a,
         have_seen_uppercase w = Some a ->
         case_of line = Some (negb a) ->
         should_print_error (filters (lint w)) (txt "readability/mixedcase") = true ->
         In (mixedcase_at filename n) (findings w')).
Proof.
  intros Hline Hraw Hplain Hrun. unfold process_line in Hrun.
  apply bind_ret_inv in Hrun as (raw' & w0 & Hidx & Hrun).
  unfold index in Hidx. rewrite Hraw in Hidx. injection Hidx as <- <-.
  rewrite check_lint_pragma_plain in Hrun by exact Hplain.
  apply bind_ret_inv in Hrun as (? & w1 & Hp & Hrun). injection Hp as _ <-.
  apply bind_ret_inv in Hrun as (? & w2 & Hlen & Hrun).
  apply bind_ret_inv in Hrun as (? & w3 & Hcase & Hrun).
  apply bind_ret_inv in Hrun as (? & w4 & Hstyle & Hfind).
  apply (@calmly_snd _ _ _ _ _ (calmly_check_line_length filename n cl)) in Hlen
    as (Hf2 & Hs2 & [e2 He2]).
  apply (@calmly_snd _ _ _ _ _ (calmly_check_style filename n cl)) in Hstyle
    as (Hf4 & Hs4 & [e4 He4]).
  assert (Hc5 : calm w4 w').
  { destruct (is_find_package filename).
    - exact (@calmly_snd _ _ _ _ _ (calmly_check_find_package filename n cl) Hfind).
    - injection Hfind as <-. apply calm_refl. }
  destruct Hc5 as (Hf5 & Hs5 & [e5 He5]).
  destruct (@check_upper_lower_case_step filename n cl line w2 Hline)
    as (w3' & Hcase' & Hf3 & [e3 He3] & Hs3 & Hmixed).
  rewrite Hcase' in Hcase. injection Hcase as _ <-.
  split; [congruence|]. split.
  - exists (e2 ++ e3 ++ e4 ++ e5). rewrite He5, He4, He3, He2.
    now rewrite <- !app_assoc.
  - split; [rewrite Hs5, Hs4, Hs3, Hs2; reflexivity|].
    intros a Ha Hc Hp. rewrite He5, He4. apply in_or_app. left. apply in_or_app. left.
    apply (Hmixed a); congruence.
Qed.

(** The loop from line [s] on, entered with the flag the lines before [s]
    have fixed. *)
Lemma process_lines_from (filename : str) (cl : CleansedLines) :
  forallb (fun raw => negb (is_pragma raw)) (raw_lines cl) = true ->
  forall len s w w',
    s + len = length (lines cl) ->
    should_print_error (filters (lint w)) (txt "readability/mixedcase") = true ->
    have_seen_uppercase w = first_case (firstn s (lines cl)) ->
    for_each (seq s len) (fun n => process_line filename n cl error) w = (Ret tt, w') ->
    (exists extra, findings w' = findings w ++ extra)
    /\ (forall j lj b,
           s <= j ->
           nth_error (lines cl) j = Some lj ->
           case_of lj = Some b ->
           first_case (lines cl) = Some (negb b) ->
           In (mixedcase_at filename j) (findings w')).
Proof.
  intro Hplain.
  induction len as [|len IH]; intros s w w' Hlen Hprint Hseen Hrun.
  - injection Hrun as <-. split; [exists []; symmetry; apply app_nil_r|].
    intros j lj b Hj Hnth _ _.
    assert (nth_error (lines cl) j = None) by (apply nth_error_None; lia).
    congruence.
  - simpl in Hrun. apply bind_ret_inv in Hrun as ([] & w1 & Hstep & Hrun).
    assert (Hs : s < length (lines cl)) by lia.
    destruct (nth_error (lines cl) s) as [ls|] eqn:Hls;
      [|apply nth_error_None in Hls; lia].
    destruct (nth_error (raw_lines cl) s) as [raw|] eqn:Hraw.
    2:{ unfold process_line, bind, index in Hstep. rewrite Hraw in Hstep.
        discriminate Hstep. }
    assert (Hr : is_pragma raw = false).
    { apply nth_error_In in Hraw.
      pose proof (proj1 (forallb_forall _ _) Hplain raw Hraw) as H.
      now apply negb_true_iff in H. }
    destruct (@process_line_step filename s cl ls raw w w1 Hls Hraw Hr Hstep)
      as (Hfil & [extra1 Hext1] & Hseen1 & Hmixed).
    destruct (IH (S s) w1 w') as ([extra Hext] & Hall); auto.
    + lia.
    + now rewrite Hfil.
    + rewrite Hseen1, Hseen. symmetry. now apply first_case_snoc.
    + split; [exists (extra1 ++ extra); now rewrite Hext, Hext1, app_assoc|].
      intros j lj b Hj Hnth Hcase Hfirst.
      destruct (Nat.eq_dec j s) as [->|Hne]; [|apply (Hall j lj b); auto; lia].
      rewrite Hls in Hnth. injection Hnth as <-.
      rewrite Hext. apply in_or_app. left.
      destruct (have_seen_uppercase w) as [a|] eqn:Ha.
      * apply (Hmixed a); auto.
        symmetry in Hseen. apply first_case_prefix in Hseen.
        rewrite Hseen in Hfirst. injection Hfirst as ->.
        now rewrite negb_involutive.
      * assert (Hf : first_case (firstn (S s) (lines cl)) = Some b)
          by (rewrite (first_case_snoc _ _ Hls), <- Hseen; assumption).
        apply first_case_prefix in Hf. rewrite Hf in Hfirst.
        injection Hfirst as Hb. now destruct b.
Qed.

(** C5, as stated, fails: in a file with the lines [FOO()], [bar()] and
    [BAZ()], the lines 2 and 3 start commands of differing strict casing,
    yet the only finding is the readability/mixedcase one of line 2; the
    later of the two, line 3, has none. *)
Lemma mixedcase_not_on_later_line :
  case_of (txt "bar()") = Some false
  /\ case_of (txt "BAZ()") = Some true
  /\ run (process_file [PyStr.newline] (txt "CMakeLists.txt")
            [ file_line true (txt "FOO()"); file_line true (txt "bar()");
              file_line true (txt "BAZ()") ])
         world_init
     = (Ret tt, [ mixedcase_at (txt "CMakeLists.txt") 2 ]).
Proof. vm_compute. repeat split; reflexivity. Qed.

(** C5, amended.  A command-starting line whose command name is neither its
    lower-case nor its upper-case form makes the check report
    readability/wonkycase, whatever the state.  When the loop of
    [_process_file] over the lines of a file without pragma lines runs to
    its end (the flag unset at the start, readability/mixedcase not filtered
    out), readability/mixedcase has been printed for every line whose
    category differs from the category of the first line that has one; so of
    two lines of differing categories one is reported, at or before the
    later of the two, and the later one is reported when the other category
    is the one that fixed the flag. *)
Theorem case_consistency :
  (forall filename n cl errors line w,
      nth_error (lines cl) n = Some line ->
      contains_command line <> None ->
      is_command_mixed_case (get_command line) = true ->
      check_upper_lower_case filename n cl errors w
      = errors filename n (txt "readability/wonkycase")
               (txt "Do not use mixed case commands") w)
  /\ (forall filename cl w w',
         forallb (fun raw => negb (is_pragma raw)) (raw_lines cl) = true ->
         should_print_error (filters (lint w)) (txt "readability/mixedcase") = true ->
         have_seen_uppercase w = None ->
         process_lines filename cl w = (Ret tt, w') ->
         (forall j lj b,
             nth_error (lines cl) j = Some lj ->
             case_of lj = Some b ->
             first_case (lines cl) = Some (negb b) ->
             In (mixedcase_at filename j) (findings w'))
         /\ (forall i j li lj a,
                i < j ->
                nth_error (lines cl) i = Some li ->
                nth_error (lines cl) j = Some lj ->
                case_of li = Some a ->
                case_of lj = Some (negb a) ->
                In (mixedcase_at filename i) (findings w')
                \/ In (mixedcase_at filename j) (findings w'))).
Proof.
  split.
  - intros filename n cl errors line w Hline Hcmd Hmixed.
    unfold check_upper_lower_case, index. rewrite Hline. monad_unfold.
    destruct (contains_command line); [|now elim Hcmd]. now rewrite Hmixed.
  - intros filename cl w w' Hplain Hprint Hseen Hrun.
    destruct (@process_lines_from filename cl Hplain (length (lines cl)) 0 w w'
                eq_refl Hprint Hseen Hrun) as (_ & Hall).
    split.
    + intros j lj b. apply Hall. lia.
    + intros i j li lj a _ Hi Hj Hci Hcj.
      destruct (first_case_exists _ _ Hi Hci) as [c Hc].
      destruct (Bool.eqb c a) eqn:Hca.
      * apply Bool.eqb_prop in Hca. subst c. right.
        apply (Hall j lj (negb a)); auto; [lia|]. now rewrite negb_involutive.
      * left. apply (Hall i li a); auto; [lia|].
        rewrite Hc. f_equal. now destruct c, a.
Qed.

Lemma case_consistency_witness :
  In (mixedcase_at (txt "CMakeLists.txt") 2)
     (findings
        (snd (process_lines (txt "CMakeLists.txt")
                (CleansedLines_init
                   [txt "# Lines start at 1"; txt "foo()"; txt "BAR()";
                    txt "# Lines end here"])
                world_init))).
Proof.
  exact (proj1 (proj2 case_consistency (txt "CMakeLists.txt")
                      (CleansedLines_init
                         [txt "# Lines start at 1"; txt "foo()"; txt "BAR()";
                          txt "# Lines end here"])
                      world_init _ eq_refl eq_refl eq_refl eq_refl)
               2 (txt "BAR()") true eq_refl eq_refl eq_refl).
Defined.

(** ** The matchers find exactly the decompositions of the input *)

Section MatcherFacts.
Context {A : Type}.
Implicit Types (p : ascii -> bool) (k : str -> str -> option A).

Lemma star_sound p s : forall k x,
  Re.star p s k = Some x ->
  exists m r, s = m ++ r /\ forallb p m = true /\ k m r = Some x.
Proof.
  induction s as [|c s IH]; intros k x H; simpl in H.
  - exists [], []. auto.
  - destruct (p c) eqn:Hc; [|exists [], (c :: s); auto].
    destruct (Re.star p s (fun m r => k (c :: m) r)) as [y|] eqn:Hs.
    + injection H as ->. apply IH in Hs as (m & r & -> & Hm & Hk).
      exists (c :: m), r. simpl. rewrite Hc. auto.
    + exists [], (c :: s). auto.
Qed.

Lemma star_complete p m : forall r k,
  forallb p m = true ->
  k m r <> None ->
  Re.star p (m ++ r) k <> None.
Proof.
  induction m as [|c m IH]; intros r k Hm Hk; simpl.
  - destruct r as [|c r]; simpl; [assumption|].
    destruct (p c); [|assumption].
    now destruct (Re.star p r (fun m r0 => k (c :: m) r0)).
  - simpl in Hm. apply andb_true_iff in Hm as [Hc Hm]. rewrite Hc.
    pose proof (IH r (fun m0 r0 => k (c :: m0) r0) Hm Hk) as Hs.
    now destruct (Re.star p (m ++ r) (fun m0 r0 => k (c :: m0) r0)).
Qed.

Lemma plus_sound p s k x :
  Re.plus p s k = Some x ->
  exists m r, s = m ++ r /\ m <> [] /\ forallb p m = true /\ k m r = Some x.
Proof.
  unfold Re.plus. destruct s as [|c s]; [discriminate|].
  destruct (p c) eqn:Hc; [|discriminate].
  intro H. apply star_sound in H as (m & r & -> & Hm & Hk).
  exists (c :: m), r. simpl. rewrite Hc. repeat split; auto. discriminate.
Qed.

Lemma plus_complete p m r k :
  m <> [] ->
  forallb p m = true ->
  k m r <> None ->
  Re.plus p (m ++ r) k <> None.
Proof.
  destruct m as [|c m]; [congruence|]. intros _ Hm Hk. simpl in *.
  apply andb_true_iff in Hm as [Hc Hm]. rewrite Hc.
  now apply star_complete.
Qed.

Lemma chr_sound c s (k1 : str -> option A) x :
  Re.chr c s k1 = Some x -> exists r, s = c :: r /\ k1 r = Some x.
Proof.
  unfold Re.chr. destruct s as [|d s]; [discriminate|].
  destruct (Ascii.eqb_spec c d) as [->|]; [|discriminate]. eauto.
Qed.

Lemma chr_complete c r (k1 : str -> option A) :
  k1 r <> None -> Re.chr c (c :: r) k1 <> None.
Proof. simpl. now rewrite Ascii.eqb_refl. Qed.

Lemma search_sound (f : str -> option A) s x :
  Re.search f s = Some x -> exists pre suf, s = pre ++ suf /\ f suf = Some x.
Proof.
  induction s as [|c s IH]; simpl.
  - destruct (f []) eqn:Hf; [|discriminate]. intros [= ->]. exists [], []. auto.
  - destruct (f (c :: s)) eqn:Hf.
    + intros [= ->]. exists [], (c :: s). auto.
    + intro H. apply IH in H as (pre & suf & -> & H). exists (c :: pre), suf. auto.
Qed.

Lemma search_complete (f : str -> option A) pre suf :
  f suf <> None -> Re.search f (pre ++ suf) <> None.
Proof.
  intro Hf. induction pre as [|c pre IH]; simpl.
  - destruct suf as [|c suf]; simpl; now destruct (f _).
  - now destruct (f (c :: pre ++ suf)).
Qed.
End MatcherFacts.

Lemma logic_check_at_sound (s g1 : str) :
  logic_check_at s = Some g1 -> logic_match g1 s.
Proof.
  unfold logic_check_at. intro H.
  apply plus_sound in H as (m1 & r1 & -> & Hn1 & Hm1 & H).
  apply star_sound in H as (m2 & r2 & -> & Hm2 & H).
  apply chr_sound in H as (r3 & -> & H).
  apply star_sound in H as (m4 & r4 & -> & Hm4 & H).
  apply plus_sound in H as (m5 & r5 & -> & Hn5 & Hm5 & H).
  apply plus_sound in H as (m6 & r6 & -> & Hn6 & Hm6 & H).
  apply chr_sound in H as (r7 & -> & H).
  injection H as <-.
  exists m2, m4, m5, m6, r7. repeat split; auto.
Qed.

Lemma logic_check_at_complete (s g1 : str) :
  logic_match g1 s -> logic_check_at s <> None.
Proof.
  intros (ws1 & ws2 & ns & np & post & -> & Hn1 & Hg & Hw1 & Hw2 & Hn5 & Hns & Hn6 & Hnp).
  unfold logic_check_at.
  apply plus_complete; auto.
  apply star_complete; auto.
  apply chr_complete.
  apply star_complete; auto.
  apply plus_complete; auto.
  apply plus_complete; auto.
  apply chr_complete. discriminate.
Qed.

Lemma RE_LOGIC_CHECK_sound (line g1 : str) :
  RE_LOGIC_CHECK line = Some g1 -> logic_expression g1 line.
Proof.
  unfold RE_LOGIC_CHECK. intro H.
  apply search_sound in H as (pre & suf & -> & H).
  exists pre, suf. split; [reflexivity|]. now apply logic_check_at_sound.
Qed.

Lemma RE_LOGIC_CHECK_complete (line g1 : str) :
  logic_expression g1 line -> RE_LOGIC_CHECK line <> None.
Proof.
  intros (pre & suf & -> & H). unfold RE_LOGIC_CHECK.
  apply search_complete. now apply (logic_check_at_complete H).
Qed.

(** ** Whole-word search *)

Lemma startswith_inv (p : str) : forall s,
  PyStr.startswith s p = true -> exists post, s = p ++ post.
Proof.
  induction p as [|c p IH]; intros s H; simpl in *; [eauto|].
  destruct s as [|d s]; [discriminate|].
  apply andb_true_iff in H as [Hc H]. apply Ascii.eqb_eq in Hc as ->.
  apply IH in H as [post ->]. eauto.
Qed.

Lemma word_at_spec (kw : str) (prev : option ascii) (s : str) :
  wordy kw ->
  Re.word_at kw prev s = true
  <-> exists post, s = kw ++ post
                   /\ Re.is_word_opt prev = false
                   /\ Re.is_word_opt (hd_error post) = false.
Proof.
  intros [Hhd Hlast]. unfold Re.word_at.
  destruct kw as [|c0 kw]; [discriminate Hhd|].
  destruct (rev (c0 :: kw)) as [|cl rk] eqn:Hrev; [discriminate Hlast|].
  simpl in Hhd, Hlast. split.
  - intro H. apply andb_true_iff in H as [H Hafter].
    apply andb_true_iff in H as [Hbefore Hstart].
    apply startswith_inv in Hstart as [post ->]. exists post.
    rewrite skipn_length_app in Hafter. simpl in Hbefore.
    unfold Re.boundary in *. simpl in *. rewrite Hhd in Hbefore. rewrite Hlast in Hafter.
    split; [reflexivity|]. split.
    + now destruct (Re.is_word_opt prev).
    + now destruct (Re.is_word_opt (hd_error post)).
  - intros (post & -> & Hprev & Hnext).
    rewrite startswith_app, skipn_length_app. unfold Re.boundary. simpl.
    now rewrite Hprev, Hnext, Hhd, Hlast.
Qed.

Lemma search_word_spec (kw : str) :
  wordy kw ->
  forall s prev, Re.search_word kw prev s = true <-> keyword_at kw prev s.
Proof.
  intros Hw s. induction s as [|c s IH]; intro prev; simpl Re.search_word.
  - rewrite orb_false_r, (word_at_spec _ _ Hw). split.
    + intros (post & H & Hp & Hn). exists [], post. auto.
    + intros (pre & post & H & Hp & Hn).
      destruct pre as [|d pre]; [|discriminate H]. exists post. auto.
  - rewrite orb_true_iff, (word_at_spec _ _ Hw), IH. split.
    + intros [(post & H & Hp & Hn) | (pre & post & H & Hp & Hn)].
      * exists [], post. auto.
      * exists (c :: pre), post. simpl. rewrite H. auto.
    + intros (pre & post & H & Hp & Hn). destruct pre as [|d pre]; simpl in *.
      * left. exists post. auto.
      * injection H as <- ->. right. exists pre, post. auto.
Qed.

Lemma logic_commands_wordy : Forall wordy _logic_commands.
Proof. repeat constructor. Qed.

(** ** C3 *)

(** C3.  The code fails the claim in both directions.  In [set(X else)] the
    keyword is an argument and is followed by no parenthesised expression,
    yet the finding is reported, and it names [set] as the command to use;
    in [endif(x)] the keyword is followed by an expression with non-trivial
    content, yet nothing is reported, the pattern asking for two characters
    of content at least. *)
Lemma repeat_logic_not_tied_to_keyword :
  (spec_repeat_logic (txt "set(X else)") = false
   /\ run (check_repeat_logic (txt "CMakeLists.txt") 0
             (CleansedLines_init [txt "set(X else)"]) error) world_init
      = (Ret tt,
         [ mkFinding (txt "CMakeLists.txt") 0 (txt "readability/logic")
             (txt "Expression repeated inside else; better to use only set()") ]))
  /\ (spec_repeat_logic (txt "endif(x)") = true
      /\ run (check_repeat_logic (txt "CMakeLists.txt") 0
                (CleansedLines_init [txt "endif(x)"]) error) world_init
         = (Ret tt, [])).
Proof. vm_compute. repeat split; reflexivity. Qed.

Lemma repeat_logic_loop_run (filename : str) (n : nat) (line : str) (errors : Reporter)
  (w : World) (cmds : list str) :
  repeat_logic_loop cmds filename n line errors w
  = match find (fun cmd => Re.search_word cmd None (PyStr.lower line)) cmds,
          RE_LOGIC_CHECK line with
    | Some cmd, Some g1 =>
        errors filename n (txt "readability/logic") (logic_message cmd g1) w
    | _, _ => (Ret tt, w)
    end.
Proof.
  induction cmds as [|cmd cmds IH]; simpl.
  - now destruct (RE_LOGIC_CHECK line).
  - destruct (Re.search_word cmd None (PyStr.lower line)); [|exact IH].
    now destruct (RE_LOGIC_CHECK line).
Qed.

Lemma first_keyword_some (line cmd : str) :
  first_keyword line = Some cmd -> In cmd _logic_commands /\ keyword_in cmd line.
Proof.
  intro H. apply find_some in H as [Hin Hs]. split; [assumption|].
  apply search_word_spec; [|assumption].
  exact (proj1 (Forall_forall _ _) logic_commands_wordy cmd Hin).
Qed.

Lemma first_keyword_found (line kw : str) :
  In kw _logic_commands -> keyword_in kw line -> first_keyword line <> None.
Proof.
  intros Hin Hk Hnone.
  pose proof (find_none _ _ Hnone kw Hin) as Hf. simpl in Hf.
  assert (Ht : Re.search_word kw None (PyStr.lower line) = true).
  { apply search_word_spec; [|assumption].
    exact (proj1 (Forall_forall _ _) logic_commands_wordy kw Hin). }
  congruence.
Qed.

(** X23.  On a cleansed line the check calls the reporter at most once: with
    readability/logic, the first keyword of the list that the lower-cased
    line holds as a whole word and group 1 of the leftmost match of
    [_RE_LOGIC_CHECK] in the line.  So it reports exactly when the line
    holds a keyword as a whole word and, anywhere in the line (not
    necessarily after the keyword), a word followed by a parenthesis whose
    content after leading white space is a non-empty run of non-space
    characters followed by a non-empty run of characters other than the
    closing parenthesis; the finding names that word. *)
Theorem repeat_logic_characterised (filename : str) (n : nat) (cl : CleansedLines)
  (errors : Reporter) (line : str) (w : World) :
  nth_error (lines cl) n = Some line ->
  check_repeat_logic filename n cl errors w
  = match first_keyword line, RE_LOGIC_CHECK line with
    | Some cmd, Some g1 =>
        errors filename n (txt "readability/logic") (logic_message cmd g1) w
    | _, _ => (Ret tt, w)
    end
  /\ ((exists kw, In kw _logic_commands /\ keyword_in kw line) ->
      (exists g, logic_expression g line) ->
      exists cmd g1,
        In cmd _logic_commands /\ keyword_in cmd line /\ logic_expression g1 line
        /\ check_repeat_logic filename n cl errors w
           = errors filename n (txt "readability/logic") (logic_message cmd g1) w)
  /\ (~ ((exists kw, In kw _logic_commands /\ keyword_in kw line)
         /\ (exists g, logic_expression g line)) ->
      check_repeat_logic filename n cl errors w = (Ret tt, w)).
Proof.
  intro Hline.
  assert (Hrun : check_repeat_logic filename n cl errors w
                 = match first_keyword line, RE_LOGIC_CHECK line with
                   | Some cmd, Some g1 =>
                       errors filename n (txt "readability/logic")
                              (logic_message cmd g1) w
                   | _, _ => (Ret tt, w)
                   end).
  { unfold check_repeat_logic, index. rewrite Hline. monad_unfold.
    apply repeat_logic_loop_run. }
  split; [exact Hrun|]. rewrite Hrun. split.
  - intros (kw & Hin & Hkw) (g & Hg).
    destruct (first_keyword line) as [cmd|] eqn:Hfirst;
      [|now elim (first_keyword_found Hin Hkw)].
    destruct (RE_LOGIC_CHECK line) as [g1|] eqn:Hre;
      [|now elim (RE_LOGIC_CHECK_complete Hg)].
    destruct (first_keyword_some _ Hfirst) as [Hcin Hck].
    exists cmd, g1. repeat split; auto. now apply RE_LOGIC_CHECK_sound.
  - intro Hnot.
    destruct (first_keyword line) as [cmd|] eqn:Hfirst; [|reflexivity].
    destruct (RE_LOGIC_CHECK line) as [g1|] eqn:Hre; [|reflexivity].
    elim Hnot. split.
    + exists cmd. now apply first_keyword_some.
    + exists g1. now apply RE_LOGIC_CHECK_sound.
Qed.

Lemma repeat_logic_characterised_witness :
  check_repeat_logic (txt "CMakeLists.txt") 0 (CleansedLines_init [txt "ELSE(foo)"])
                     error world_init
  = error (txt "CMakeLists.txt") 0 (txt "readability/logic")
          (txt "Expression repeated inside else; better to use only ELSE()") world_init.
Proof.
  exact (eq_trans
           (proj1 (@repeat_logic_characterised (txt "CMakeLists.txt") 0
                     (CleansedLines_init [txt "ELSE(foo)"]) error (txt "ELSE(foo)")
                     world_init eq_refl))
           eq_refl).
Defined.

(** * Further properties *)

Section Printing.
Variable P : Finding -> Prop.

Lemma prints_refl (w : World) : prints P w w.
Proof. exists []. rewrite app_nil_r. simpl. repeat split; auto. Qed.

Lemma prints_trans (w1 w2 w3 : World) : prints P w1 w2 -> prints P w2 w3 -> prints P w1 w3.
Proof.
  intros (e & He & HP & Hn & Hs & Hl & Ha & Hq) (e' & He' & HP' & Hn' & Hs' & Hl' & Ha' & Hq').
  exists (e ++ e'). rewrite He', He, app_assoc, length_app.
  repeat split; try congruence; [now apply Forall_app | lia].
Qed.

Lemma printing_ret {A} (a : A) : printing P (ret a).
Proof. intro w. apply prints_refl. Qed.

Lemma printing_raise {A} (e : exn) : printing P (@raise A e).
Proof. intro w. apply prints_refl. Qed.

Lemma printing_bind {A B} (c : M A) (k : A -> M B) :
  printing P c -> (forall a, printing P (k a)) -> printing P (bind c k).
Proof.
  intros Hc Hk w. unfold bind. specialize (Hc w).
  destruct (c w) as [[a|e] w1]; simpl in *; [|assumption].
  eapply prints_trans; [exact Hc | apply Hk].
Qed.

(** The continuation may rely on what the first part returns. *)
Lemma printing_bind_post {A B} (Q : A -> Prop) (c : M A) (k : A -> M B) :
  printing P c ->
  (forall w a w', c w = (Ret a, w') -> Q a) ->
  (forall a, Q a -> printing P (k a)) ->
  printing P (bind c k).
Proof.
  intros Hc HQ Hk w. unfold bind. specialize (Hc w). specialize (HQ w).
  destruct (c w) as [[a|e] w1]; simpl in *; [|assumption].
  eapply prints_trans; [exact Hc | apply Hk; eapply HQ; reflexivity].
Qed.

Lemma printing_error (filename : str) (n : nat) (category message : str) :
  P (mkFinding filename n category message) ->
  printing P (error filename n category message).
Proof.
  intros HP w. rewrite error_run. simpl.
  destruct (should_print_error (filters (lint w)) category); [|apply prints_refl].
  exists [mkFinding filename n category message]. simpl. repeat split; auto.
Qed.

Lemma printing_get_lint : printing P get_lint.
Proof. intro w. apply prints_refl. Qed.

Lemma printing_get_package : printing P get_package.
Proof. intro w. apply prints_refl. Qed.

Lemma printing_get_seen : printing P get_seen.
Proof. intro w. apply prints_refl. Qed.

Lemma printing_put_package (p : PackageState) : printing P (put_package p).
Proof. intro w. exists []. simpl. rewrite app_nil_r. repeat split; auto. Qed.

Lemma printing_put_seen (s : option bool) : printing P (put_seen s).
Proof. intro w. exists []. simpl. rewrite app_nil_r. repeat split; auto. Qed.

Lemma printing_print (s : str) : printing P (print s).
Proof. intro w. exists []. simpl. rewrite app_nil_r. repeat split; auto. Qed.

Lemma printing_put_filters (fs : list str) :
  printing P (fun w => put_lint (with_filters (lint w) fs) w).
Proof. intro w. exists []. simpl. rewrite app_nil_r. repeat split; auto. Qed.

Lemma printing_index (l : list str) (n : nat) : printing P (index l n).
Proof. unfold index. destruct (nth_error l n); [apply printing_ret | apply printing_raise]. Qed.

Lemma printing_try_finally {A} (body : M A) (fin : M unit) :
  printing P body -> printing P fin -> printing P (try_finally body fin).
Proof.
  intros Hb Hf w. unfold try_finally. specialize (Hb w).
  destruct (body w) as [r w1]. simpl in Hb. specialize (Hf w1).
  destruct (fin w1) as [[u|e] w2]; simpl in *; eapply prints_trans; eauto.
Qed.

Lemma printing_try_except (body : M unit) (on_value : str -> M unit) (on_other : M unit) :
  printing P body -> (forall msg, printing P (on_value msg)) -> printing P on_other ->
  printing P (try_except body on_value on_other).
Proof.
  intros Hb Hv Ho w. unfold try_except. specialize (Hb w).
  destruct (body w) as [[a|e] w1]; simpl in *; [assumption|].
  destruct e; eapply prints_trans; try exact Hb; try apply Ho. apply Hv.
Qed.

Lemma printing_for_each {X} (xs : list X) (body : X -> M unit) :
  (forall x, In x xs -> printing P (body x)) -> printing P (for_each xs body).
Proof.
  induction xs as [|x xs IH]; intro H; simpl; [apply printing_ret|].
  apply printing_bind; [apply H; now left|]. intros _. apply IH.
  intros y Hy. apply H. now right.
Qed.

Lemma printing_set_filters (arg : filter_arg) : printing P (set_filters arg).
Proof.
  intro w. unfold set_filters.
  destruct (filter_arg_falsy arg); [apply prints_refl|]. monad_unfold.
  destruct arg; try apply prints_refl;
    match goal with
    | |- context [validate_filters ?c ?f] => destruct (validate_filters c f)
    end; exists []; simpl; rewrite app_nil_r; repeat split; auto.
Qed.

End Printing.

Ltac print_error :=
  apply printing_error; unfold well_formed; simpl;
  split; [reflexivity | split; [reflexivity | lia]].

Ltac print_step :=
  first
    [ apply printing_ret | apply printing_raise
    | match goal with |- printing _ (error _ _ _ _) => print_error end
    | apply printing_get_lint | apply printing_get_package | apply printing_get_seen
    | apply printing_put_package | apply printing_put_seen | apply printing_print
    | apply printing_index | apply printing_set_filters
    | match goal with |- printing _ (bind _ _) => apply printing_bind; [|intro] end
    | apply printing_try_finally
    | apply printing_try_except; [| intro |]
    | match goal with
      | |- printing _ (if ?b then _ else _) => destruct b
      | |- printing _ (match ?x with _ => _ end) => destruct x
      end ].

Section FilePrinting.
Variables (filename : str) (bound : nat).

Lemma printing_repeat_logic_loop (cmds : list str) (n : nat) (line : str) :
  n <= bound ->
  printing (well_formed filename bound) (repeat_logic_loop cmds filename n line error).
Proof. intro Hn. induction cmds as [|cmd cmds IH]; simpl; repeat print_step. exact IH. Qed.

Lemma printing_argument_scan (skip : str) (rest : list str) :
  printing (well_formed filename bound) (argument_scan skip rest).
Proof. induction rest as [|l rest IH]; simpl; repeat print_step. exact IH. Qed.

Lemma printing_check_lint_pragma_first_pass (n : nat) (raw : str) :
  printing (well_formed filename bound) (check_lint_pragma filename n raw None).
Proof. unfold check_lint_pragma; repeat print_step. Qed.

Lemma printing_check_lint_pragma (n : nat) (raw : str) :
  n <= bound ->
  printing (well_formed filename bound) (check_lint_pragma filename n raw (Some error)).
Proof. intro Hn. unfold check_lint_pragma; repeat print_step. Qed.

Lemma printing_process_line (n : nat) (cl : CleansedLines) :
  n <= bound -> printing (well_formed filename bound) (process_line filename n cl error).
Proof.
  intro Hn.
  unfold process_line, check_line_length, check_upper_lower_case, check_style,
    check_indent, check_command_spaces, check_repeat_logic, check_find_package,
    get_command_argument, have_included, have_used_standard_args.
  repeat first [ apply printing_check_lint_pragma; assumption
               | apply printing_repeat_logic_loop; assumption
               | apply printing_argument_scan
               | print_step ].
Qed.

Lemma printing_check_file_name :
  printing (well_formed filename bound) (check_file_name filename error).
Proof. unfold check_file_name. repeat print_step. Qed.

Lemma printing_done : printing (well_formed filename bound) (done filename error).
Proof. unfold done, reset_package_flags. repeat print_step. Qed.
End FilePrinting.

Lemma cleanse_length (ls : list str) : forall quote, length (cleanse ls quote) = length ls.
Proof.
  induction ls as [|l ls IH]; intro quote; simpl; [reflexivity|].
  destruct (clean_comments l quote) as [cleaned quote']. simpl. now rewrite IH.
Qed.

Lemma check_lint_pragma_silent (filename : str) (n : nat) (raw : str) (w : World) :
  fst (check_lint_pragma filename n raw None w) = Ret tt
  /\ findings (snd (check_lint_pragma filename n raw None w)) = findings w
  /\ errors (lint (snd (check_lint_pragma filename n raw None w))) = errors (lint w).
Proof.
  unfold check_lint_pragma.
  destruct (PyStr.startswith raw (txt "# lint_cmake: ")); [|now repeat split].
  unfold try_except, set_filters.
  destruct (filter_arg_falsy _); [now repeat split|]. monad_unfold.
  match goal with
  | |- context [validate_filters ?c ?f] => destruct (validate_filters c f) as [[]|]
  end; now repeat split.
Qed.

Lemma read_lines_cons (filename line : str) (contents lines0 : list str) (have_cr : bool) :
  read_lines filename (line :: contents) lines0 have_cr
  = (check_lint_pragma filename (length (lines0 ++ [chomp line]) - 1) (chomp line) None ;;
     read_lines filename contents (lines0 ++ [chomp line]) (have_cr || has_cr line)).
Proof.
  cbn [read_lines]. unfold chomp, has_cr.
  destruct (PyStr.endswith (PyStr.rstrip_by (Ascii.eqb PyStr.newline) line) [PyStr.cr]).
  - now rewrite orb_true_r.
  - now rewrite orb_false_r.
Qed.

Lemma read_lines_run (filename : str) (contents : list str) :
  forall lines0 have_cr w,
    fst (read_lines filename contents lines0 have_cr w)
    = Ret (lines0 ++ map chomp contents, have_cr || existsb has_cr contents)
    /\ findings (snd (read_lines filename contents lines0 have_cr w)) = findings w
    /\ errors (lint (snd (read_lines filename contents lines0 have_cr w)))
       = errors (lint w).
Proof.
  induction contents as [|line contents IH]; intros lines0 have_cr w.
  - simpl. rewrite app_nil_r, orb_false_r. now repeat split.
  - rewrite read_lines_cons. unfold bind.
    destruct (check_lint_pragma_silent filename (length (lines0 ++ [chomp line]) - 1)
                (chomp line) w) as (Hr & Hf & He).
    destruct (check_lint_pragma filename (length (lines0 ++ [chomp line]) - 1)
                (chomp line) None w) as [r0 w1].
    simpl in Hr, Hf, He. subst r0.
    destruct (IH (lines0 ++ [chomp line]) (have_cr || has_cr line) w1) as (Hr' & Hf' & He').
    rewrite <- app_assoc, <- orb_assoc in Hr'. simpl in Hr'.
    repeat split; [exact Hr' | congruence | congruence].
Qed.

Lemma printing_read_lines (filename : str) (bound : nat) (contents : list str) :
  forall lines0 have_cr,
    printing (well_formed filename bound) (read_lines filename contents lines0 have_cr).
Proof.
  induction contents as [|line contents IH]; intros lines0 have_cr.
  - apply printing_ret.
  - rewrite read_lines_cons. apply printing_bind.
    + apply printing_check_lint_pragma_first_pass.
    + intros _. apply IH.
Qed.

Lemma printing_restore_filters (P : Finding -> Prop) (fs : list str) :
  printing P (l' <- get_lint ;; put_lint (with_filters l' fs)).
Proof. intro w. exists []. simpl. rewrite app_nil_r. repeat split; auto. Qed.

Lemma printing_process_file_body (linesep filename : str) (contents : list str) :
  printing (well_formed filename (length contents + 1))
           (_process_file linesep filename contents).
Proof.
  unfold _process_file. destruct (is_valid_file filename); simpl; [|apply printing_print].
  apply printing_bind; [apply printing_put_package|]. intros _.
  apply printing_bind_post
    with (Q := fun r : list str * bool => length (fst r) = length contents + 1).
  - apply printing_read_lines.
  - intros w r w' Hrun.
    pose proof (proj1 (read_lines_run filename contents [txt "# Lines start at 1"] false w))
      as Hr.
    rewrite Hrun in Hr. simpl in Hr. injection Hr as ->. simpl.
    rewrite length_map. lia.
  - intros [ls have_cr] Hlen. simpl in Hlen.
    apply printing_bind; [apply printing_check_file_name|]. intros _.
    apply printing_bind; [repeat print_step|]. intros _.
    apply printing_bind; [apply printing_put_seen|]. intros _.
    apply printing_bind; [|intros _; apply printing_done].
    unfold process_lines, line_numbers. apply printing_for_each.
    intros n Hn. apply in_seq in Hn. apply printing_process_line.
    simpl in Hn. rewrite cleanse_length, length_app in Hn. simpl in Hn. lia.
Qed.

Lemma printing_process_file (linesep filename : str) (contents : list str) :
  printing (well_formed filename (length contents + 1))
           (process_file linesep filename contents).
Proof.
  unfold process_file. apply printing_bind; [apply printing_get_lint|]. intro l.
  apply printing_try_finally;
    [apply printing_process_file_body | apply printing_restore_filters].
Qed.

(** X1.  Every run of [process_file], however it ends, only appends findings,
    and the error count grows by exactly their number; each of them names
    the file processed, has a category of the closed set and a line number
    between 0 and the number of lines of the file plus one (the closing
    sentinel). *)
Theorem process_file_accounting (linesep filename : str) (contents : list str) (w : World) :
  exists extra,
    findings (snd (process_file linesep filename contents w)) = findings w ++ extra
    /\ errors (lint (snd (process_file linesep filename contents w)))
       = errors (lint w) + length extra
    /\ Forall (fun f => f_file f = filename
                        /\ known_category (f_category f) = true
                        /\ f_line f <= length contents + 1) extra.
Proof.
  destruct (printing_process_file linesep filename contents w)
    as (extra & He & HP & Hn & _).
  exists extra. auto.
Qed.

(** X2.  Every run of [process_file], however it ends (an exception included),
    leaves the active filters as they were before the file, whatever its
    pragmas added, and does not touch the indent width, the line length, the
    allowed categories nor the quiet flag. *)
Theorem process_file_restores_configuration (linesep filename : str)
  (contents : list str) (w : World) :
  let w' := snd (process_file linesep filename contents w) in
  filters (lint w') = filters (lint w)
  /\ spaces (lint w') = spaces (lint w)
  /\ linelength (lint w') = linelength (lint w)
  /\ allowed_categories (lint w') = allowed_categories (lint w)
  /\ quiet (lint w') = quiet (lint w).
Proof.
  split.
  - unfold process_file. monad_unfold.
    now destruct (_process_file linesep filename contents w) as [r w1].
  - destruct (printing_process_file linesep filename contents w)
      as (extra & _ & _ & _ & Hs & Hl & Ha & Hq). auto.
Qed.


(** ** Cleansed lines *)

Lemma rstrip_by_prefix (p : ascii -> bool) (s : str) :
  exists t, s = PyStr.rstrip_by p s ++ t /\ forallb p t = true.
Proof.
  induction s as [|c s (t & Hs & Ht)]; simpl; [now exists []|].
  destruct (PyStr.rstrip_by p s) as [|d r] eqn:Hr.
  - destruct (p c) eqn:Hc.
    + exists (c :: s). split; [reflexivity|]. simpl in Hs. subst t.
      simpl. now rewrite Hc.
    + exists t. simpl in Hs. subst t. auto.
  - exists t. simpl in *. split; [now f_equal | assumption].
Qed.

Lemma rstrip_by_fixed (p : ascii -> bool) (s : str) :
  PyStr.rstrip_by p (PyStr.rstrip_by p s) = PyStr.rstrip_by p s.
Proof.
  induction s as [|c s IH]; simpl; [reflexivity|].
  destruct (PyStr.rstrip_by p s) as [|d r] eqn:Hr.
  - destruct (p c) eqn:Hc; simpl; [reflexivity | now rewrite Hc].
  - simpl in *. now rewrite IH.
Qed.

Lemma contains_app (c : ascii) (a b : str) :
  PyStr.contains c (a ++ b) = PyStr.contains c a || PyStr.contains c b.
Proof. unfold PyStr.contains. apply existsb_app. Qed.

Lemma contains_snoc (c d : ascii) (s : str) :
  PyStr.contains c (s ++ [d]) = PyStr.contains c s || Ascii.eqb c d.
Proof.
  unfold PyStr.contains. rewrite existsb_app. cbn [existsb]. now rewrite orb_false_r.
Qed.

Lemma clean_scan_no_hash (line : str) :
  forall quote prev prior,
    PyStr.contains "#" prior = false ->
    PyStr.contains "#" (fst (clean_scan line quote prev prior)) = false.
Proof.
  induction line as [|c line IH]; intros quote prev prior Hp; cbn [clean_scan fst];
    [assumption|].
  destruct (Ascii.eqb_spec c PyStr.dquote) as [->|Hq].
  - assert (Hsnoc : PyStr.contains "#" (prior ++ [PyStr.dquote]) = false)
      by (rewrite contains_snoc, Hp; reflexivity).
    destruct prev as [p|]; [destruct (Ascii.eqb p PyStr.backslash)|]; now apply IH.
  - destruct (Ascii.eqb_spec c "#") as [->|Hh]; cbn [andb].
    + destruct quote; cbn [negb fst]; [now apply IH | assumption].
    + destruct quote; cbn [negb]; apply IH; [assumption|].
      rewrite contains_snoc, Hp. cbn [orb].
      apply Ascii.eqb_neq. congruence.
Qed.

Lemma clean_comments_no_hash (line : str) (quote : bool) :
  PyStr.contains "#" (fst (clean_comments line quote)) = false.
Proof.
  unfold clean_comments.
  destruct (PyStr.contains "#" line) eqn:Hh; simpl.
  - pose proof (clean_scan_no_hash line quote None [] eq_refl) as Hs.
    destruct (clean_scan line quote None []) as [prior q]. simpl in *.
    destruct (rstrip_by_prefix PyStr.isspace prior) as (t & Hp & _).
    rewrite Hp, contains_app in Hs. apply orb_false_iff in Hs. apply Hs.
  - destruct (negb (PyStr.contains PyStr.dquote line)).
    + destruct quote; [reflexivity | exact Hh].
    + pose proof (clean_scan_no_hash line quote None [] eq_refl) as Hs.
      destruct (clean_scan line quote None []) as [prior q]. simpl in *.
      destruct (rstrip_by_prefix PyStr.isspace prior) as (t & Hp & _).
      rewrite Hp, contains_app in Hs. apply orb_false_iff in Hs. apply Hs.
Qed.

(** X3.  The cleansed line never holds a hash, whatever the raw line and the
    carried quote state. *)
Theorem cleansed_line_has_no_hash (line : str) (quote : bool) :
  PyStr.contains "#" (fst (clean_comments line quote)) = false.
Proof. apply clean_comments_no_hash. Qed.

(** X4.  A line read inside a quote carried from the line before, and
    holding no double quote itself, is cleansed to the empty string and the
    quote stays open, also when the line holds a hash. *)
Theorem line_inside_carried_quote_is_erased (line : str) :
  quote_free line = true ->
  clean_comments line true = ([], true).
Proof.
  intro Hq. unfold clean_comments.
  destruct (negb (PyStr.contains "#" line) && negb (PyStr.contains PyStr.dquote line));
    [reflexivity|].
  rewrite <- (app_nil_r line), clean_scan_quoted by assumption. reflexivity.
Qed.

Lemma line_inside_carried_quote_is_erased_witness :
  clean_comments (txt "  more text # not a comment") true = ([], true).
Proof.
  exact (line_inside_carried_quote_is_erased (txt "  more text # not a comment") eq_refl).
Defined.

(** X5.  A line that holds a hash or a double quote is cleansed to a text
    without trailing white space, while a line with neither, read outside a
    quote, is kept as it is, trailing white space included. *)
Theorem cleansed_line_trimming (line : str) (quote : bool) :
  (PyStr.contains "#" line || PyStr.contains PyStr.dquote line = true ->
   PyStr.rstrip (fst (clean_comments line quote)) = fst (clean_comments line quote))
  /\ (PyStr.contains "#" line || PyStr.contains PyStr.dquote line = false ->
      clean_comments line false = (line, false)).
Proof.
  unfold clean_comments. split; intro H.
  - apply orb_true_iff in H.
    assert (Hc : negb (PyStr.contains "#" line) && negb (PyStr.contains PyStr.dquote line)
                 = false) by (destruct H as [-> | ->]; simpl; auto using andb_false_r).
    rewrite Hc. destruct (clean_scan line quote None []) as [prior q]. simpl.
    apply rstrip_by_fixed.
  - apply orb_false_iff in H as [-> ->]. reflexivity.
Qed.

Lemma cleansed_line_trimming_witness :
  PyStr.rstrip (fst (clean_comments (txt "set(X 1)   # c") false))
  = fst (clean_comments (txt "set(X 1)   # c") false)
  /\ clean_comments (txt "set(X 1)   ") false = (txt "set(X 1)   ", false).
Proof.
  split.
  - exact (proj1 (cleansed_line_trimming (txt "set(X 1)   # c") false) eq_refl).
  - exact (proj2 (cleansed_line_trimming (txt "set(X 1)   ") false) eq_refl).
Defined.

Lemma clean_comments_shorter (line : str) (quote : bool) :
  length (fst (clean_comments line quote)) <= length line.
Proof.
  unfold clean_comments.
  destruct (negb (PyStr.contains "#" line) && negb (PyStr.contains PyStr.dquote line)).
  - destruct quote; simpl; lia.
  - pose proof (clean_scan_length line quote None []) as Hlen.
    destruct (clean_scan line quote None []) as [prior q]. simpl in *.
    pose proof (rstrip_by_length PyStr.isspace prior). unfold PyStr.rstrip. lia.
Qed.

Lemma cleanse_bounded (ls : list str) :
  forall quote, Forall2 (fun cleaned raw => length cleaned <= length raw) (cleanse ls quote) ls.
Proof.
  induction ls as [|l ls IH]; intro quote; simpl; [constructor|].
  pose proof (clean_comments_shorter l quote) as Hlen.
  destruct (clean_comments l quote) as [cleaned quote']. constructor; auto.
Qed.

Lemma cleanse_no_hash (ls : list str) :
  forall quote,
    Forall (fun cleaned => PyStr.contains "#" cleaned = false) (cleanse ls quote).
Proof.
  induction ls as [|l ls IH]; intro quote; simpl; [constructor|].
  pose proof (clean_comments_no_hash l quote) as Hh.
  destruct (clean_comments l quote) as [cleaned quote']. constructor; auto.
Qed.

(** X6.  A [CleansedLines] object keeps the raw lines it was given and has
    one cleansed line per raw line, each no longer than its raw line, none
    holding a hash; [line_numbers] ranges over exactly their indices. *)
Theorem cleansed_lines_invariant (ls : list str) :
  raw_lines (CleansedLines_init ls) = ls
  /\ length (lines (CleansedLines_init ls)) = length ls
  /\ Forall2 (fun cleaned raw => length cleaned <= length raw)
             (lines (CleansedLines_init ls)) ls
  /\ Forall (fun cleaned => PyStr.contains "#" cleaned = false)
            (lines (CleansedLines_init ls))
  /\ line_numbers (CleansedLines_init ls) = seq 0 (length ls).
Proof.
  unfold line_numbers. simpl. rewrite cleanse_length.
  split; [reflexivity|]. split; [reflexivity|]. split; [apply cleanse_bounded|].
  split; [apply cleanse_no_hash | reflexivity].
Qed.

(** ** Filters *)

Lemma startswith_minus_plus (f : str) :
  PyStr.startswith f (txt "-") = true -> PyStr.startswith f (txt "+") = false.
Proof.
  destruct f as [|c f]; [discriminate|].
  change (PyStr.startswith (c :: f) (txt "-")) with (Ascii.eqb "-" c && true).
  change (PyStr.startswith (c :: f) (txt "+")) with (Ascii.eqb "+" c && true).
  rewrite !andb_true_r. intro H. apply Ascii.eqb_eq in H. now subst c.
Qed.

Lemma should_print_error_snoc (fs : list str) (f category : str) :
  should_print_error (fs ++ [f]) category
  = if filter_matches category f
    then negb (PyStr.startswith f (txt "-"))
    else should_print_error fs category.
Proof.
  unfold should_print_error, filter_matches. rewrite fold_left_app. cbn [fold_left].
  destruct (PyStr.startswith f (txt "-")) eqn:Hm.
  - rewrite (startswith_minus_plus _ Hm). cbn [orb andb negb].
    now destruct (PyStr.startswith category (skipn 1 f)).
  - cbn [orb andb negb].
    destruct (PyStr.startswith f (txt "+")); cbn [andb]; [|reflexivity].
    now destruct (PyStr.startswith category (skipn 1 f)).
Qed.

(** X7.  The last filter of the list that matches the category decides: a
    finding of [category] is printed unless that filter is a minus filter;
    with no matching filter it is printed. *)
Theorem should_print_error_last_match_wins (fs : list str) (category : str) :
  should_print_error fs category
  = match find (filter_matches category) (rev fs) with
    | Some f => negb (PyStr.startswith f (txt "-"))
    | None => true
    end.
Proof.
  induction fs as [|f fs IH] using rev_ind; [reflexivity|].
  rewrite should_print_error_snoc, rev_app_distr. cbn [rev app find].
  now destruct (filter_matches category f).
Qed.

Lemma filter_allowed_exists (cats : list str) (f : str) :
  filter_allowed cats f = existsb (fun c => PyStr.startswith c (skipn 1 f)) cats.
Proof.
  unfold filter_allowed.
  assert (H : forall acc,
             fold_left (fun allowed c =>
                          if PyStr.startswith c (skipn 1 f) then true else allowed)
                       cats acc
             = acc || existsb (fun c => PyStr.startswith c (skipn 1 f)) cats).
  { induction cats as [|c cats IH]; intro acc; cbn [fold_left existsb];
      [now rewrite orb_false_r|].
    rewrite IH. now destruct (PyStr.startswith c (skipn 1 f)), acc. }
  apply H.
Qed.

Lemma validate_filters_valid (cats fs : list str) :
  has_invalid_entry cats fs = false -> validate_filters cats fs = None.
Proof.
  unfold has_invalid_entry, filter_entry_ok.
  induction fs as [|f fs IH]; cbn [existsb validate_filters]; intro H; [reflexivity|].
  apply orb_false_iff in H as [Hf Hfs]. apply negb_false_iff in Hf.
  apply andb_true_iff in Hf as [-> ->]. cbn [negb]. now apply IH.
Qed.

(** X8.  A valid argument extends the active filters and returns; every active
    filter then is a sign followed by a prefix of an allowed category.  An
    empty argument ([None], the empty list or string) changes nothing. *)
Theorem set_filters_accepts_valid_entries (arg : filter_arg) (w : World) :
  (filter_arg_falsy arg = true -> set_filters arg w = (Ret tt, w))
  /\ (filter_arg_falsy arg = false ->
      arg <> FOther ->
      has_invalid_entry (allowed_categories (lint w))
                        (filters (lint w) ++ entries_of arg) = false ->
      set_filters arg w
      = (Ret tt, set_world_filters w (filters (lint w) ++ entries_of arg))
      /\ Forall (fun f => exists c, In c (allowed_categories (lint w))
                                    /\ filter_matches c f = true)
                (filters (lint w) ++ entries_of arg)).
Proof.
  split.
  - intro H. unfold set_filters. now rewrite H.
  - intros Hfalsy Hother Hvalid. split.
    + pose proof (validate_filters_valid _ _ Hvalid) as Hv.
      unfold set_filters, set_world_filters. rewrite Hfalsy.
      destruct arg as [|fs|s|]; try discriminate Hfalsy; [| |now elim Hother];
        monad_unfold; simpl in *; now rewrite Hv.
    + apply Forall_forall. intros f Hin.
      unfold has_invalid_entry in Hvalid.
      assert (Hok : filter_entry_ok (allowed_categories (lint w)) f = true).
      { destruct (filter_entry_ok (allowed_categories (lint w)) f) eqn:Hok; [reflexivity|].
        assert (existsb (fun f => negb (filter_entry_ok (allowed_categories (lint w)) f))
                        (filters (lint w) ++ entries_of arg) = true)
          by (apply existsb_exists; exists f; now rewrite Hok).
        congruence. }
      unfold filter_entry_ok in Hok. apply andb_true_iff in Hok as [Hsign Hallowed].
      rewrite filter_allowed_exists in Hallowed.
      apply existsb_exists in Hallowed as (c & Hc & Hpre).
      exists c. split; [assumption|]. unfold filter_matches. now rewrite Hsign, Hpre.
Qed.

Lemma set_filters_accepts_valid_entries_witness :
  set_filters (FStr (txt "-whitespace, +whitespace/tabs")) world_init
  = (Ret tt, set_world_filters world_init [txt "-whitespace"; txt "+whitespace/tabs"]).
Proof.
  exact (proj1 (proj2 (set_filters_accepts_valid_entries
                         (FStr (txt "-whitespace, +whitespace/tabs")) world_init)
                      eq_refl ltac:(discriminate) eq_refl)).
Defined.

Lemma has_invalid_entry_app_l (cats old new : list str) :
  has_invalid_entry cats old = true ->
  has_invalid_entry cats (old ++ new) = true.
Proof.
  unfold has_invalid_entry. intro H. rewrite existsb_app, H. reflexivity.
Qed.

(** X9.  The validation runs over all active filters, so an invalid entry left
    in the list makes every later non-empty call raise [ValueError], also
    with valid new entries, and these are appended all the same.  So, after
    a malformed pragma, every later pragma with a non-empty body is reported
    as a syntax finding. *)
Theorem set_filters_error_is_sticky :
  (forall arg w,
      has_invalid_entry (allowed_categories (lint w)) (filters (lint w)) = true ->
      filter_arg_falsy arg = false ->
      exists msg,
        fst (set_filters arg w) = Raise (ValueError msg)
        /\ (arg <> FOther ->
            snd (set_filters arg w)
            = set_world_filters w (filters (lint w) ++ entries_of arg)))
  /\ (forall filename linenumber c rest errors w,
         has_invalid_entry (allowed_categories (lint w)) (filters (lint w)) = true ->
         exists msg,
           check_lint_pragma filename linenumber (txt "# lint_cmake: " ++ c :: rest)
                             (Some errors) w
           = errors filename linenumber (txt "syntax") msg
                    (set_world_filters w (filters (lint w) ++ split_filters (c :: rest)))).
Proof.
  assert (Hmain : forall arg w,
      has_invalid_entry (allowed_categories (lint w)) (filters (lint w)) = true ->
      filter_arg_falsy arg = false ->
      exists msg,
        fst (set_filters arg w) = Raise (ValueError msg)
        /\ (arg <> FOther ->
            snd (set_filters arg w)
            = set_world_filters w (filters (lint w) ++ entries_of arg))).
  { intros arg w Hinv Hfalsy.
    destruct (validate_filters_invalid _ _
                (has_invalid_entry_app_l _ _ (entries_of arg) Hinv)) as [msg Hmsg].
    unfold set_filters, set_world_filters. rewrite Hfalsy.
    destruct arg as [|fs|s|]; try discriminate Hfalsy; monad_unfold; simpl in *.
    - rewrite Hmsg. exists msg. now split.
    - rewrite Hmsg. exists msg. now split.
    - eexists. split; [reflexivity|]. intro H. now elim H. }
  split; [exact Hmain|].
  intros filename linenumber c rest errors w Hinv.
  destruct (Hmain (FStr (c :: rest)) w Hinv eq_refl) as (msg & Hfst & Hsnd).
  specialize (Hsnd ltac:(discriminate)). exists msg.
  unfold check_lint_pragma. rewrite startswith_app.
  unfold PyStr.slice_from. rewrite skipn_length_app. unfold try_except.
  destruct (set_filters (FStr (c :: rest)) w) as [r w1]. simpl in *. now subst.
Qed.

Lemma set_filters_error_is_sticky_witness :
  exists msg,
    fst (set_filters (FStr (txt "-linelength"))
                     (set_world_filters world_init [txt "bogus"]))
    = Raise (ValueError msg).
Proof.
  destruct (proj1 set_filters_error_is_sticky (FStr (txt "-linelength"))
                  (set_world_filters world_init [txt "bogus"]) eq_refl eq_refl)
    as [msg [H _]].
  exists msg. exact H.
Defined.

(** ** Command lines *)

Lemma span_unique (p : ascii -> bool) (a : str) :
  forall a' t t',
    forallb p a = true -> forallb p a' = true ->
    stops p t = true -> stops p t' = true ->
    a ++ t = a' ++ t' ->
    a = a' /\ t = t'.
Proof.
  induction a as [|x a IH]; intros a' t t' Ha Ha' Ht Ht' He.
  - destruct a' as [|y a']; [auto|]. simpl in *. subst t.
    apply andb_true_iff in Ha' as [Hy _]. simpl in Ht. now rewrite Hy in Ht.
  - destruct a' as [|y a']; simpl in *.
    + subst t'. apply andb_true_iff in Ha as [Hx _]. simpl in Ht'. now rewrite Hx in Ht'.
    + injection He as -> He.
      apply andb_true_iff in Ha as [_ Ha]. apply andb_true_iff in Ha' as [_ Ha'].
      destruct (IH a' t t' Ha Ha' Ht Ht' He) as [-> ->]. auto.
Qed.

Lemma word_not_space (c : ascii) : PyStr.is_word c = true -> PyStr.isspace c = false.
Proof.
  destruct c as [[] [] [] [] [] [] [] []]; vm_compute; intro H;
    first [reflexivity | discriminate H].
Qed.

Lemma space_not_word (c : ascii) : PyStr.isspace c = true -> PyStr.is_word c = false.
Proof.
  intro H. destruct (PyStr.is_word c) eqn:Hw; [|reflexivity].
  apply word_not_space in Hw. congruence.
Qed.

Lemma star_found {A} (p : ascii -> bool) (s : str) (k : str -> str -> option A) :
  k [] s <> None -> Re.star p s k <> None.
Proof. intro H. exact (@star_complete A p [] s k eq_refl H). Qed.

Lemma RE_COMMAND_sound (line g1 g2 : str) :
  RE_COMMAND line = Some (g1, g2) ->
  exists ws rest,
    line = command_line ws g1 g2 rest
    /\ forallb PyStr.isspace ws = true
    /\ g1 <> [] /\ forallb PyStr.is_word g1 = true
    /\ forallb PyStr.isspace g2 = true.
Proof.
  unfold RE_COMMAND. intro H.
  apply star_sound in H as (m1 & r1 & -> & Hm1 & H).
  apply plus_sound in H as (m2 & r2 & -> & Hn2 & Hm2 & H).
  apply star_sound in H as (m3 & r3 & -> & Hm3 & H).
  apply chr_sound in H as (r4 & -> & H). injection H as <- <-.
  exists m1, r4. repeat split; auto.
Qed.

Lemma stops_word_tail (ws2 rest : str) :
  forallb PyStr.isspace ws2 = true ->
  stops PyStr.is_word (ws2 ++ "("%char :: rest) = true.
Proof.
  destruct ws2 as [|c ws2]; [reflexivity|]. simpl. intro H.
  apply andb_true_iff in H as [Hc _]. now rewrite (space_not_word _ Hc).
Qed.

Lemma stops_space_word (cmd t : str) :
  cmd <> [] -> forallb PyStr.is_word cmd = true ->
  stops PyStr.isspace (cmd ++ t) = true.
Proof.
  destruct cmd as [|c cmd]; [congruence|]. simpl. intros _ H.
  apply andb_true_iff in H as [Hc _]. now rewrite (word_not_space _ Hc).
Qed.

(** X10.  [_RE_COMMAND] matches exactly the lines that are, after optional white
    space, a word, optional white space and an opening parenthesis; its
    groups are that word and that white space, so [get_command] is the word. *)
Theorem command_line_recognised :
  (forall ws cmd ws2 rest,
      forallb PyStr.isspace ws = true ->
      cmd <> [] ->
      forallb PyStr.is_word cmd = true ->
      forallb PyStr.isspace ws2 = true ->
      contains_command (command_line ws cmd ws2 rest) = Some (cmd, ws2)
      /\ get_command (command_line ws cmd ws2 rest) = cmd)
  /\ (forall line cmd ws2,
         contains_command line = Some (cmd, ws2) ->
         exists ws rest,
           line = command_line ws cmd ws2 rest
           /\ forallb PyStr.isspace ws = true
           /\ cmd <> [] /\ forallb PyStr.is_word cmd = true
           /\ forallb PyStr.isspace ws2 = true)
  /\ (forall line, contains_command line = None -> get_command line = []).
Proof.
  split; [|split].
  - intros ws cmd ws2 rest Hws Hne Hcmd Hws2.
    assert (Hsome : RE_COMMAND (command_line ws cmd ws2 rest) <> None).
    { unfold RE_COMMAND, command_line.
      apply star_complete; auto. apply plus_complete; auto.
      apply star_complete; auto. apply chr_complete. discriminate. }
    assert (Hm : RE_COMMAND (command_line ws cmd ws2 rest) = Some (cmd, ws2)).
    { destruct (RE_COMMAND (command_line ws cmd ws2 rest)) as [[g1 g2]|] eqn:Hre;
        [|now elim Hsome].
      apply RE_COMMAND_sound in Hre
        as (ws' & rest' & Heq & Hws' & Hne' & Hg1 & Hg2).
      unfold command_line in Heq.
      apply (span_unique PyStr.isspace) in Heq as [-> Heq];
        auto using stops_space_word.
      apply (span_unique PyStr.is_word) in Heq as [-> Heq];
        auto using stops_word_tail.
      apply (span_unique PyStr.isspace) in Heq as [-> _]; auto. }
    unfold contains_command, get_command. now rewrite Hm.
  - intros line cmd ws2 H. now apply RE_COMMAND_sound.
  - intros line H. unfold contains_command in H. unfold get_command. now rewrite H.
Qed.

Lemma command_line_recognised_witness :
  get_command (command_line (txt "  ") (txt "set") (txt " ") (txt "X 1)")) = txt "set".
Proof.
  exact (proj2 (proj1 command_line_recognised (txt "  ") (txt "set") (txt " ") (txt "X 1)")
                      eq_refl ltac:(discriminate) eq_refl eq_refl)).
Defined.

(** The second pattern matches every line the first one matches. *)
Lemma RE_COMMAND_START_SPACES_matches (line : str) (m : str * str) :
  RE_COMMAND line = Some m -> RE_COMMAND_START_SPACES line <> None.
Proof.
  destruct m as [g1 g2]. intro H.
  apply RE_COMMAND_sound in H as (ws & rest & -> & Hws & Hne & Hg1 & Hg2).
  unfold RE_COMMAND_START_SPACES, command_line.
  apply star_complete; auto. apply plus_complete; auto.
  apply star_complete; auto. apply chr_complete.
  apply star_found. discriminate.
Qed.

Lemma contains_split (c : ascii) (s : str) :
  PyStr.contains c s = true -> exists a b, s = a ++ c :: b.
Proof.
  unfold PyStr.contains. intro H. apply existsb_exists in H as (x & Hin & Hx).
  apply Ascii.eqb_eq in Hx. subst x. now apply in_split.
Qed.

Lemma RE_COMMAND_END_SPACES_none (line : str) :
  RE_COMMAND_END_SPACES line = None <-> PyStr.contains ")" line = false.
Proof.
  unfold RE_COMMAND_END_SPACES. split.
  - intro H. destruct (PyStr.contains ")" line) eqn:Hc; [|reflexivity].
    apply contains_split in Hc as (a & b & ->).
    exfalso. revert H. apply search_complete. apply star_found.
    simpl. discriminate.
  - intro Hc.
    destruct (Re.search _ line) as [g|] eqn:Hs; [|reflexivity].
    apply search_sound in Hs as (pre & suf & -> & Hs).
    apply star_sound in Hs as (m & r & -> & _ & Hs).
    apply chr_sound in Hs as (r' & -> & _).
    rewrite !contains_app in Hc. rewrite contains_cons in Hc.
    now rewrite !orb_true_r in Hc.
Qed.

Lemma find_command_end_open (rest : list str) :
  forall line n,
    PyStr.contains ")" line = false ->
    forallb (fun l => negb (PyStr.contains ")" l)) rest = true ->
    exists last, find_command_end line rest n = (n + 1 + length rest, last, None).
Proof.
  induction rest as [|l rest IH]; intros line n Hline Hrest; cbn [find_command_end];
    rewrite (proj2 (RE_COMMAND_END_SPACES_none line) Hline).
  - exists line. simpl. now rewrite Nat.add_0_r.
  - simpl in Hrest. apply andb_true_iff in Hrest as [Hl Hrest].
    apply negb_true_iff in Hl.
    destruct (IH l (n + 1) Hl Hrest) as [last Hlast]. exists last.
    rewrite Hlast. simpl. f_equal. f_equal. lia.
Qed.

(** X11.  An unterminated command: when the line starts a command and no cleansed
    line from it to the end of the file holds a closing parenthesis, the
    check reports the extra spaces, if any, then the syntax finding at the
    line of the command, and no whitespace/mismatch. *)
Theorem unterminated_command_is_a_syntax_finding (filename : str) (n : nat)
  (cl : CleansedLines) (errors : Reporter) (line cmd ws2 : str) (w : World) :
  nth_error (lines cl) n = Some line ->
  contains_command line = Some (cmd, ws2) ->
  forallb (fun l => negb (PyStr.contains ")" l)) (skipn n (lines cl)) = true ->
  check_command_spaces filename n cl errors w
  = ((match ws2 with
      | [] => ret tt
      | _ => errors filename n (txt "whitespace/extra")
                    (txt "Extra spaces between '" ++ cmd ++ txt "' and its ()")
      end ;;
      errors filename n (txt "syntax") (txt "Unable to find the end of this command")) w).
Proof.
  intros Hline Hcmd Hopen.
  assert (Hsplit : skipn n (lines cl) = line :: skipn (S n) (lines cl)).
  { clear Hcmd Hopen. revert n Hline. generalize (lines cl) as ls.
    induction ls as [|l ls IH]; intros [|n] H; try discriminate H.
    - now injection H as ->.
    - simpl in *. now apply IH. }
  rewrite Hsplit in Hopen. cbn [forallb] in Hopen.
  apply andb_true_iff in Hopen as [Hl Hrest]. apply negb_true_iff in Hl.
  destruct (@find_command_end_open (skipn (S n) (lines cl)) line n Hl Hrest) as [last Hend].
  assert (Hlen : n + 1 + length (skipn (S n) (lines cl)) = length (lines cl)).
  { rewrite length_skipn.
    assert (n < length (lines cl)) by (apply nth_error_Some; congruence). lia. }
  unfold check_command_spaces, index. rewrite Hline. monad_unfold.
  rewrite Hcmd, Hend, Hlen, Nat.eqb_refl.
  pose proof (@RE_COMMAND_START_SPACES_matches line (cmd, ws2) Hcmd) as Hstart.
  destruct (RE_COMMAND_START_SPACES line) as [g|]; [|now elim Hstart].
  cbn [andb].
  destruct ws2 as [|c ws2].
  - destruct (errors filename n (txt "syntax")
                     (txt "Unable to find the end of this command") w) as [[[]|e] w1];
      reflexivity.
  - destruct (errors filename n (txt "whitespace/extra") _ w) as [[[]|e] w1];
      [|reflexivity].
    destruct (errors filename n (txt "syntax")
                     (txt "Unable to find the end of this command") w1) as [[[]|e] w2];
      reflexivity.
Qed.

Lemma unterminated_command_is_a_syntax_finding_witness :
  check_command_spaces (txt "CMakeLists.txt") 0
    (CleansedLines_init [txt "set (X"; txt "  1"]) error world_init
  = ((error (txt "CMakeLists.txt") 0 (txt "whitespace/extra")
            (txt "Extra spaces between '" ++ txt "set" ++ txt "' and its ()") ;;
      error (txt "CMakeLists.txt") 0 (txt "syntax")
            (txt "Unable to find the end of this command")) world_init).
Proof.
  exact (@unterminated_command_is_a_syntax_finding (txt "CMakeLists.txt") 0
           (CleansedLines_init [txt "set (X"; txt "  1"]) error
           (txt "set (X") (txt "set") (txt " ") world_init eq_refl eq_refl eq_refl).
Defined.

(** ** Indentation *)

Lemma get_initial_spaces_repeat (k : nat) (rest : str) :
  stops (fun c => Ascii.eqb c " ") rest = true ->
  get_initial_spaces (repeat " "%char k ++ rest) = k.
Proof.
  intro Hrest. induction k as [|k IH]; cbn [repeat app get_initial_spaces].
  - destruct rest as [|c rest]; [reflexivity|]. cbn [stops get_initial_spaces] in *.
    now destruct (Ascii.eqb c " ").
  - now rewrite Ascii.eqb_refl, IH.
Qed.

(** X12.  The indentation check on a raw line made of [k] spaces followed by a
    text that does not start with a space: with indent width 0 it raises
    [ZeroDivisionError]; otherwise it reports whitespace/indent exactly when
    [k] is not a multiple of the width. *)
Theorem check_indent_behaviour (filename : str) (n : nat) (cl : CleansedLines)
  (errors : Reporter) (k : nat) (rest : str) (w : World) :
  nth_error (raw_lines cl) n = Some (repeat " "%char k ++ rest) ->
  stops (fun c => Ascii.eqb c " ") rest = true ->
  check_indent filename n cl errors w
  = if spaces (lint w) =? 0 then (Raise ZeroDivisionError, w)
    else if k mod spaces (lint w) =? 0 then (Ret tt, w)
    else errors filename n (txt "whitespace/indent")
                (txt "Weird indentation; use " ++ PyStr.fmt_d (spaces (lint w))
                 ++ txt " spaces") w.
Proof.
  intros Hline Hrest. unfold check_indent, index. rewrite Hline. monad_unfold.
  rewrite (get_initial_spaces_repeat k rest Hrest).
  destruct (spaces (lint w) =? 0); [reflexivity|].
  now destruct (k mod spaces (lint w) =? 0).
Qed.

Lemma check_indent_behaviour_witness :
  check_indent (txt "CMakeLists.txt") 0 (CleansedLines_init [txt "   set(X 1)"])
               error world_init
  = error (txt "CMakeLists.txt") 0 (txt "whitespace/indent")
          (txt "Weird indentation; use 2 spaces") world_init.
Proof.
  exact (@check_indent_behaviour (txt "CMakeLists.txt") 0
           (CleansedLines_init [txt "   set(X 1)"]) error 3 (txt "set(X 1)") world_init
           eq_refl eq_refl).
Defined.

(** ** Which exceptions a run can end with *)

Section Confined.
Variables (H : World -> Prop) (E : exn -> Prop).
Hypothesis H_stable :
  forall w w', spaces (lint w') = spaces (lint w) -> H w -> H w'.
Hypothesis H_zero : forall w, H w -> spaces (lint w) = 0 -> E ZeroDivisionError.

Lemma confined_ret {A} (a : A) : confined H E (ret a).
Proof. intros w Hw. now split. Qed.

Lemma confined_raise {A} (e : exn) : E e -> confined H E (@raise A e).
Proof. intros He w Hw. now split. Qed.

Lemma confined_bind {A B} (c : M A) (k : A -> M B) :
  confined H E c -> (forall a, confined H E (k a)) -> confined H E (bind c k).
Proof.
  intros Hc Hk w Hw. unfold bind. specialize (Hc w Hw).
  destruct (c w) as [[a|e] w1]; simpl in *; [|assumption].
  apply Hk. apply Hc.
Qed.

Lemma confined_bind_post {A B} (Q : A -> Prop) (c : M A) (k : A -> M B) :
  confined H E c ->
  (forall w a w', c w = (Ret a, w') -> Q a) ->
  (forall a, Q a -> confined H E (k a)) ->
  confined H E (bind c k).
Proof.
  intros Hc HQ Hk w Hw. unfold bind. specialize (Hc w Hw). specialize (HQ w).
  destruct (c w) as [[a|e] w1]; simpl in *; [|assumption].
  apply Hk; [eapply HQ; reflexivity | apply Hc].
Qed.

Lemma confined_printing {A} (P : Finding -> Prop) (c : M A) :
  printing P c -> forall w, H w -> H (snd (c w)).
Proof.
  intros Hp w Hw. destruct (Hp w) as (extra & _ & _ & _ & Hs & _).
  eapply H_stable; eassumption.
Qed.

Lemma confined_error (filename : str) (n : nat) (category message : str) :
  confined H E (error filename n category message).
Proof.
  intros w Hw. split.
  - now rewrite error_run.
  - apply (confined_printing (P := fun _ => True)); [|assumption].
    now apply printing_error.
Qed.

Lemma confined_get_lint : confined H E get_lint.
Proof. intros w Hw. now split. Qed.

Lemma confined_get_package : confined H E get_package.
Proof. intros w Hw. now split. Qed.

Lemma confined_get_seen : confined H E get_seen.
Proof. intros w Hw. now split. Qed.

Lemma confined_put_package (p : PackageState) : confined H E (put_package p).
Proof. intros w Hw. split; [exact I|]. eapply H_stable; [|eassumption]. reflexivity. Qed.

Lemma confined_put_seen (s : option bool) : confined H E (put_seen s).
Proof. intros w Hw. split; [exact I|]. eapply H_stable; [|eassumption]. reflexivity. Qed.

Lemma confined_print (s : str) : confined H E (print s).
Proof. intros w Hw. split; [exact I|]. eapply H_stable; [|eassumption]. reflexivity. Qed.

Lemma confined_index (l : list str) (n : nat) : n < length l -> confined H E (index l n).
Proof.
  intro Hn. unfold index.
  destruct (nth_error l n) eqn:Hnth; [apply confined_ret|].
  apply nth_error_None in Hnth. lia.
Qed.

Lemma confined_try_finally {A} (body : M A) (fin : M unit) :
  confined H E body -> confined H E fin -> confined H E (try_finally body fin).
Proof.
  intros Hb Hf w Hw. unfold try_finally. specialize (Hb w Hw).
  destruct (body w) as [r w1]. simpl in Hb. destruct Hb as [Hr Hw1].
  specialize (Hf w1 Hw1). destruct (fin w1) as [[u|e] w2]; simpl in *; tauto.
Qed.

Lemma confined_try_except (body : M unit) (on_value : str -> M unit) (on_other : M unit) :
  (forall w, H w -> H (snd (body w))) ->
  (forall msg, confined H E (on_value msg)) ->
  confined H E on_other ->
  confined H E (try_except body on_value on_other).
Proof.
  intros Hb Hv Ho w Hw. unfold try_except. specialize (Hb w Hw).
  destruct (body w) as [[a|e] w1]; simpl in *; [now split|].
  destruct e; try now apply Ho. now apply Hv.
Qed.

Lemma confined_for_each {X} (xs : list X) (body : X -> M unit) :
  (forall x, In x xs -> confined H E (body x)) -> confined H E (for_each xs body).
Proof.
  induction xs as [|x xs IH]; intro Hall; simpl; [apply confined_ret|].
  apply confined_bind; [apply Hall; now left|]. intros _. apply IH.
  intros y Hy. apply Hall. now right.
Qed.

Lemma confined_check_lint_pragma (filename : str) (n : nat) (raw : str)
  (errors : option Reporter) :
  errors = None \/ errors = Some error ->
  confined H E (check_lint_pragma filename n raw errors).
Proof.
  intro Herr. unfold check_lint_pragma.
  destruct (PyStr.startswith raw (txt "# lint_cmake: ")); [|apply confined_ret].
  apply confined_try_except.
  - apply (confined_printing (P := fun _ => True)). apply printing_set_filters.
  - intro msg. destruct Herr as [-> | ->]; [apply confined_ret | apply confined_error].
  - apply confined_print.
Qed.

Lemma confined_check_indent (filename : str) (n : nat) (cl : CleansedLines) :
  n < length (raw_lines cl) -> confined H E (check_indent filename n cl error).
Proof.
  intros Hn w Hw. unfold check_indent, index.
  destruct (nth_error (raw_lines cl) n) as [line|] eqn:Hline;
    [|apply nth_error_None in Hline; lia].
  monad_unfold.
  destruct (spaces (lint w) =? 0) eqn:Hz.
  - apply Nat.eqb_eq in Hz. split; [eapply H_zero; eassumption | assumption].
  - destruct (negb (get_initial_spaces line mod spaces (lint w) =? 0));
      [now apply confined_error | now split].
Qed.
Ltac confined_step :=
  first
    [ apply confined_ret
    | match goal with |- confined _ _ (error _ _ _ _) => apply confined_error end
    | apply confined_get_lint | apply confined_get_package | apply confined_get_seen
    | apply confined_put_package | apply confined_put_seen | apply confined_print
    | match goal with
      | |- confined _ _ (index _ _) => apply confined_index; assumption
      | |- confined _ _ (bind _ _) => apply confined_bind; [|intro]
      | |- confined _ _ (if ?b then _ else _) => destruct b
      | |- confined _ _ (match ?x with _ => _ end) => destruct x
      end ]; try assumption.

Variable filename : str.
Hypothesis E_find : is_find_package filename = true -> E IndexError.

Lemma confined_repeat_logic_loop (cmds : list str) (n : nat) (line : str) :
  confined H E (repeat_logic_loop cmds filename n line error).
Proof. induction cmds as [|cmd cmds IH]; simpl; repeat confined_step. Qed.

Lemma confined_check_command_spaces (n : nat) (cl : CleansedLines) :
  n < length (lines cl) -> confined H E (check_command_spaces filename n cl error).
Proof.
  intro Hn. unfold check_command_spaces.
  apply confined_bind; [now apply confined_index|]. intro line.
  destruct (contains_command line) as [[g1 g2]|] eqn:Hcmd; [|repeat confined_step].
  pose proof (@RE_COMMAND_START_SPACES_matches line (g1, g2) Hcmd) as Hstart.
  destruct (RE_COMMAND_START_SPACES line) as [g|]; [|now elim Hstart].
  repeat confined_step.
Qed.

Lemma confined_argument_scan (skip : str) (rest : list str) :
  E IndexError -> confined H E (argument_scan skip rest).
Proof.
  intro He. induction rest as [|l rest IH]; simpl;
    [now apply confined_raise | repeat confined_step].
Qed.

Lemma confined_check_find_package (n : nat) (cl : CleansedLines) :
  n < length (lines cl) -> E IndexError ->
  confined H E (check_find_package filename n cl error).
Proof.
  intros Hn He.
  unfold check_find_package, get_command_argument, have_included, have_used_standard_args.
  repeat first [ apply confined_argument_scan; assumption | confined_step ].
Qed.

Lemma confined_process_line (n : nat) (cl : CleansedLines) :
  n < length (lines cl) -> n < length (raw_lines cl) ->
  confined H E (process_line filename n cl error).
Proof.
  intros Hn Hr.
  unfold process_line, check_line_length, check_upper_lower_case, check_style,
    check_repeat_logic.
  repeat first [ apply confined_check_lint_pragma; now right
               | apply confined_check_indent; assumption
               | apply confined_check_command_spaces; assumption
               | apply confined_repeat_logic_loop
               | apply confined_check_find_package; [assumption | now apply E_find]
               | confined_step ].
Qed.

Lemma confined_read_lines (contents : list str) :
  forall lines0 have_cr, confined H E (read_lines filename contents lines0 have_cr).
Proof.
  induction contents as [|line contents IH]; intros lines0 have_cr.
  - apply confined_ret.
  - rewrite read_lines_cons. apply confined_bind.
    + apply confined_check_lint_pragma. now left.
    + intros _. apply IH.
Qed.

Lemma confined_process_file (linesep : str) (contents : list str) :
  confined H E (process_file linesep filename contents).
Proof.
  unfold process_file. apply confined_bind; [apply confined_get_lint|]. intro l.
  apply confined_try_finally.
  2:{ intros w Hw. split; [exact I|]. eapply H_stable; [|eassumption]. reflexivity. }
  unfold _process_file. destruct (is_valid_file filename); simpl; [|apply confined_print].
  apply confined_bind; [apply confined_put_package|]. intros _.
  apply confined_bind_post
    with (Q := fun r : list str * bool => length (fst r) = length contents + 1).
  { apply confined_read_lines. }
  { intros w r w' Hrun.
    pose proof (proj1 (read_lines_run filename contents [txt "# Lines start at 1"] false w))
      as Hr.
    rewrite Hrun in Hr. simpl in Hr. injection Hr as ->. simpl.
    rewrite length_map. lia. }
  intros [ls have_cr] Hlen. simpl in Hlen.
  apply confined_bind; [unfold check_file_name; repeat confined_step|]. intros _.
  apply confined_bind; [repeat confined_step|]. intros _.
  apply confined_bind; [apply confined_put_seen|]. intros _.
  apply confined_bind.
  - unfold process_lines, line_numbers. apply confined_for_each.
    intros n Hn. apply in_seq in Hn.
    simpl in Hn. rewrite cleanse_length in Hn.
    apply confined_process_line; simpl; [rewrite cleanse_length|]; lia.
  - intros _. unfold done, reset_package_flags.
    apply confined_try_finally; repeat confined_step.
Qed.
End Confined.

(** X13.  A file that is not a Find module, processed with a non-zero indent
    width, never ends with an exception. *)
Theorem process_file_returns_for_ordinary_files (linesep filename : str)
  (contents : list str) (w : World) :
  spaces (lint w) <> 0 ->
  is_find_package filename = false ->
  fst (process_file linesep filename contents w) = Ret tt.
Proof.
  intros Hw Hfind.
  assert (Hc : confined healthy (fun _ => False)
                        (process_file linesep filename contents)).
  { apply confined_process_file.
    - unfold healthy. intros w1 w2 Hs. now rewrite Hs.
    - unfold healthy. intros w1 Hw1 Hz. now elim Hw1.
    - rewrite Hfind. discriminate. }
  destruct (Hc w Hw) as [Hr _].
  destruct (fst (process_file linesep filename contents w)) as [[]|e];
    [reflexivity | now elim Hr].
Qed.

Lemma process_file_returns_for_ordinary_files_witness :
  fst (process_file [PyStr.newline] (txt "CMakeLists.txt")
                    [file_line true (txt "include()")] world_init)
  = Ret tt.
Proof.
  exact (@process_file_returns_for_ordinary_files [PyStr.newline] (txt "CMakeLists.txt")
           [file_line true (txt "include()")] world_init ltac:(discriminate) eq_refl).
Defined.

(** X14.  Whatever the file and the state, the only exceptions a run can end with
    are [IndexError] (the argument scan of a Find module) and
    [ZeroDivisionError] (indent width 0): a malformed pragma never aborts
    the file, and the second pattern of the spacing check always matches
    where the first one did. *)
Theorem process_file_exceptions (linesep filename : str) (contents : list str)
  (w : World) :
  fst (process_file linesep filename contents w) = Ret tt
  \/ fst (process_file linesep filename contents w) = Raise IndexError
  \/ fst (process_file linesep filename contents w) = Raise ZeroDivisionError.
Proof.
  assert (Hc : confined (fun _ => True)
                        (fun e => e = IndexError \/ e = ZeroDivisionError)
                        (process_file linesep filename contents)).
  { apply confined_process_file; auto. }
  destruct (Hc w I) as [Hr _].
  destruct (fst (process_file linesep filename contents w)) as [[]|e]; [now left|].
  destruct Hr as [-> | ->]; auto.
Qed.

(** ** The first pass and ignored files *)

(** X15.  The reading loop never fails and prints no finding, whatever the pragma
    lines hold: it returns the lines it was given followed by each line of
    the file without its line terminator, and the flag tells whether one of
    them ended with a carriage return. *)
Theorem read_lines_result (filename : str) (contents lines0 : list str)
  (have_cr : bool) (w : World) :
  fst (read_lines filename contents lines0 have_cr w)
  = Ret (lines0 ++ map chomp contents, have_cr || existsb has_cr contents)
  /\ findings (snd (read_lines filename contents lines0 have_cr w)) = findings w
  /\ errors (lint (snd (read_lines filename contents lines0 have_cr w)))
     = errors (lint w).
Proof. apply read_lines_run. Qed.

(** X16.  A file that is neither a [.cmake] file nor a [CMakeLists.txt] is
    skipped with a notice: no finding, no change of the lint state nor of
    the package state. *)
Theorem invalid_file_is_ignored (linesep filename : str) (contents : list str)
  (w : World) :
  is_valid_file filename = false ->
  process_file linesep filename contents w
  = (Ret tt,
     mkWorld (lint w) (package w) (have_seen_uppercase w) (findings w)
             (notices w ++ [txt "Ignoring file: " ++ filename])).
Proof.
  intro Hv. unfold process_file, _process_file. rewrite Hv. monad_unfold. simpl.
  unfold with_filters. now destruct (lint w).
Qed.

Lemma invalid_file_is_ignored_witness :
  process_file [PyStr.newline] (txt "README.md") [txt "  foo (a, b )"] world_init
  = (Ret tt,
     mkWorld lint_init package_init None [] [txt "Ignoring file: " ++ txt "README.md"]).
Proof.
  exact (@invalid_file_is_ignored [PyStr.newline] (txt "README.md")
           [txt "  foo (a, b )"] world_init eq_refl).
Defined.

(** ** The error count and the exit status *)

Lemma printing_weaken (P Q : Finding -> Prop) {A} (c : M A) :
  (forall f, P f -> Q f) -> printing P c -> printing Q c.
Proof.
  intros HPQ Hc w. destruct (Hc w) as (extra & He & HP & Hrest).
  exists extra. split; [assumption|]. split; [|assumption].
  eapply Forall_impl; eauto.
Qed.

Lemma main_files_run (linesep : str) (files : list (str * list str)) (w : World)
  (out : list str) (code : nat) (w' : World) :
  main_files linesep files w = (Ret (out, code), w') ->
  exists extra,
    findings w' = findings w ++ extra
    /\ errors (lint w') = errors (lint w) + length extra
    /\ quiet (lint w') = quiet (lint w)
    /\ code = (if 0 <? errors (lint w') then 1 else 0)
    /\ out = (if (0 <? errors (lint w')) || negb (quiet (lint w'))
              then [txt "Total Errors: " ++ PyStr.fmt_d (errors (lint w'))
                    ++ [PyStr.newline]]
              else []).
Proof.
  unfold main_files. intro Hrun.
  apply bind_ret_inv in Hrun as ([] & w1 & Hloop & Hrun).
  unfold bind, get_lint, ret in Hrun. injection Hrun as <- <- <-.
  assert (Hp : printing (fun _ => True)
                        (for_each files
                           (fun file => process_file linesep (fst file) (snd file)))).
  { apply printing_for_each. intros [f c] _.
    eapply printing_weaken; [|apply printing_process_file]. auto. }
  specialize (Hp w). rewrite Hloop in Hp. simpl in Hp.
  destruct Hp as (extra & He & _ & Hn & _ & _ & _ & Hq).
  exists extra. repeat split; assumption.
Qed.

(** X17.  The run of [main] over the files, from an error count of zero and when
    no file ends with an exception: the exit status is 1 when at least one
    finding was printed and 0 otherwise, and the summary line gives the
    number of findings printed; it is left out only when quiet is set and
    nothing was printed. *)
Theorem main_exit_status (linesep : str) (files : list (str * list str)) (w : World)
  (out : list str) (code : nat) (w' : World) :
  errors (lint w) = 0 ->
  main_files linesep files w = (Ret (out, code), w') ->
  exists extra,
    findings w' = findings w ++ extra
    /\ code = match extra with [] => 0 | _ => _ERROR_CODE_FOUND_ISSUE end
    /\ out = match extra, quiet (lint w) with
             | [], true => []
             | _, _ => [txt "Total Errors: " ++ PyStr.fmt_d (length extra)
                        ++ [PyStr.newline]]
             end.
Proof.
  intros Hzero Hrun.
  apply main_files_run in Hrun as (extra & He & Hn & Hq & -> & ->).
  exists extra. rewrite Hn, Hzero, Hq. simpl.
  split; [assumption|].
  destruct extra as [|f extra]; simpl; split; try reflexivity.
  now destruct (quiet (lint w)).
Qed.

Lemma main_exit_status_witness :
  exists extra,
    findings (snd (main_files [PyStr.newline]
                     [(txt "CMakeLists.txt", [txt "  foo (a, b )"])] world_init))
    = [] ++ extra
    /\ 1 = match extra with [] => 0 | _ => _ERROR_CODE_FOUND_ISSUE end
    /\ [txt "Total Errors: 2" ++ [PyStr.newline]]
       = match extra, false with
         | [], true => []
         | _, _ => [txt "Total Errors: " ++ PyStr.fmt_d (length extra)
                    ++ [PyStr.newline]]
         end.
Proof.
  exact (@main_exit_status [PyStr.newline]
           [(txt "CMakeLists.txt", [txt "  foo (a, b )"])] world_init
           [txt "Total Errors: 2" ++ [PyStr.newline]] 1 _ eq_refl eq_refl).
Defined.

(** ** Find modules *)

(** The repetition returns the result of its longest match that lets the
    rest of the pattern succeed. *)
Lemma star_longest {A} (p : ascii -> bool) (s : str) :
  forall m r (k : str -> str -> option A) x,
    s = m ++ r ->
    forallb p m = true ->
    k m r = Some x ->
    (forall m' r', m' ++ r' = m ++ r -> length m < length m' ->
                   forallb p m' = true -> k m' r' = None) ->
    Re.star p s k = Some x.
Proof.
  induction s as [|c s IH]; intros m r k x Hs Hm Hk Hlong.
  - destruct m; [|discriminate]. destruct r; [|discriminate]. exact Hk.
  - destruct m as [|d m].
    + simpl in Hs. subst r. simpl.
      destruct (p c) eqn:Hc; [|exact Hk].
      destruct (Re.star p s (fun m r => k (c :: m) r)) as [y|] eqn:Hstar; [|exact Hk].
      apply star_sound in Hstar as (m1 & r1 & -> & Hm1 & Hk1).
      rewrite (Hlong (c :: m1) r1) in Hk1; [discriminate | reflexivity | simpl; lia |].
      simpl. now rewrite Hc.
    + simpl in Hs. injection Hs as <- ->. simpl in Hm.
      apply andb_true_iff in Hm as [Hc Hm]. simpl. rewrite Hc.
      rewrite (IH m r (fun m0 r0 => k (c :: m0) r0) x eq_refl Hm Hk); [reflexivity|].
      intros m' r' He Hl Hm'. apply Hlong; simpl; [now rewrite He | lia |].
      now rewrite Hc.
Qed.

Lemma lit_sound {A} (l : str) : forall s (k : str -> option A) x,
  Re.lit l s k = Some x -> exists rest, s = l ++ rest /\ k rest = Some x.
Proof.
  induction l as [|c l IH]; intros s k x H; simpl in H.
  - now exists s.
  - apply chr_sound in H as (r & -> & H). apply IH in H as (rest & -> & H).
    now exists rest.
Qed.

Lemma lit_app {A} (l : str) : forall rest (k : str -> option A),
  Re.lit l (l ++ rest) k = k rest.
Proof.
  induction l as [|c l IH]; intros rest k; simpl; [reflexivity|].
  now rewrite Ascii.eqb_refl, IH.
Qed.

Lemma RE_FIND_MODULE_exact (package : str) :
  forallb Re.dot package = true ->
  RE_FIND_MODULE (txt "Find" ++ package ++ txt ".cmake") = Some (package, []).
Proof.
  intro Hdot. unfold RE_FIND_MODULE. rewrite lit_app.
  apply star_longest with (m := package) (r := txt ".cmake");
    [reflexivity | assumption | reflexivity |].
  intros m' r' He Hl _. cbv beta.
  destruct (Re.lit (txt ".cmake") r' (fun rest => Some (m', rest))) as [y|] eqn:Hlit;
    [|exact Hlit].
  apply lit_sound in Hlit as (rest & -> & _).
  apply (f_equal (@length ascii)) in He. rewrite !length_app in He.
  change (length (txt ".cmake")) with 6 in He. lia.
Qed.

Lemma take_while_app (p : ascii -> bool) (a b : str) :
  forallb p a = true -> stops p b = true -> PyStr.take_while p (a ++ b) = a.
Proof.
  intros Ha Hb. induction a as [|c a IH]; simpl in *.
  - destruct b as [|c b]; [reflexivity|]. simpl in *.
    now destruct (p c).
  - apply andb_true_iff in Ha as [-> Ha]. now rewrite IH.
Qed.

Lemma forallb_reversed (p : ascii -> bool) (s : str) :
  forallb p (rev s) = forallb p s.
Proof.
  induction s as [|c s IH]; simpl; [reflexivity|].
  rewrite forallb_app, IH. simpl. rewrite andb_true_r. apply andb_comm.
Qed.

Lemma basename_of_path (d name : str) :
  dir_prefix d = true -> slash_free name = true ->
  PyStr.basename (d ++ name) = name.
Proof.
  unfold dir_prefix, slash_free, PyStr.basename. intros Hd Hn.
  rewrite rev_app_distr, take_while_app, rev_involutive; [reflexivity | |].
  - now rewrite forallb_reversed.
  - destruct (rev d) as [|c r]; [reflexivity|]. simpl. now rewrite Hd.
Qed.

Lemma slash_free_find_module (package : str) :
  slash_free package = true ->
  slash_free (txt "Find" ++ package ++ txt ".cmake") = true.
Proof.
  unfold slash_free. intro H. rewrite !forallb_app, H. reflexivity.
Qed.

(** X18.  The name expected by a Find module: for [Find<pkg>.cmake] in any
    directory (the package name holding neither a slash nor a newline) it is
    the package name in upper case, and [have_used_standard_args] reports
    package/stdargs exactly when its argument differs from it; it marks the
    helper as used in both cases. *)
Theorem expected_package_name (d pkg : str) :
  dir_prefix d = true ->
  slash_free pkg = true ->
  forallb Re.dot pkg = true ->
  _get_expected (find_module_path d pkg) = PyStr.upper pkg
  /\ (forall linenumber var errors w,
         have_used_standard_args (find_module_path d pkg) linenumber var errors w
         = let w1 := mkWorld (lint w)
                             (mkPackage (sets (package w))
                                        (have_included_stdargs (package w)) true)
                             (have_seen_uppercase w) (findings w) (notices w) in
           if PyStr.eqb (PyStr.upper pkg) var then (Ret tt, w1)
           else errors (find_module_path d pkg) linenumber (txt "package/stdargs")
                       (txt "Weird variable passed to std args, should be "
                        ++ PyStr.upper pkg ++ txt " not " ++ var) w1).
Proof.
  intros Hd Hs Hdot.
  assert (He : _get_expected (find_module_path d pkg) = PyStr.upper pkg).
  { unfold _get_expected, find_module_path.
    rewrite basename_of_path by auto using slash_free_find_module.
    rewrite RE_FIND_MODULE_exact by assumption. now rewrite app_nil_r. }
  split; [exact He|].
  intros linenumber var errors w. unfold have_used_standard_args. rewrite He.
  monad_unfold. now destruct (PyStr.eqb (PyStr.upper pkg) var).
Qed.

Lemma expected_package_name_witness :
  _get_expected (find_module_path (txt "cmake/modules/") (txt "Foo")) = txt "FOO".
Proof.
  exact (proj1 (@expected_package_name (txt "cmake/modules/") (txt "Foo")
                  eq_refl eq_refl eq_refl)).
Defined.

(** X19.  The file-name check on the Find module of [pkg] in any directory: it
    reports nothing when the package name is upper case (no lower-case
    letter and at least one upper-case letter), and otherwise suggests the
    name in upper case, which is the name itself when it holds no letter. *)
Theorem check_file_name_find_module (d pkg : str) (errors : Reporter) (w : World) :
  dir_prefix d = true ->
  slash_free pkg = true ->
  forallb Re.dot pkg = true ->
  check_file_name (find_module_path d pkg) errors w
  = (if PyStr.isupper pkg then (Ret tt, w)
     else errors (find_module_path d pkg) 0 (txt "convention/filename")
                 (txt "Find modules should use uppercase names; "
                  ++ txt "consider using Find" ++ PyStr.upper pkg ++ txt ".cmake") w)
  /\ (existsb PyStr.is_upper_chr pkg = false ->
      existsb PyStr.is_lower_chr pkg = false ->
      PyStr.isupper pkg = false /\ PyStr.upper pkg = pkg).
Proof.
  intros Hd Hs Hdot. split.
  - unfold check_file_name, find_module_path.
    rewrite basename_of_path by auto using slash_free_find_module.
    rewrite RE_FIND_MODULE_exact by assumption.
    now destruct (PyStr.isupper pkg).
  - intros Hup Hlow. unfold PyStr.isupper. rewrite Hup. split; [reflexivity|].
    clear Hup Hd Hs Hdot. induction pkg as [|c s IH]; [reflexivity|].
    simpl in *. apply orb_false_iff in Hlow as [Hc Hlow].
    unfold PyStr.upper_chr at 1. rewrite Hc. f_equal. now apply IH.
Qed.

Lemma check_file_name_find_module_witness :
  check_file_name (find_module_path [] (txt "123")) error world_init
  = error (find_module_path [] (txt "123")) 0 (txt "convention/filename")
          (txt "Find modules should use uppercase names; "
           ++ txt "consider using Find" ++ txt "123" ++ txt ".cmake") world_init.
Proof.
  exact (proj1 (@check_file_name_find_module [] (txt "123") error world_init
                  eq_refl eq_refl eq_refl)).
Defined.

(** ** The casing of a command *)

Lemma upper_chr_fixed (c : ascii) :
  Ascii.eqb c (PyStr.upper_chr c) = negb (PyStr.is_lower_chr c).
Proof. destruct c as [[] [] [] [] [] [] [] []]; reflexivity. Qed.

Lemma lower_chr_fixed (c : ascii) :
  Ascii.eqb c (PyStr.lower_chr c) = negb (PyStr.is_upper_chr c).
Proof. destruct c as [[] [] [] [] [] [] [] []]; reflexivity. Qed.

Lemma eqb_map_fixed (f : ascii -> ascii) (p : ascii -> bool) (s : str) :
  (forall c, Ascii.eqb c (f c) = negb (p c)) ->
  PyStr.eqb s (map f s) = negb (existsb p s).
Proof.
  intro Hf. induction s as [|c s IH]; [reflexivity|].
  cbn [map PyStr.eqb existsb]. rewrite Hf, IH. now destruct (p c).
Qed.

(** X20.  The two tests on the casing of a command, read on its letters: it is
    upper case when it holds no lower-case letter (so a name without
    letters counts as upper case), and mixed case when it holds both a
    lower-case and an upper-case letter. *)
Theorem command_casing (command : str) :
  is_command_upper_case command = negb (existsb PyStr.is_lower_chr command)
  /\ is_command_mixed_case command
     = existsb PyStr.is_lower_chr command && existsb PyStr.is_upper_chr command.
Proof.
  unfold is_command_upper_case, is_command_mixed_case, PyStr.upper, PyStr.lower.
  rewrite (eqb_map_fixed _ _ command upper_chr_fixed).
  rewrite (eqb_map_fixed _ _ command lower_chr_fixed).
  split; [reflexivity|].
  now destruct (existsb PyStr.is_lower_chr command),
               (existsb PyStr.is_upper_chr command).
Qed.

(** ** The argument of a command *)

Lemma word_runs_are_words (s : str) :
  forall cur,
    forallb PyStr.is_word cur = true ->
    Forall (fun t => t <> [] /\ forallb PyStr.is_word t = true) (Re.word_runs s cur).
Proof.
  assert (Hflush : forall cur,
             forallb PyStr.is_word cur = true ->
             Forall (fun t => t <> [] /\ forallb PyStr.is_word t = true) (Re.flush cur)).
  { intros [|c cur] Hc; [constructor|]. constructor; [|constructor]. split.
    - simpl. intro H. now apply app_eq_nil in H as [_ H].
    - now rewrite forallb_reversed. }
  induction s as [|c s IH]; intros cur Hcur; simpl; [now apply Hflush|].
  destruct (PyStr.is_word c) eqn:Hc.
  - apply IH. simpl. now rewrite Hc.
  - apply Forall_app. split; [now apply Hflush | now apply IH].
Qed.

Lemma first_other_none_inv (skip : str) (tokens : list str) :
  first_other skip tokens = None ->
  forallb (fun t => PyStr.eqb t skip) tokens = true.
Proof.
  unfold first_other. intro H. apply forallb_forall. intros t Ht.
  pose proof (find_none _ _ H t Ht) as Hn. simpl in Hn.
  now apply negb_false_iff in Hn.
Qed.

Lemma argument_scan_result (skip : str) (rest : list str) :
  forall w arg w',
    argument_scan skip rest w = (Ret arg, w') ->
    w' = w
    /\ exists m l,
         nth_error rest m = Some l
         /\ first_other skip (RE_COMMAND_ARG l) = Some arg
         /\ only_token skip (firstn m rest) = true.
Proof.
  induction rest as [|l rest IH]; intros w arg w' H; simpl in H; [discriminate|].
  destruct (first_other skip (RE_COMMAND_ARG l)) as [a|] eqn:Hf.
  - injection H as <- <-. split; [reflexivity|]. exists 0, l. auto.
  - apply IH in H as (-> & m & l' & Hnth & Hfo & Honly). split; [reflexivity|].
    exists (S m), l'. repeat split; auto.
    simpl. now rewrite (first_other_none_inv _ _ Hf), Honly.
Qed.

(** X21.  When [get_command_argument] returns, the state is unchanged and the
    argument is a non-empty word other than the command name: the first
    such token of a line at or after the invocation, every token before it,
    on the lines in between, being the command name itself. *)
Theorem get_command_argument_result (n : nat) (cl : CleansedLines) (line arg : str)
  (w w' : World) :
  nth_error (lines cl) n = Some line ->
  get_command_argument n cl w = (Ret arg, w') ->
  w' = w
  /\ arg <> [] /\ forallb PyStr.is_word arg = true
  /\ arg <> get_command line
  /\ exists m l,
       nth_error (lines cl) (n + m) = Some l
       /\ first_other (get_command line) (RE_COMMAND_ARG l) = Some arg
       /\ only_token (get_command line) (firstn m (skipn n (lines cl))) = true.
Proof.
  intros Hline Hrun. unfold get_command_argument, bind, index in Hrun.
  rewrite Hline in Hrun. simpl in Hrun.
  apply argument_scan_result in Hrun as (-> & m & l & Hnth & Hfo & Honly).
  rewrite nth_error_skipn in Hnth.
  pose proof Hfo as Hfind. unfold first_other in Hfind.
  apply find_some in Hfind as [Hin Hne].
  pose proof (word_runs_are_words l [] eq_refl) as Hwords.
  apply (proj1 (Forall_forall _ _) Hwords) in Hin as [Hnil Hword].
  repeat split; auto.
  - intros ->. rewrite str_eqb_refl in Hne. discriminate.
  - exists m, l. auto.
Qed.

Lemma get_command_argument_result_witness :
  txt "FindPackageHandleStandardArgs" <> get_command (txt "include(")
  /\ exists m l,
       nth_error (lines (CleansedLines_init
                           [txt "include("; txt "  FindPackageHandleStandardArgs)"]))
                 (0 + m) = Some l
       /\ first_other (get_command (txt "include(")) (RE_COMMAND_ARG l)
          = Some (txt "FindPackageHandleStandardArgs")
       /\ only_token (get_command (txt "include("))
            (firstn m (skipn 0 (lines (CleansedLines_init
               [txt "include("; txt "  FindPackageHandleStandardArgs)"])))) = true.
Proof.
  exact (proj2 (proj2 (proj2
           (@get_command_argument_result 0
              (CleansedLines_init [txt "include("; txt "  FindPackageHandleStandardArgs)"])
              (txt "include(") (txt "FindPackageHandleStandardArgs")
              world_init world_init eq_refl eq_refl)))).
Defined.

(** ** The package state while the lines are read *)

(** X22.  The command name of an [include] is compared without regard to case,
    the name of the helper with regard to it: when the argument scan
    returns [arg], the included flag is set exactly when [arg] is
    [FindPackageHandleStandardArgs]; and a command other than [include] and
    [find_package_handle_standard_args] leaves the state as it is. *)
Theorem check_find_package_transitions (filename : str) (n : nat) (cl : CleansedLines)
  (errors : Reporter) (line : str) (w : World) :
  nth_error (lines cl) n = Some line ->
  (forall arg,
      PyStr.lower (get_command line) = txt "include" ->
      get_command_argument n cl w = (Ret arg, w) ->
      check_find_package filename n cl errors w
      = (Ret tt,
         if PyStr.eqb arg (txt "FindPackageHandleStandardArgs")
         then mkWorld (lint w)
                      (mkPackage (sets (package w)) true (have_used_stdargs (package w)))
                      (have_seen_uppercase w) (findings w) (notices w)
         else w))
  /\ (PyStr.eqb (PyStr.lower (get_command line)) (txt "include") = false ->
      PyStr.eqb (PyStr.lower (get_command line))
                (txt "find_package_handle_standard_args") = false ->
      check_find_package filename n cl errors w = (Ret tt, w)).
Proof.
  intro Hline. split.
  - intros arg Hcmd Harg. unfold check_find_package, index. rewrite Hline.
    monad_unfold.
    destruct (get_command line) as [|c cmd] eqn:Hget; [discriminate Hcmd|].
    rewrite Hcmd.
    change (PyStr.eqb (txt "include") (txt "include")) with true. cbv beta iota.
    rewrite Harg. unfold have_included.
    now destruct (PyStr.eqb arg (txt "FindPackageHandleStandardArgs")).
  - intros Hi Hu. unfold check_find_package, index. rewrite Hline. monad_unfold.
    rewrite Hi, Hu. now destruct (get_command line).
Qed.

Lemma check_find_package_transitions_witness :
  check_find_package (txt "FindFOO.cmake") 0
    (CleansedLines_init [txt "INCLUDE(FindPackageHandleStandardArgs)"]) error world_init
  = (Ret tt, mkWorld lint_init (mkPackage [] true false) None [] []).
Proof.
  exact (proj1 (@check_find_package_transitions (txt "FindFOO.cmake") 0
                  (CleansedLines_init [txt "INCLUDE(FindPackageHandleStandardArgs)"])
                  error (txt "INCLUDE(FindPackageHandleStandardArgs)") world_init eq_refl)
               (txt "FindPackageHandleStandardArgs") eq_refl eq_refl).
Defined.

(** * The package state over a whole run *)

(** ** The other checks leave the package state alone *)

Lemma steady_refl (w : World) : steady w w.
Proof. repeat split. exists []. rewrite app_nil_r. auto. Qed.

Lemma steady_trans (w1 w2 w3 : World) : steady w1 w2 -> steady w2 w3 -> steady w1 w3.
Proof.
  intros (Hp & Hf & e & He & HP) (Hp' & Hf' & e' & He' & HP').
  repeat split; try congruence.
  exists (e ++ e'). rewrite He', He, app_assoc. split; [reflexivity|].
  now apply Forall_app.
Qed.

Lemma steadily_ret {A} (a : A) : steadily (ret a).
Proof. intro w. apply steady_refl. Qed.

Lemma steadily_raise {A} (e : exn) : steadily (@raise A e).
Proof. intro w. apply steady_refl. Qed.

Lemma steadily_bind {A B} (c : M A) (k : A -> M B) :
  steadily c -> (forall a, steadily (k a)) -> steadily (bind c k).
Proof.
  intros Hc Hk w. unfold bind. specialize (Hc w).
  destruct (c w) as [[a|e] w1]; simpl in *; [|assumption].
  eapply steady_trans; [exact Hc | apply Hk].
Qed.

Lemma steadily_error (filename : str) (n : nat) (category message : str) :
  PyStr.eqb category (txt "package/consistency") = false ->
  steadily (error filename n category message).
Proof.
  intros Hc w. rewrite error_run. simpl.
  destruct (should_print_error (filters (lint w)) category); [|apply steady_refl].
  repeat split. exists [mkFinding filename n category message].
  split; [reflexivity|]. constructor; [exact Hc | constructor].
Qed.

Lemma steadily_get_lint : steadily get_lint.
Proof. intro w. apply steady_refl. Qed.

Lemma steadily_get_seen : steadily get_seen.
Proof. intro w. apply steady_refl. Qed.

Lemma steadily_put_seen (s : option bool) : steadily (put_seen s).
Proof. intro w. repeat split. exists []. simpl. rewrite app_nil_r. auto. Qed.

Lemma steadily_index (l : list str) (n : nat) : steadily (index l n).
Proof. unfold index. destruct (nth_error l n); [apply steadily_ret | apply steadily_raise]. Qed.

Ltac steady_step :=
  first
    [ apply steadily_ret | apply steadily_raise
    | match goal with
      | |- steadily (error _ _ _ _) => apply steadily_error; reflexivity
      end
    | apply steadily_get_lint | apply steadily_get_seen | apply steadily_put_seen
    | apply steadily_index
    | match goal with
      | |- steadily (bind _ _) => apply steadily_bind; [|intro]
      | |- steadily (if ?b then _ else _) => destruct b
      | |- steadily (match ?x with _ => _ end) => destruct x
      end ].

Lemma steadily_repeat_logic_loop (cmds : list str) (filename : str) (n : nat) (line : str) :
  steadily (repeat_logic_loop cmds filename n line error).
Proof. induction cmds as [|cmd cmds IH]; simpl; repeat steady_step. exact IH. Qed.

Lemma steadily_checks_before (filename : str) (n : nat) (cl : CleansedLines) :
  steadily (check_line_length filename n cl error ;;
            check_upper_lower_case filename n cl error ;;
            check_style filename n cl error).
Proof.
  unfold check_line_length, check_upper_lower_case, check_style, check_indent,
    check_command_spaces, check_repeat_logic.
  repeat first [ apply steadily_repeat_logic_loop | steady_step ].
Qed.

Lemma steadily_check_file_name (filename : str) : steadily (check_file_name filename error).
Proof. unfold check_file_name. repeat steady_step. Qed.

(** ** The line loop and the package state *)

(** Unfolds the operations of the monad in a hypothesis. *)
Ltac monad_unfold_in H :=
  cbv beta iota zeta delta
    [bind ret raise get_lint put_lint get_package put_package get_seen put_seen
     print_finding print try_finally try_except reset_package_flags] in H.

Lemma argument_scan_pure (skip : str) (rest : list str) (w : World) :
  argument_scan skip rest w
  = (match scan_argument skip rest with
     | Some arg => Ret arg
     | None => Raise IndexError
     end, w).
Proof.
  induction rest as [|line rest IH]; simpl; [reflexivity|].
  destruct (first_other skip (RE_COMMAND_ARG line)); [reflexivity | exact IH].
Qed.

Lemma flags_over_nil (cl : CleansedLines) (p : PackageState) : flags_over cl [] p = p.
Proof. destruct p. unfold flags_over. simpl. now rewrite !orb_false_r. Qed.

Lemma flags_over_cons (cl : CleansedLines) (n : nat) (ns : list nat) (p : PackageState) :
  flags_over cl (n :: ns) p = flags_over cl ns (flags_over cl [n] p).
Proof. unfold flags_over. simpl. now rewrite !orb_false_r, !orb_assoc. Qed.

Lemma steady_flags (cl : CleansedLines) (ns : list nat) (w1 w2 : World) :
  steady w1 w2 -> flags_over cl ns (package w2) = flags_over cl ns (package w1).
Proof. intros (Hp & _). now rewrite Hp. Qed.

(** The package check of one line, run to its end: the flags record whether
    the line includes or invokes the helper, and the only finding is the
    package/stdargs one. *)
Lemma check_find_package_step (filename : str) (n : nat) (cl : CleansedLines)
  (line : str) (w w' : World) :
  nth_error (lines cl) n = Some line ->
  check_find_package filename n cl error w = (Ret tt, w') ->
  package w' = flags_over cl [n] (package w)
  /\ filters (lint w') = filters (lint w)
  /\ exists extra, findings w' = findings w ++ extra /\ Forall off_package extra.
Proof.
  intros Hline Hrun.
  unfold check_find_package, get_command_argument, includes_helper, uses_helper,
    flags_over, includes_helper, uses_helper in *.
  cbn [existsb]. rewrite Hline.
  unfold bind at 1, index in Hrun. rewrite Hline in Hrun. cbn [ret] in Hrun.
  assert (Hkeep : forall p : PackageState,
             p = mkPackage (sets p) (have_included_stdargs p || (false || false))
                           (have_used_stdargs p || (false || false)))
    by (intros []; simpl; now rewrite !orb_false_r).
  destruct (get_command line) as [|c cmd] eqn:Hcmd.
  - injection Hrun as <-.
    change (PyStr.eqb (PyStr.lower []) (txt "include")) with false.
    change (PyStr.eqb (PyStr.lower []) (txt "find_package_handle_standard_args"))
      with false.
    cbn [andb]. split; [apply Hkeep|]. split; [reflexivity|].
    exists []. rewrite app_nil_r. auto.
  - remember (c :: cmd) as k eqn:Hk. clear Hk.
    destruct (PyStr.eqb (PyStr.lower k) (txt "include")) eqn:Hinc.
    + assert (Hfp : PyStr.eqb (PyStr.lower k) (txt "find_package_handle_standard_args")
                    = false)
        by (apply str_eqb_eq in Hinc; rewrite Hinc; reflexivity).
      rewrite Hfp. unfold bind in Hrun. cbn [ret] in Hrun.
      rewrite argument_scan_pure, Hcmd in Hrun.
      destruct (scan_argument k (skipn n (lines cl))) as [arg|]; [|discriminate Hrun].
      unfold have_included in Hrun.
      destruct (PyStr.eqb arg (txt "FindPackageHandleStandardArgs"));
        monad_unfold_in Hrun; injection Hrun as <-; cbn [andb orb package lint findings].
      * rewrite !orb_true_r, !orb_false_r. repeat split.
        exists []. rewrite app_nil_r. auto.
      * split; [apply Hkeep|]. split; [reflexivity|].
        exists []. rewrite app_nil_r. auto.
    + destruct (PyStr.eqb (PyStr.lower k) (txt "find_package_handle_standard_args")).
      * unfold bind in Hrun. cbn [ret] in Hrun. rewrite argument_scan_pure, Hcmd in Hrun.
        destruct (scan_argument k (skipn n (lines cl))) as [arg|]; [|discriminate Hrun].
        unfold have_used_standard_args in Hrun. monad_unfold_in Hrun.
        destruct (negb (PyStr.eqb (_get_expected filename) arg)).
        -- rewrite error_run in Hrun.
           destruct (should_print_error _ _); injection Hrun as <-;
             cbn [andb orb package lint findings emit];
             rewrite !orb_true_r, !orb_false_r; repeat split.
           ++ eexists. split; [reflexivity|]. constructor; [reflexivity | constructor].
           ++ exists []. rewrite app_nil_r. auto.
        -- injection Hrun as <-. cbn [andb orb package lint findings].
           rewrite !orb_true_r, !orb_false_r. repeat split.
           exists []. rewrite app_nil_r. auto.
      * injection Hrun as <-. cbn [andb]. split; [apply Hkeep|]. split; [reflexivity|].
        exists []. rewrite app_nil_r. auto.
Qed.

Lemma steadily_snd {A} (c : M A) (w w' : World) (r : outcome A) :
  steadily c -> c w = (r, w') -> steady w w'.
Proof. intros Hc H. specialize (Hc w). now rewrite H in Hc. Qed.

(** One line of a Find module, not a pragma, processed to its end. *)
Lemma process_line_package (filename : str) (n : nat) (cl : CleansedLines)
  (line raw : str) (w w' : World) :
  is_find_package filename = true ->
  nth_error (lines cl) n = Some line ->
  nth_error (raw_lines cl) n = Some raw ->
  is_pragma raw = false ->
  process_line filename n cl error w = (Ret tt, w') ->
  package w' = flags_over cl [n] (package w)
  /\ filters (lint w') = filters (lint w)
  /\ exists extra, findings w' = findings w ++ extra /\ Forall off_package extra.
Proof.
  intros Hfind Hline Hraw Hplain Hrun. unfold process_line in Hrun.
  apply bind_ret_inv in Hrun as (raw' & w0 & Hidx & Hrun).
  unfold index in Hidx. rewrite Hraw in Hidx. injection Hidx as <- <-.
  rewrite check_lint_pragma_plain in Hrun by exact Hplain.
  apply bind_ret_inv in Hrun as (? & w1 & Hp & Hrun). injection Hp as _ <-.
  rewrite Hfind in Hrun.
  assert (Hsplit : exists w2,
             (check_line_length filename n cl error ;;
              check_upper_lower_case filename n cl error ;;
              check_style filename n cl error) w = (Ret tt, w2)
             /\ check_find_package filename n cl error w2 = (Ret tt, w')).
  { unfold bind in *.
    destruct (check_line_length filename n cl error w) as [[[]|] wa]; [|discriminate].
    destruct (check_upper_lower_case filename n cl error wa) as [[[]|] wb]; [|discriminate].
    destruct (check_style filename n cl error wb) as [[[]|] wc]; [|discriminate].
    eauto. }
  destruct Hsplit as (w2 & Hbefore & Hpkg).
  apply (@steadily_snd _ _ _ _ _ (steadily_checks_before filename n cl)) in Hbefore.
  destruct (@check_find_package_step filename n cl line w2 w' Hline Hpkg) as (Hp & Hf & e & He & HP).
  destruct Hbefore as (Hp0 & Hf0 & e0 & He0 & HP0).
  split; [now rewrite Hp, Hp0|]. split; [congruence|].
  exists (e0 ++ e). rewrite He, He0, app_assoc. split; [reflexivity|].
  now apply Forall_app.
Qed.

(** The loop over the lines from [s] on, run to its end. *)
Lemma process_lines_package (filename : str) (cl : CleansedLines) :
  is_find_package filename = true ->
  forallb (fun raw => negb (is_pragma raw)) (raw_lines cl) = true ->
  forall len s w w',
    s + len = length (lines cl) ->
    for_each (seq s len) (fun n => process_line filename n cl error) w = (Ret tt, w') ->
    package w' = flags_over cl (seq s len) (package w)
    /\ filters (lint w') = filters (lint w)
    /\ exists extra, findings w' = findings w ++ extra /\ Forall off_package extra.
Proof.
  intros Hfind Hplain.
  induction len as [|len IH]; intros s w w' Hlen Hrun.
  - injection Hrun as <-. rewrite flags_over_nil. repeat split.
    exists []. rewrite app_nil_r. auto.
  - cbn [seq for_each] in Hrun. apply bind_ret_inv in Hrun as ([] & w1 & Hstep & Hrun).
    assert (Hs : s < length (lines cl)) by lia.
    destruct (nth_error (lines cl) s) as [ls|] eqn:Hls;
      [|apply nth_error_None in Hls; lia].
    destruct (nth_error (raw_lines cl) s) as [raw|] eqn:Hraw.
    2:{ unfold process_line, bind, index in Hstep. rewrite Hraw in Hstep.
        discriminate Hstep. }
    assert (Hr : is_pragma raw = false).
    { apply nth_error_In in Hraw.
      pose proof (proj1 (forallb_forall _ _) Hplain raw Hraw) as H.
      now apply negb_true_iff in H. }
    destruct (@process_line_package filename s cl ls raw w w1 Hfind Hls Hraw Hr Hstep)
      as (Hp1 & Hf1 & e1 & He1 & HP1).
    destruct (IH (S s) w1 w') as (Hp & Hf & e & He & HP); [lia | exact Hrun |].
    split; [cbn [seq]; now rewrite flags_over_cons, Hp, Hp1|]. split; [congruence|].
    exists (e1 ++ e). rewrite He, He1, app_assoc. split; [reflexivity|].
    now apply Forall_app.
Qed.

(** Without pragma lines the reading loop leaves the world as it is. *)
Lemma read_lines_plain (filename : str) (contents : list str) :
  forallb (fun l => negb (is_pragma (chomp l))) contents = true ->
  forall lines0 have_cr w,
    read_lines filename contents lines0 have_cr w
    = (Ret (lines0 ++ map chomp contents, have_cr || existsb has_cr contents), w).
Proof.
  induction contents as [|line contents IH]; intros Hplain lines0 have_cr w.
  - simpl. now rewrite app_nil_r, orb_false_r.
  - cbn [forallb] in Hplain. apply andb_true_iff in Hplain as [Hl Hplain].
    apply negb_true_iff in Hl.
    rewrite read_lines_cons, check_lint_pragma_plain by exact Hl.
    unfold bind. cbn [ret]. rewrite (IH Hplain).
    cbn [map existsb]. now rewrite <- app_assoc, orb_assoc.
Qed.

Lemma done_run (filename : str) (w : World) :
  is_find_package filename = true ->
  should_print_error (filters (lint w)) (txt "package/consistency") = true ->
  exists w',
    done filename error w = (Ret tt, w')
    /\ findings w' = findings w ++ missing_findings filename (package w)
    /\ have_included_stdargs (package w') = false
    /\ have_used_stdargs (package w') = false
    /\ filters (lint w') = filters (lint w).
Proof.
  intros Hfind Hprint. unfold done, missing_findings. monad_unfold. rewrite Hfind. simpl.
  destruct (have_included_stdargs (package w)), (have_used_stdargs (package w));
    simpl; rewrite ?error_run, ?Hprint; simpl; rewrite ?error_run; simpl;
    rewrite ?Hprint; simpl; rewrite ?app_nil_r, <- ?app_assoc;
    eexists; repeat split.
Qed.

Lemma file_lines_plain (contents : list str) :
  forallb (fun l => negb (is_pragma (chomp l))) contents = true ->
  forallb (fun raw => negb (is_pragma raw)) (file_lines contents) = true.
Proof.
  intro H. unfold file_lines. rewrite !forallb_app.
  apply andb_true_iff. split; [apply andb_true_iff; split|];
    [reflexivity | | reflexivity].
  induction contents as [|l contents IH]; [reflexivity|].
  cbn [forallb map] in *. apply andb_true_iff in H as [Hl H].
  now rewrite Hl, IH.
Qed.

(** A whole run over a Find module without pragma lines, ended normally. *)
Lemma find_module_run (linesep filename : str) (contents : list str) (w w' : World) :
  is_find_package filename = true ->
  forallb (fun l => negb (is_pragma (chomp l))) contents = true ->
  should_print_error (filters (lint w)) (txt "package/consistency") = true ->
  process_file linesep filename contents w = (Ret tt, w') ->
  let cl := CleansedLines_init (file_lines contents) in
  (exists extra,
      findings w'
      = findings w ++ extra
        ++ missing_findings filename (flags_over cl (line_numbers cl) package_init)
      /\ Forall off_package extra)
  /\ have_included_stdargs (package w') = false
  /\ have_used_stdargs (package w') = false.
Proof.
  intros Hfind Hplain Hprint Hrun cl.
  unfold process_file in Hrun.
  apply bind_ret_inv in Hrun as (l & w0 & Hl & Hrun). injection Hl as <- <-.
  unfold try_finally in Hrun.
  destruct (_process_file linesep filename contents w) as [r w1] eqn:Hbody.
  cbn in Hrun. injection Hrun as -> <-. cbn [findings package].
  unfold _process_file in Hbody.
  assert (Hvalid : is_valid_file filename = true).
  { unfold is_find_package in Hfind. apply andb_true_iff in Hfind as [_ He].
    unfold is_valid_file. now rewrite He. }
  rewrite Hvalid in Hbody. cbn [negb] in Hbody.
  apply bind_ret_inv in Hbody as ([] & wa & Ha & Hbody).
  unfold bind at 1 in Hbody. rewrite (@read_lines_plain filename contents Hplain) in Hbody.
  apply bind_ret_inv in Hbody as ([] & wb & Hb & Hbody).
  apply bind_ret_inv in Hbody as ([] & wc & Hc & Hbody).
  apply bind_ret_inv in Hbody as ([] & wd & Hd & Hbody).
  apply bind_ret_inv in Hbody as ([] & we & He & Hdone).
  fold (file_lines contents) in He, Hdone. fold cl in He, Hdone.
  injection Ha as <-.
  apply (@steadily_snd _ _ _ _ _ (steadily_check_file_name filename)) in Hb.
  assert (Hcs : steady wb wc).
  { destruct (_ && _) in Hc.
    - refine (@steadily_snd _ _ _ _ _ _ Hc). apply steadily_error. reflexivity.
    - injection Hc as <-. apply steady_refl. }
  apply (@steadily_snd _ _ _ _ _ (steadily_put_seen None)) in Hd.
  pose proof (steady_trans (steady_trans Hb Hcs) Hd) as (Hp & Hf & e & Hfs & HP).
  cbn [package lint findings] in Hp, Hf, Hfs.
  unfold process_lines, line_numbers in He.
  destruct (@process_lines_package filename cl Hfind (file_lines_plain _ Hplain)
              (length (lines cl)) 0 wd we eq_refl He) as (Hp' & Hf' & e' & Hfs' & HP').
  destruct (@done_run filename we Hfind) as (wf & Hrun & Hfin & Hi & Hu & _);
    [now rewrite Hf', Hf|].
  rewrite Hrun in Hdone. injection Hdone as <-.
  split; [|now split].
  exists (e ++ e'). rewrite Hfin, Hp', Hp, Hfs', Hfs, <- !app_assoc.
  split; [reflexivity | now apply Forall_app].
Qed.

(** ** Including and invoking the helper on a command line *)

Lemma get_command_command_line (ws cmd ws2 rest : str) :
  forallb PyStr.isspace ws = true ->
  cmd <> [] ->
  forallb PyStr.is_word cmd = true ->
  forallb PyStr.isspace ws2 = true ->
  get_command (command_line ws cmd ws2 rest) = cmd.
Proof.
  intros Hws Hne Hcmd Hws2.
  assert (Hsome : RE_COMMAND (command_line ws cmd ws2 rest) <> None).
  { unfold RE_COMMAND, command_line.
    apply star_complete; auto. apply plus_complete; auto.
    apply star_complete; auto. apply chr_complete. discriminate. }
  unfold get_command.
  destruct (RE_COMMAND (command_line ws cmd ws2 rest)) as [[g1 g2]|] eqn:Hre;
    [|now elim Hsome].
  apply RE_COMMAND_sound in Hre as (ws' & rest' & Heq & Hws' & Hne' & Hg1 & Hg2).
  unfold command_line in Heq.
  apply (span_unique PyStr.isspace) in Heq as [-> Heq];
    auto using stops_space_word.
  apply (span_unique PyStr.is_word) in Heq as [-> Heq];
    auto using stops_word_tail.
Qed.

Lemma word_runs_word (a : str) :
  forallb PyStr.is_word a = true ->
  forall s cur, Re.word_runs (a ++ s) cur = Re.word_runs s (rev a ++ cur).
Proof.
  induction a as [|x a IH]; intros Ha s cur; [reflexivity|].
  cbn [forallb] in Ha. apply andb_true_iff in Ha as [Hx Ha].
  cbn [app Re.word_runs rev]. rewrite Hx, IH by exact Ha. now rewrite <- app_assoc.
Qed.

Lemma word_runs_gap (a : str) :
  forallb (fun c => negb (PyStr.is_word c)) a = true ->
  forall s, Re.word_runs (a ++ s) [] = Re.word_runs s [].
Proof.
  induction a as [|x a IH]; intros Ha s; [reflexivity|].
  cbn [forallb] in Ha. apply andb_true_iff in Ha as [Hx Ha].
  apply negb_true_iff in Hx.
  cbn [app Re.word_runs]. rewrite Hx. cbn [Re.flush app]. now apply IH.
Qed.

Lemma word_runs_token (t s : str) :
  t <> [] ->
  forallb PyStr.is_word t = true ->
  stops PyStr.is_word s = true ->
  Re.word_runs (t ++ s) [] = t :: Re.word_runs s [].
Proof.
  intros Hne Ht Hs. rewrite word_runs_word by exact Ht. rewrite app_nil_r.
  assert (Hflush : Re.flush (rev t) = [t]).
  { unfold Re.flush. destruct (rev t) eqn:Hr.
    - apply (f_equal (@rev ascii)) in Hr. rewrite rev_involutive in Hr. now elim Hne.
    - now rewrite <- Hr, rev_involutive. }
  destruct s as [|c s]; cbn [Re.word_runs]; [now rewrite Hflush|].
  cbn [stops] in Hs. apply negb_true_iff in Hs. now rewrite Hs, Hflush.
Qed.

Lemma spaces_gap (a : str) :
  forallb PyStr.isspace a = true ->
  forallb (fun c => negb (PyStr.is_word c)) a = true.
Proof.
  induction a as [|x a IH]; [reflexivity|]. cbn [forallb]. intro H.
  apply andb_true_iff in H as [Hx Ha]. now rewrite (space_not_word _ Hx), IH.
Qed.

Lemma skipn_nth_error {X} (l : list X) :
  forall n x, nth_error l n = Some x -> skipn n l = x :: skipn (S n) l.
Proof.
  induction l as [|y l IH]; intros [|n] x H; try discriminate H.
  - now injection H as ->.
  - apply (IH n x H).
Qed.

(** On a line that is a command name, an opening parenthesis and a first
    argument, the line includes the helper exactly when the command is
    [include], in any case, and the argument is the helper's name; it
    invokes the helper exactly when the command is
    [find_package_handle_standard_args], in any case. *)
Lemma helper_on_command_line (cl : CleansedLines) (n : nat)
  (ws cmd ws2 ws3 arg tail : str) :
  nth_error (lines cl) n = Some (command_line ws cmd ws2 (ws3 ++ arg ++ tail)) ->
  forallb PyStr.isspace ws = true ->
  cmd <> [] -> forallb PyStr.is_word cmd = true ->
  forallb PyStr.isspace ws2 = true ->
  forallb PyStr.isspace ws3 = true ->
  arg <> [] -> forallb PyStr.is_word arg = true ->
  stops PyStr.is_word tail = true ->
  arg <> cmd ->
  includes_helper cl n
  = PyStr.eqb (PyStr.lower cmd) (txt "include")
    && PyStr.eqb arg (txt "FindPackageHandleStandardArgs")
  /\ uses_helper cl n
     = PyStr.eqb (PyStr.lower cmd) (txt "find_package_handle_standard_args").
Proof.
  intros Hn Hws Hne Hcmd Hws2 Hws3 Hane Harg Htail Hdiff.
  unfold includes_helper, uses_helper. rewrite Hn, (skipn_nth_error _ _ Hn).
  rewrite get_command_command_line by assumption.
  assert (Hscan : forall rest,
             scan_argument cmd (command_line ws cmd ws2 (ws3 ++ arg ++ tail) :: rest)
             = Some arg).
  { intro rest. cbn [scan_argument]. unfold RE_COMMAND_ARG, command_line.
    rewrite word_runs_gap by now apply spaces_gap.
    rewrite word_runs_token by auto using stops_word_tail.
    rewrite word_runs_gap by now apply spaces_gap.
    change ("("%char :: ws3 ++ arg ++ tail) with (["("%char] ++ ws3 ++ arg ++ tail).
    rewrite word_runs_gap by reflexivity.
    rewrite word_runs_gap by now apply spaces_gap.
    rewrite word_runs_token by assumption.
    unfold first_other. cbn [find]. rewrite str_eqb_refl. cbn [negb].
    destruct (PyStr.eqb arg cmd) eqn:He; [|reflexivity].
    apply str_eqb_eq in He. now elim Hdiff. }
  rewrite Hscan. split; [reflexivity | now rewrite andb_true_r].
Qed.

(** ** C4 *)

(** C4.  The code fails the claim on the Find module whose only line is
    [include()]: no line of the file includes or invokes the helper, yet the
    run ends in the [IndexError] of the argument scan before [done] is
    reached, and no package/consistency finding is printed where the claim
    asks for two.  Every run that does reach [done] behaves as the claim
    says: for a file whose basename starts with [Find] and ends with
    [.cmake], without pragma lines and with package/consistency not filtered
    out, a run of [process_file] that returns has printed, besides findings
    of other categories, exactly the package/consistency findings of the
    conditions no line of the file fulfils, at line 0 (two when no line
    includes or invokes the helper, none when some line includes it and some
    line invokes it), and the two flags are false again. *)
Theorem find_module_package_consistency :
  (let contents := [file_line true (txt "include()")] in
   let cl := CleansedLines_init (file_lines contents) in
   existsb (includes_helper cl) (line_numbers cl) = false
   /\ existsb (uses_helper cl) (line_numbers cl) = false
   /\ run (process_file [PyStr.newline] (txt "FindX.cmake") contents) world_init
      = (Raise IndexError, []))
  /\ (forall linesep filename contents w w',
         PyStr.startswith (PyStr.basename filename) (txt "Find") = true ->
         PyStr.endswith (PyStr.basename filename) (txt ".cmake") = true ->
         forallb (fun l => negb (is_pragma (chomp l))) contents = true ->
         should_print_error (filters (lint w)) (txt "package/consistency") = true ->
         process_file linesep filename contents w = (Ret tt, w') ->
         let cl := CleansedLines_init (file_lines contents) in
         let included := existsb (includes_helper cl) (line_numbers cl) in
         let used := existsb (uses_helper cl) (line_numbers cl) in
         (exists extra,
             findings w'
             = findings w ++ extra
               ++ missing_findings filename (mkPackage [] included used)
             /\ Forall off_package extra)
         /\ (included = false -> used = false ->
             missing_findings filename (mkPackage [] included used)
             = [ mkFinding filename 0 (txt "package/consistency")
                   (txt "Package should include FindPackageHandleStandardArgs");
                 mkFinding filename 0 (txt "package/consistency")
                   (txt "Package should use FIND_PACKAGE_HANDLE_STANDARD_ARGS") ])
         /\ (included = true -> used = true ->
             missing_findings filename (mkPackage [] included used) = [])
         /\ have_included_stdargs (package w') = false
         /\ have_used_stdargs (package w') = false).
Proof.
  split; [vm_compute; repeat split; reflexivity|].
  intros linesep filename contents w w' Hstart Hend Hplain Hprint Hrun cl included used.
  assert (Hfind : is_find_package filename = true)
    by (now rewrite is_find_package_basename, Hstart, Hend).
  destruct (@find_module_run linesep filename contents w w' Hfind Hplain Hprint Hrun)
    as (Hext & Hi & Hu).
  split; [exact Hext|]. split; [|split; [|now split]].
  - intros -> ->. reflexivity.
  - intros -> ->. reflexivity.
Qed.

Lemma find_module_package_consistency_witness :
  Forall off_package
    (findings
       (snd (process_file [PyStr.newline] (txt "cmake/FindX.cmake")
               [ file_line true (txt "include(FindPackageHandleStandardArgs)");
                 file_line true
                   (txt "find_package_handle_standard_args(X DEFAULT_MSG X_LIB)") ]
               world_init)))
  /\ have_included_stdargs
       (package
          (snd (process_file [PyStr.newline] (txt "cmake/FindX.cmake")
                  [ file_line true (txt "include(FindPackageHandleStandardArgs)");
                    file_line true
                      (txt "find_package_handle_standard_args(X DEFAULT_MSG X_LIB)") ]
                  world_init)))
     = false.
Proof.
  set (w' := snd (process_file [PyStr.newline] (txt "cmake/FindX.cmake")
                    [ file_line true (txt "include(FindPackageHandleStandardArgs)");
                      file_line true
                        (txt "find_package_handle_standard_args(X DEFAULT_MSG X_LIB)") ]
                    world_init)).
  destruct (proj2 find_module_package_consistency [PyStr.newline]
              (txt "cmake/FindX.cmake")
              [ file_line true (txt "include(FindPackageHandleStandardArgs)");
                file_line true
                  (txt "find_package_handle_standard_args(X DEFAULT_MSG X_LIB)") ]
              world_init w' eq_refl eq_refl eq_refl eq_refl eq_refl)
    as ((extra & He & HP) & _ & Hboth & Hi & _).
  split; [|exact Hi].
  rewrite He, Hboth by reflexivity. rewrite app_nil_r. exact HP.
Defined.
